(** * Deduplication engine of hh-hackathon-news: a shallow embedding

    The development follows three classes of the backend:

    - [OpenSearchService] (imported as [services/opensearch]; its text
      follows the [NewsRaw] model in [backend/src/models/NewsRaw.ts]),
    - [NewsDeduplicationService] ([backend/src/services/deduplication.ts]),
    - [RSSDeduplicationService] ([backend/src/services/RSSDeduplication.ts]),

    and the schema of [NewsNormalized] (its text follows the [Source] model
    in [backend/src/models/Source.ts]).

    Conventions.

    - A JavaScript string is the list of its UTF-16 code units ([jsstring]).
    - A JavaScript number that is a count or an index is a [nat]; a number
      that is a score or a confidence is an exact rational ([Q]): the
      rounding of IEEE doubles is not modelled.  A number that a caller
      hands over unchecked is a [number]: finite, [NaN] or an infinity.
    - A [Date] is its time value in milliseconds, or the Invalid Date
      ([JSDate]).
    - [undefined] is [None]; JavaScript truthiness is written out where the
      code relies on it.
    - The collaborators (search index, document store, digest, random
      source) are explicit arguments or explicit state; an awaited call that
      may reject has an [outcome]. *)

From Stdlib Require Import Ascii String.
From Stdlib Require Import List Bool Arith NArith ZArith QArith Qminmax Qround.
From Stdlib Require Import Lia Lqa Permutation Sorted.
Import ListNotations.

Set Implicit Arguments.
Close Scope Q_scope.

(* ================================================================== *)
(** * JavaScript strings *)
(* ================================================================== *)

Module JS.

(** A string is a sequence of UTF-16 code units. *)
Definition jsstring := list N.

Definition seqb (a b : jsstring) : bool :=
  if list_eq_dec N.eq_dec a b then true else false.

(** [js] reads a literal of this file (UTF-8 bytes) as the JavaScript string
    the source file denotes by the same literal.  Code points above U+FFFF
    become surrogate pairs. *)
Fixpoint utf8_decode (bs : list N) : jsstring :=
  match bs with
  | [] => []
  | b0 :: r0 =>
      if b0 <? 128 then b0 :: utf8_decode r0
      else match r0 with
      | [] => [b0]
      | b1 :: r1 =>
          if b0 <? 224 then ((b0 - 192) * 64 + (b1 - 128)) :: utf8_decode r1
          else match r1 with
          | [] => [b0; b1]
          | b2 :: r2 =>
              if b0 <? 240
              then ((b0 - 224) * 4096 + (b1 - 128) * 64 + (b2 - 128)) :: utf8_decode r2
              else match r2 with
              | [] => [b0; b1; b2]
              | b3 :: r3 =>
                  let cp := (b0 - 240) * 262144 + (b1 - 128) * 4096
                            + (b2 - 128) * 64 + (b3 - 128) in
                  let v := cp - 65536 in
                  (55296 + v / 1024) :: (56320 + v mod 1024) :: utf8_decode r3
              end
          end
      end
  end%N.

Definition js (s : string) : jsstring :=
  utf8_decode (map N_of_ascii (list_ascii_of_string s)).

(** ** Character classes *)

Definition in_range (lo hi c : N) : bool := ((lo <=? c) && (c <=? hi))%N.

(** [\s] of a regular expression and the white space of [String.prototype.trim]:
    WhiteSpace and LineTerminator of ECMAScript. *)
Definition isSpace (c : N) : bool :=
  in_range 9 13 c || (c =? 32)%N || (c =? 160)%N || (c =? 5760)%N
  || in_range 8192 8202 c || (c =? 8232)%N || (c =? 8233)%N
  || (c =? 8239)%N || (c =? 8287)%N || (c =? 12288)%N || (c =? 65279)%N.

(** [\w] without the unicode flag: [A-Za-z0-9_]. *)
Definition isWord (c : N) : bool :=
  in_range 65 90 c || in_range 97 122 c || in_range 48 57 c || (c =? 95)%N.

(** ** [toLowerCase]

    [String.prototype.toLowerCase] lowercases the code points of the string
    with the locale-insensitive mappings of the Unicode Character Database:
    the simple lowercase mappings of [UnicodeData.txt] and the mappings of
    [SpecialCasing.txt], by which U+0130 becomes U+0069 U+0307 and U+03A3
    becomes U+03C2 in the Final_Sigma context.  The tables are those of
    version 14 of the standard; an engine built on a later version knows a
    few more pairs of letters, all of them outside ASCII. *)

Definition isLeadSurrogate (c : N) : bool := in_range 55296 56319 c.
Definition isTrailSurrogate (c : N) : bool := in_range 56320 57343 c.

(** A surrogate pair is one code point; a surrogate on its own is kept. *)
Fixpoint StringToCodePoints (s : jsstring) : list N :=
  match s with
  | [] => []
  | c :: r =>
      match r with
      | d :: r' =>
          if isLeadSurrogate c && isTrailSurrogate d
          then (65536 + (c - 55296) * 1024 + (d - 56320))%N :: StringToCodePoints r'
          else c :: StringToCodePoints r
      | [] => [c]
      end
  end.

Definition CodePointsToString (cps : list N) : jsstring :=
  flat_map (fun cp => if (cp <? 65536)%N then [cp]
                      else [55296 + (cp - 65536) / 1024; 56320 + (cp - 65536) mod 1024]%N)
           cps.

(** The simple lowercase mappings, in rows [(first, last, step, image)]: the
    code points [first], [first + step], ..., [last] have the lowercase
    [image], [image + step], ...  The rows are in the order of [first]. *)
Definition lowercaseRows : list (N * N * N * N) :=
  [
   (65, 90, 1, 97); (192, 214, 1, 224); (216, 222, 1, 248); (256, 302, 2, 257);
   (306, 310, 2, 307); (313, 327, 2, 314); (330, 374, 2, 331); (376, 376, 1, 255);
   (377, 381, 2, 378); (385, 385, 1, 595); (386, 388, 2, 387); (390, 390, 1, 596);
   (391, 391, 1, 392); (393, 394, 1, 598); (395, 395, 1, 396); (398, 398, 1, 477);
   (399, 399, 1, 601); (400, 400, 1, 603); (401, 401, 1, 402); (403, 403, 1, 608);
   (404, 404, 1, 611); (406, 406, 1, 617); (407, 407, 1, 616); (408, 408, 1, 409);
   (412, 412, 1, 623); (413, 413, 1, 626); (415, 415, 1, 629); (416, 420, 2, 417);
   (422, 422, 1, 640); (423, 423, 1, 424); (425, 425, 1, 643); (428, 428, 1, 429);
   (430, 430, 1, 648); (431, 431, 1, 432); (433, 434, 1, 650); (435, 437, 2, 436);
   (439, 439, 1, 658); (440, 440, 1, 441); (444, 444, 1, 445); (452, 452, 1, 454);
   (453, 453, 1, 454); (455, 455, 1, 457); (456, 456, 1, 457); (458, 458, 1, 460);
   (459, 475, 2, 460); (478, 494, 2, 479); (497, 497, 1, 499); (498, 500, 2, 499);
   (502, 502, 1, 405); (503, 503, 1, 447); (504, 542, 2, 505); (544, 544, 1, 414);
   (546, 562, 2, 547); (570, 570, 1, 11365); (571, 571, 1, 572); (573, 573, 1, 410);
   (574, 574, 1, 11366); (577, 577, 1, 578); (579, 579, 1, 384); (580, 580, 1, 649);
   (581, 581, 1, 652); (582, 590, 2, 583); (880, 882, 2, 881); (886, 886, 1, 887);
   (895, 895, 1, 1011); (902, 902, 1, 940); (904, 906, 1, 941); (908, 908, 1, 972);
   (910, 911, 1, 973); (913, 929, 1, 945); (931, 939, 1, 963); (975, 975, 1, 983);
   (984, 1006, 2, 985); (1012, 1012, 1, 952); (1015, 1015, 1, 1016); (1017, 1017, 1, 1010);
   (1018, 1018, 1, 1019); (1021, 1023, 1, 891); (1024, 1039, 1, 1104); (1040, 1071, 1, 1072);
   (1120, 1152, 2, 1121); (1162, 1214, 2, 1163); (1216, 1216, 1, 1231); (1217, 1229, 2, 1218);
   (1232, 1326, 2, 1233); (1329, 1366, 1, 1377); (4256, 4293, 1, 11520); (4295, 4295, 1, 11559);
   (4301, 4301, 1, 11565); (5024, 5103, 1, 43888); (5104, 5109, 1, 5112); (7312, 7354, 1, 4304);
   (7357, 7359, 1, 4349); (7680, 7828, 2, 7681); (7838, 7838, 1, 223); (7840, 7934, 2, 7841);
   (7944, 7951, 1, 7936); (7960, 7965, 1, 7952); (7976, 7983, 1, 7968); (7992, 7999, 1, 7984);
   (8008, 8013, 1, 8000); (8025, 8031, 2, 8017); (8040, 8047, 1, 8032); (8072, 8079, 1, 8064);
   (8088, 8095, 1, 8080); (8104, 8111, 1, 8096); (8120, 8121, 1, 8112); (8122, 8123, 1, 8048);
   (8124, 8124, 1, 8115); (8136, 8139, 1, 8050); (8140, 8140, 1, 8131); (8152, 8153, 1, 8144);
   (8154, 8155, 1, 8054); (8168, 8169, 1, 8160); (8170, 8171, 1, 8058); (8172, 8172, 1, 8165);
   (8184, 8185, 1, 8056); (8186, 8187, 1, 8060); (8188, 8188, 1, 8179); (8486, 8486, 1, 969);
   (8490, 8490, 1, 107); (8491, 8491, 1, 229); (8498, 8498, 1, 8526); (8544, 8559, 1, 8560);
   (8579, 8579, 1, 8580); (9398, 9423, 1, 9424); (11264, 11311, 1, 11312); (11360, 11360, 1, 11361);
   (11362, 11362, 1, 619); (11363, 11363, 1, 7549); (11364, 11364, 1, 637); (11367, 11371, 2, 11368);
   (11373, 11373, 1, 593); (11374, 11374, 1, 625); (11375, 11375, 1, 592); (11376, 11376, 1, 594);
   (11378, 11378, 1, 11379); (11381, 11381, 1, 11382); (11390, 11391, 1, 575); (11392, 11490, 2, 11393);
   (11499, 11501, 2, 11500); (11506, 11506, 1, 11507); (42560, 42604, 2, 42561); (42624, 42650, 2, 42625);
   (42786, 42798, 2, 42787); (42802, 42862, 2, 42803); (42873, 42875, 2, 42874); (42877, 42877, 1, 7545);
   (42878, 42886, 2, 42879); (42891, 42891, 1, 42892); (42893, 42893, 1, 613); (42896, 42898, 2, 42897);
   (42902, 42920, 2, 42903); (42922, 42922, 1, 614); (42923, 42923, 1, 604); (42924, 42924, 1, 609);
   (42925, 42925, 1, 620); (42926, 42926, 1, 618); (42928, 42928, 1, 670); (42929, 42929, 1, 647);
   (42930, 42930, 1, 669); (42931, 42931, 1, 43859); (42932, 42946, 2, 42933); (42948, 42948, 1, 42900);
   (42949, 42949, 1, 642); (42950, 42950, 1, 7566); (42951, 42953, 2, 42952); (42960, 42960, 1, 42961);
   (42966, 42968, 2, 42967); (42997, 42997, 1, 42998); (65313, 65338, 1, 65345); (66560, 66599, 1, 66600);
   (66736, 66771, 1, 66776); (66928, 66964, 2, 66967); (66929, 66937, 2, 66968); (66941, 66953, 2, 66980);
   (66957, 66961, 2, 66996); (66965, 66965, 1, 67004); (68736, 68786, 1, 68800); (71840, 71871, 1, 71872);
   (93760, 93791, 1, 93792); (125184, 125217, 1, 125218)
  ]%N.

Fixpoint lookupRow (c : N) (rows : list (N * N * N * N)) : option N :=
  match rows with
  | [] => None
  | (first, last, step, image) :: r =>
      if (c <? first)%N then None
      else if (c <=? last)%N && ((c - first) mod step =? 0)%N
           then Some (image + (c - first))%N
           else lookupRow c r
  end.

(** The lowercase of one code point, out of context. *)
Definition lowerPoint (c : N) : list N :=
  if (c =? 304)%N then [105; 775]%N
  else match lookupRow c lowercaseRows with
       | Some l => [l]
       | None => [c]
       end.

(** Ranges of code points, in order. *)
Fixpoint inRanges (c : N) (rs : list (N * N)) : bool :=
  match rs with
  | [] => false
  | (first, last) :: r =>
      if (c <? first)%N then false
      else if (c <=? last)%N then true
      else inRanges c r
  end.

(** The code points with the property Case_Ignorable. *)
Definition caseIgnorableRanges : list (N * N) :=
  [
   (39, 39); (46, 46); (58, 58); (94, 94); (96, 96); (168, 168);
   (173, 173); (175, 175); (180, 180); (183, 184); (688, 879); (884, 885);
   (890, 890); (900, 901); (903, 903); (1155, 1161); (1369, 1369); (1375, 1375);
   (1425, 1469); (1471, 1471); (1473, 1474); (1476, 1477); (1479, 1479); (1524, 1524);
   (1536, 1541); (1552, 1562); (1564, 1564); (1600, 1600); (1611, 1631); (1648, 1648);
   (1750, 1757); (1759, 1768); (1770, 1773); (1807, 1807); (1809, 1809); (1840, 1866);
   (1958, 1968); (2027, 2037); (2042, 2042); (2045, 2045); (2070, 2093); (2137, 2139);
   (2184, 2184); (2192, 2193); (2200, 2207); (2249, 2306); (2362, 2362); (2364, 2364);
   (2369, 2376); (2381, 2381); (2385, 2391); (2402, 2403); (2417, 2417); (2433, 2433);
   (2492, 2492); (2497, 2500); (2509, 2509); (2530, 2531); (2558, 2558); (2561, 2562);
   (2620, 2620); (2625, 2626); (2631, 2632); (2635, 2637); (2641, 2641); (2672, 2673);
   (2677, 2677); (2689, 2690); (2748, 2748); (2753, 2757); (2759, 2760); (2765, 2765);
   (2786, 2787); (2810, 2815); (2817, 2817); (2876, 2876); (2879, 2879); (2881, 2884);
   (2893, 2893); (2901, 2902); (2914, 2915); (2946, 2946); (3008, 3008); (3021, 3021);
   (3072, 3072); (3076, 3076); (3132, 3132); (3134, 3136); (3142, 3144); (3146, 3149);
   (3157, 3158); (3170, 3171); (3201, 3201); (3260, 3260); (3263, 3263); (3270, 3270);
   (3276, 3277); (3298, 3299); (3328, 3329); (3387, 3388); (3393, 3396); (3405, 3405);
   (3426, 3427); (3457, 3457); (3530, 3530); (3538, 3540); (3542, 3542); (3633, 3633);
   (3636, 3642); (3654, 3662); (3761, 3761); (3764, 3772); (3782, 3782); (3784, 3789);
   (3864, 3865); (3893, 3893); (3895, 3895); (3897, 3897); (3953, 3966); (3968, 3972);
   (3974, 3975); (3981, 3991); (3993, 4028); (4038, 4038); (4141, 4144); (4146, 4151);
   (4153, 4154); (4157, 4158); (4184, 4185); (4190, 4192); (4209, 4212); (4226, 4226);
   (4229, 4230); (4237, 4237); (4253, 4253); (4348, 4348); (4957, 4959); (5906, 5908);
   (5938, 5939); (5970, 5971); (6002, 6003); (6068, 6069); (6071, 6077); (6086, 6086);
   (6089, 6099); (6103, 6103); (6109, 6109); (6155, 6159); (6211, 6211); (6277, 6278);
   (6313, 6313); (6432, 6434); (6439, 6440); (6450, 6450); (6457, 6459); (6679, 6680);
   (6683, 6683); (6742, 6742); (6744, 6750); (6752, 6752); (6754, 6754); (6757, 6764);
   (6771, 6780); (6783, 6783); (6823, 6823); (6832, 6862); (6912, 6915); (6964, 6964);
   (6966, 6970); (6972, 6972); (6978, 6978); (7019, 7027); (7040, 7041); (7074, 7077);
   (7080, 7081); (7083, 7085); (7142, 7142); (7144, 7145); (7149, 7149); (7151, 7153);
   (7212, 7219); (7222, 7223); (7288, 7293); (7376, 7378); (7380, 7392); (7394, 7400);
   (7405, 7405); (7412, 7412); (7416, 7417); (7468, 7530); (7544, 7544); (7579, 7679);
   (8125, 8125); (8127, 8129); (8141, 8143); (8157, 8159); (8173, 8175); (8189, 8190);
   (8203, 8207); (8216, 8217); (8228, 8228); (8231, 8231); (8234, 8238); (8288, 8292);
   (8294, 8303); (8305, 8305); (8319, 8319); (8336, 8348); (8400, 8432); (11388, 11389);
   (11503, 11505); (11631, 11631); (11647, 11647); (11744, 11775); (11823, 11823); (12293, 12293);
   (12330, 12333); (12337, 12341); (12347, 12347); (12441, 12446); (12540, 12542); (40981, 40981);
   (42232, 42237); (42508, 42508); (42607, 42610); (42612, 42621); (42623, 42623); (42652, 42655);
   (42736, 42737); (42752, 42785); (42864, 42864); (42888, 42890); (42994, 42996); (43000, 43001);
   (43010, 43010); (43014, 43014); (43019, 43019); (43045, 43046); (43052, 43052); (43204, 43205);
   (43232, 43249); (43263, 43263); (43302, 43309); (43335, 43345); (43392, 43394); (43443, 43443);
   (43446, 43449); (43452, 43453); (43471, 43471); (43493, 43494); (43561, 43566); (43569, 43570);
   (43573, 43574); (43587, 43587); (43596, 43596); (43632, 43632); (43644, 43644); (43696, 43696);
   (43698, 43700); (43703, 43704); (43710, 43711); (43713, 43713); (43741, 43741); (43756, 43757);
   (43763, 43764); (43766, 43766); (43867, 43871); (43881, 43883); (44005, 44005); (44008, 44008);
   (44013, 44013); (64286, 64286); (64434, 64450); (65024, 65039); (65043, 65043); (65056, 65071);
   (65106, 65106); (65109, 65109); (65279, 65279); (65287, 65287); (65294, 65294); (65306, 65306);
   (65342, 65342); (65344, 65344); (65392, 65392); (65438, 65439); (65507, 65507); (65529, 65531);
   (66045, 66045); (66272, 66272); (66422, 66426); (67456, 67461); (67463, 67504); (67506, 67514);
   (68097, 68099); (68101, 68102); (68108, 68111); (68152, 68154); (68159, 68159); (68325, 68326);
   (68900, 68903); (69291, 69292); (69446, 69456); (69506, 69509); (69633, 69633); (69688, 69702);
   (69744, 69744); (69747, 69748); (69759, 69761); (69811, 69814); (69817, 69818); (69821, 69821);
   (69826, 69826); (69837, 69837); (69888, 69890); (69927, 69931); (69933, 69940); (70003, 70003);
   (70016, 70017); (70070, 70078); (70089, 70092); (70095, 70095); (70191, 70193); (70196, 70196);
   (70198, 70199); (70206, 70206); (70367, 70367); (70371, 70378); (70400, 70401); (70459, 70460);
   (70464, 70464); (70502, 70508); (70512, 70516); (70712, 70719); (70722, 70724); (70726, 70726);
   (70750, 70750); (70835, 70840); (70842, 70842); (70847, 70848); (70850, 70851); (71090, 71093);
   (71100, 71101); (71103, 71104); (71132, 71133); (71219, 71226); (71229, 71229); (71231, 71232);
   (71339, 71339); (71341, 71341); (71344, 71349); (71351, 71351); (71453, 71455); (71458, 71461);
   (71463, 71467); (71727, 71735); (71737, 71738); (71995, 71996); (71998, 71998); (72003, 72003);
   (72148, 72151); (72154, 72155); (72160, 72160); (72193, 72202); (72243, 72248); (72251, 72254);
   (72263, 72263); (72273, 72278); (72281, 72283); (72330, 72342); (72344, 72345); (72752, 72758);
   (72760, 72765); (72767, 72767); (72850, 72871); (72874, 72880); (72882, 72883); (72885, 72886);
   (73009, 73014); (73018, 73018); (73020, 73021); (73023, 73029); (73031, 73031); (73104, 73105);
   (73109, 73109); (73111, 73111); (73459, 73460); (78896, 78904); (92912, 92916); (92976, 92982);
   (92992, 92995); (94031, 94031); (94095, 94111); (94176, 94177); (94179, 94180); (110576, 110579);
   (110581, 110587); (110589, 110590); (113821, 113822); (113824, 113827); (118528, 118573); (118576, 118598);
   (119143, 119145); (119155, 119170); (119173, 119179); (119210, 119213); (119362, 119364); (121344, 121398);
   (121403, 121452); (121461, 121461); (121476, 121476); (121499, 121503); (121505, 121519); (122880, 122886);
   (122888, 122904); (122907, 122913); (122915, 122916); (122918, 122922); (123184, 123197); (123566, 123566);
   (123628, 123631); (125136, 125142); (125252, 125259); (127995, 127999); (917505, 917505); (917536, 917631);
   (917760, 917999)
  ]%N.

(** The code points with the property Cased that are not Case_Ignorable. *)
Definition casedRanges : list (N * N) :=
  [
   (65, 90); (97, 122); (170, 170); (181, 181); (186, 186); (192, 214);
   (216, 246); (248, 442); (444, 447); (452, 659); (661, 687); (880, 883);
   (886, 887); (891, 893); (895, 895); (902, 902); (904, 906); (908, 908);
   (910, 929); (931, 1013); (1015, 1153); (1162, 1327); (1329, 1366); (1376, 1416);
   (4256, 4293); (4295, 4295); (4301, 4301); (4304, 4346); (4349, 4351); (5024, 5109);
   (5112, 5117); (7296, 7304); (7312, 7354); (7357, 7359); (7424, 7467); (7531, 7543);
   (7545, 7578); (7680, 7957); (7960, 7965); (7968, 8005); (8008, 8013); (8016, 8023);
   (8025, 8025); (8027, 8027); (8029, 8029); (8031, 8061); (8064, 8116); (8118, 8124);
   (8126, 8126); (8130, 8132); (8134, 8140); (8144, 8147); (8150, 8155); (8160, 8172);
   (8178, 8180); (8182, 8188); (8450, 8450); (8455, 8455); (8458, 8467); (8469, 8469);
   (8473, 8477); (8484, 8484); (8486, 8486); (8488, 8488); (8490, 8493); (8495, 8500);
   (8505, 8505); (8508, 8511); (8517, 8521); (8526, 8526); (8544, 8575); (8579, 8580);
   (9398, 9449); (11264, 11387); (11390, 11492); (11499, 11502); (11506, 11507); (11520, 11557);
   (11559, 11559); (11565, 11565); (42560, 42605); (42624, 42651); (42786, 42863); (42865, 42887);
   (42891, 42894); (42896, 42954); (42960, 42961); (42963, 42963); (42965, 42969); (42997, 42998);
   (43002, 43002); (43824, 43866); (43872, 43880); (43888, 43967); (64256, 64262); (64275, 64279);
   (65313, 65338); (65345, 65370); (66560, 66639); (66736, 66771); (66776, 66811); (66928, 66938);
   (66940, 66954); (66956, 66962); (66964, 66965); (66967, 66977); (66979, 66993); (66995, 67001);
   (67003, 67004); (68736, 68786); (68800, 68850); (71840, 71903); (93760, 93823); (119808, 119892);
   (119894, 119964); (119966, 119967); (119970, 119970); (119973, 119974); (119977, 119980); (119982, 119993);
   (119995, 119995); (119997, 120003); (120005, 120069); (120071, 120074); (120077, 120084); (120086, 120092);
   (120094, 120121); (120123, 120126); (120128, 120132); (120134, 120134); (120138, 120144); (120146, 120485);
   (120488, 120512); (120514, 120538); (120540, 120570); (120572, 120596); (120598, 120628); (120630, 120654);
   (120656, 120686); (120688, 120712); (120714, 120744); (120746, 120770); (120772, 120779); (122624, 122633);
   (122635, 122654); (125184, 125251); (127280, 127305); (127312, 127337); (127344, 127369)
  ]%N.

Definition isCaseIgnorable (c : N) : bool := inRanges c caseIgnorableRanges.
Definition isCased (c : N) : bool := inRanges c casedRanges.

(** After [c]: zero or more case-ignorable code points, then a cased
    letter. *)
Fixpoint followedByCased (s : list N) : bool :=
  match s with
  | [] => false
  | c :: r => if isCaseIgnorable c then followedByCased r else isCased c
  end.

(** [toLowercase] of the Unicode Default Case Conversion; [afterCased] says
    that a cased letter and then only case-ignorable code points stand
    before. *)
Fixpoint toLowercase (afterCased : bool) (s : list N) : list N :=
  match s with
  | [] => []
  | c :: r =>
      (if (c =? 931)%N && afterCased && negb (followedByCased r)
       then [962%N]
       else lowerPoint c)
      ++ toLowercase (if isCaseIgnorable c then afterCased else isCased c) r
  end.

Definition toLowerCase (s : jsstring) : jsstring :=
  CodePointsToString (toLowercase false (StringToCodePoints s)).

(** ** [trim] *)

Fixpoint trimStart (s : jsstring) : jsstring :=
  match s with
  | c :: r => if isSpace c then trimStart r else s
  | [] => []
  end.

Definition trimEnd (s : jsstring) : jsstring := rev (trimStart (rev s)).

Definition trim (s : jsstring) : jsstring := trimEnd (trimStart s).

(** ** Global replacements used by the normalisers *)

(** [s.replace(/[cls]/g, '')] *)
Definition removeAll (cls : N -> bool) (s : jsstring) : jsstring :=
  filter (fun c => negb (cls c)) s.

(** [s.replace(/[cls]/g, r)] for a one-unit replacement [r] *)
Definition replaceEach (cls : N -> bool) (r : N) (s : jsstring) : jsstring :=
  map (fun c => if cls c then r else c) s.

(** [s.replace(/\s+/g, ' ')]: every maximal run of white space becomes one
    space. *)
Fixpoint collapseSpaces (s : jsstring) : jsstring :=
  match s with
  | [] => []
  | c :: r =>
      if isSpace c then
        match r with
        | d :: _ => if isSpace d then collapseSpaces r else 32%N :: collapseSpaces r
        | [] => [32%N]
        end
      else c :: collapseSpaces r
  end.

(** ** [split(' ')] *)

Fixpoint splitOn (sep : N) (s : jsstring) : list jsstring :=
  match s with
  | [] => [[]]
  | c :: r =>
      if (c =? sep)%N then [] :: splitOn sep r
      else match splitOn sep r with
           | w :: ws => (c :: w) :: ws
           | [] => [[c]]
           end
  end.

Definition includes (ws : list jsstring) (w : jsstring) : bool :=
  existsb (seqb w) ws.

(** ** [new Set(words)]: the distinct words, in order of first occurrence *)
Fixpoint mkSet (ws : list jsstring) : list jsstring :=
  match ws with
  | [] => []
  | w :: r => w :: filter (fun x => negb (seqb x w)) (mkSet r)
  end.

(** [new Set([...set1].filter(x => set2.has(x)))] *)
Definition setIntersection (s1 s2 : list jsstring) : list jsstring :=
  mkSet (filter (includes s2) s1).

(** [new Set([...set1, ...set2])] *)
Definition setUnion (s1 s2 : list jsstring) : list jsstring :=
  mkSet (s1 ++ s2).

(** ** Substrings *)

Fixpoint startsWith (p s : jsstring) : bool :=
  match p, s with
  | [], _ => true
  | a :: p', b :: s' => (a =? b)%N && startsWith p' s'
  | _ :: _, [] => false
  end.

Fixpoint contains (p s : jsstring) : bool :=
  startsWith p s ||
  match s with
  | [] => false
  | _ :: r => contains p r
  end.

Definition endsWith (p s : jsstring) : bool := startsWith (rev p) (rev s).

(** JavaScript truthiness of a possibly undefined string: [undefined] and
    the empty string are falsy. *)
Definition truthy (o : option jsstring) : bool :=
  match o with
  | Some (_ :: _) => true
  | _ => false
  end.

(** [a || b] on possibly undefined strings. *)
Definition or_else (a b : option jsstring) : option jsstring :=
  if truthy a then a else b.

(** [a || ''] *)
Definition or_empty (a : option jsstring) : jsstring :=
  match a with
  | Some s => s
  | None => []
  end.

End JS.

Import JS.

(* ================================================================== *)
(** * Numbers *)
(* ================================================================== *)

(** [a / b] on two counts. *)
Definition ratio (a b : nat) : Q :=
  (inject_Z (Z.of_nat a) / inject_Z (Z.of_nat b))%Q.

(** [a > b] on scores. *)
Definition gt (a b : Q) : bool := negb (Qle_bool a b).

(** [Math.max] and [Math.min] *)
Definition Math_max (a b : Q) : Q := if Qle_bool a b then b else a.
Definition Math_min (a b : Q) : Q := if Qle_bool a b then a else b.
Definition Math_max3 (a b c : Q) : Q := Math_max (Math_max a b) c.

(** A number that may be any value of the language: a finite value, [NaN]
    or an infinity. *)
Inductive number : Type :=
| Finite (q : Q)
| NaN
| PosInfinity
| NegInfinity.

(** [ToIntegerOrInfinity] of a finite value: the fraction is dropped. *)
Definition truncate (q : Q) : Z :=
  if Qle_bool 0 q then Qfloor q else Qceiling q.

(** [array.slice(0, end)]: a negative [end] counts from the end of the
    array. *)
Definition slice0 (A : Type) (end_ : number) (l : list A) : list A :=
  let len := Z.of_nat (List.length l) in
  match end_ with
  | NaN => []
  | NegInfinity => []
  | PosInfinity => l
  | Finite q =>
      let relativeEnd := truncate q in
      let final := if (relativeEnd <? 0)%Z
                   then Z.max (len + relativeEnd) 0
                   else Z.min relativeEnd len in
      firstn (Z.to_nat final) l
  end.

(* ================================================================== *)
(** * Calls that may throw *)
(* ================================================================== *)

(** The result of a call or of an awaited promise: a value, or a thrown
    [Error] with its [message]. *)
Inductive outcome (A : Type) : Type :=
| Ok (value : A)
| Throw (message : jsstring).

Arguments Ok {A} value.
Arguments Throw {A} message.

(** ** Dates *)

(** A [Date] object: its time value in milliseconds, or [Invalid Date]
    (the time value [NaN], as [new Date] of a text that is no date gives). *)
Inductive JSDate : Type :=
| Time (ms : Z)
| Invalid_Date.

(** [date.toISOString()]: a [RangeError] on an invalid date; the text of a
    valid date is stood for by its time value. *)
Definition toISOString (d : JSDate) : outcome Z :=
  match d with
  | Time ms => Ok ms
  | Invalid_Date => Throw (js "Invalid time value")
  end.

(** ** Printing numbers *)

(** The decimal digits of a count, as [String(n)] prints them. *)
Fixpoint digits_fuel (fuel : nat) (n : N) (acc : jsstring) : jsstring :=
  match fuel with
  | O => acc
  | S fuel' =>
      let acc' := (48 + n mod 10)%N :: acc in
      if (n <? 10)%N then acc' else digits_fuel fuel' (n / 10)%N acc'
  end.

Definition showNat (n : nat) : jsstring :=
  let k := N.of_nat n in digits_fuel (S (N.to_nat (N.log2 k))) k [].

(** [Math.round] of a score that is not negative, as a count. *)
Definition Math_round (x : Q) : nat := Z.to_nat (Qfloor (x + (1 # 2))%Q).

(* ================================================================== *)
(** * RSSDeduplicationService: edit-distance similarity *)
(* ================================================================== *)

Module RSS.

(** The matrix of [calculateStringSimilarity], row by row.  Row [i] holds
    [matrix[i][0..n]]; [matrix[0][j] = j] and [matrix[i][0] = i]. *)
Definition firstRow (n : nat) : list nat := seq 0 (S n).

(** The inner loop [for (j = 1; j <= n; j++)] of row [i]: [prev] is
    [matrix[i-1][j-1..]], [left] is [matrix[i][j-1]], [c2] is
    [s2.charAt(i-1)] and the list argument is [s1] from [charAt(j-1)] on. *)
Fixpoint fillRow (c2 : N) (s1 : jsstring) (prev : list nat) (left : nat) : list nat :=
  match s1, prev with
  | c1 :: s1', diag :: ((up :: _) as prev') =>
      let v := if (c2 =? c1)%N then diag
               else Nat.min (diag + 1) (Nat.min (left + 1) (up + 1)) in
      v :: fillRow c2 s1' prev' v
  | _, _ => []
  end.

Definition nextRow (s1 : jsstring) (prev : list nat) (i : nat) (c2 : N) : list nat :=
  i :: fillRow c2 s1 prev i.

(** The outer loop [for (i = 1; i <= m; i++)]; returns the last row. *)
Fixpoint fillMatrix (s1 s2 : jsstring) (prev : list nat) (i : nat) : list nat :=
  match s2 with
  | [] => prev
  | c2 :: s2' => fillMatrix s1 s2' (nextRow s1 prev i c2) (S i)
  end.

(** [matrix[m][n]] *)
Definition distance (s1 s2 : jsstring) : nat :=
  nth (length s1) (fillMatrix s1 s2 (firstRow (length s1)) 1) 0.

(** [calculateStringSimilarity(str1 = '', str2 = '')]: an [undefined]
    argument takes the default [''] before the body runs. *)
Definition calculateStringSimilarity (str1 str2 : option jsstring) : Q :=
  let str1 := or_empty str1 in
  let str2 := or_empty str2 in
  match str1, str2 with
  | [], _ | _, [] => 0%Q                    (* if (!str1 || !str2) return 0 *)
  | _, _ =>
      let s1 := trim (toLowerCase str1) in
      let s2 := trim (toLowerCase str2) in
      if seqb s1 s2 then 1%Q
      else
        let n := length s1 in
        let m := length s2 in
        if (n =? 0)%nat then (if (m =? 0)%nat then 1%Q else 0%Q)
        else if (m =? 0)%nat then 0%Q
        else
          let distance := distance s1 s2 in
          let maxLength := Nat.max n m in
          if (maxLength =? 0)%nat then 1%Q
          else ratio (maxLength - distance) maxLength
  end.

(** The textbook Levenshtein distance between the first [i] units of [a]
    and the first [j] units of [b]: the least number of insertions,
    deletions and substitutions, by the usual recurrence. *)
Fixpoint levenshtein_prefix (a b : jsstring) (i j : nat) {struct i} : nat :=
  match i with
  | O => j
  | S i' =>
      (fix inner (j : nat) : nat :=
         match j with
         | O => i
         | S j' =>
             let cost := if (nth i' a 0 =? nth j' b 0)%N then 0 else 1 in
             Nat.min (levenshtein_prefix a b i' j + 1)
               (Nat.min (inner j' + 1) (levenshtein_prefix a b i' j' + cost))
         end) j
  end.

Definition levenshtein (a b : jsstring) : nat :=
  levenshtein_prefix a b (length a) (length b).

End RSS.

(* ================================================================== *)
(** * RSSDeduplicationService: sources *)
(* ================================================================== *)

(** ** The [URL] class of the platform

    [URL] and [URLSearchParams] are built into the runtime.  They are
    modelled on a fragment of their inputs, the URLs a feed registration
    usually carries: scheme [http] or [https] followed by [://], a host of
    ASCII letters, digits, dots and hyphens whose last label is not a number
    and that has no [xn--] label, an optional numeric port, then a path and
    a fragment written with characters that need no percent-escape, without
    dot segments, and a query of printable ASCII characters whose percent
    escapes stand for ASCII characters.  On this fragment [parse] follows
    the URL Standard.  An input without any colon has no scheme, and the
    constructor throws ([noScheme]).  For every other input the model does
    not say what the constructor does: [parse] answers [None], and what the
    methods of the service answer there is left open (see [Beyond]). *)
Module URL.

Record t : Type := mk {
  protocol : jsstring;           (* "http:" or "https:" *)
  hostname : jsstring;
  port : jsstring;               (* "" when absent or default *)
  pathname : jsstring;           (* starts with "/" *)
  query : option jsstring;       (* without the "?" *)
  fragment : option jsstring     (* without the "#" *)
}.

(** ASCII lowercase, as the parser applies it to the scheme and the host. *)
Definition asciiLower (s : jsstring) : jsstring :=
  map (fun c => if in_range 65 90 c then (c + 32)%N else c) s.

Definition isDigit (c : N) : bool := in_range 48 57 c.
Definition isHexDigit (c : N) : bool :=
  isDigit c || in_range 65 70 c || in_range 97 102 c.
Definition hexValue (c : N) : N :=
  if isDigit c then c - 48 else if in_range 65 70 c then c - 55 else c - 87.
Definition isHostUnit (c : N) : bool :=
  in_range 97 122 c || isDigit c || (c =? 45)%N || (c =? 46)%N.
(** Units of a path that the parser copies as they are. *)
Definition isPathUnit (c : N) : bool :=
  isWord c || existsb (N.eqb c) (js "/-.~!$&'()*+,;=:@").
(** Units of a query that the parser copies as they are: printable ASCII
    but for the double quote, [#], the single quote, [<] and [>]. *)
Definition isQueryUnit (c : N) : bool :=
  in_range 33 126 c
  && negb ((c =? 34) || (c =? 35) || (c =? 39) || (c =? 60) || (c =? 62))%N.
Definition isFragmentUnit (c : N) : bool :=
  isWord c || existsb (N.eqb c) (js "/-.~!$&'()*+,;=:@?").

(** Every percent escape of [s] stands for an ASCII character. *)
Fixpoint asciiEscapes (s : jsstring) : bool :=
  match s with
  | [] => true
  | c :: r =>
      (if (c =? 37)%N
       then match r with
            | a :: b :: _ =>
                negb (isHexDigit a && isHexDigit b) || (hexValue a <? 8)%N
            | _ => true
            end
       else true)
      && asciiEscapes r
  end.

(** [s] up to the first unit of class [stop], and the rest from it on. *)
Fixpoint span (stop : N -> bool) (s : jsstring) : jsstring * jsstring :=
  match s with
  | [] => ([], [])
  | c :: r => if stop c then ([], s)
              else let '(a, b) := span stop r in (c :: a, b)
  end.

Definition value (s : jsstring) : N :=
  fold_left (fun acc c => acc * 10 + (c - 48))%N s 0%N.

Definition defaultPort (scheme : jsstring) : N :=
  if seqb scheme (js "http") then 80%N else 443%N.

Definition hasDotSegment (path : jsstring) : bool :=
  existsb (fun seg => seqb seg (js ".") || seqb seg (js ".."))
          (splitOn 47%N path).

(** The last label of a host that is not empty; a host that ends in a
    number is read as an IPv4 address, which is left out. *)
Definition lastLabel (host : jsstring) : jsstring :=
  last (filter (fun l => match l with [] => false | _ => true end)
               (splitOn 46%N host)) [].

Definition endsInNumber (host : jsstring) : bool :=
  forallb isDigit (lastLabel host) || startsWith (js "0x") (lastLabel host).

(** A label in Punycode, which the parser decodes and checks. *)
Definition hasPunycodeLabel (host : jsstring) : bool :=
  existsb (startsWith (js "xn--")) (splitOn 46%N host).

(** An input without a colon has no scheme: [new URL(input)] throws. *)
Definition noScheme (input : jsstring) : bool :=
  negb (existsb (N.eqb 58%N) input).

(** The scheme, the host and the port of an input of the fragment, and what
    follows them. *)
Definition authority (input : jsstring)
  : option (jsstring * jsstring * jsstring * jsstring) :=
  let '(scheme, rest) := span (N.eqb 58%N) input in
  let scheme := asciiLower scheme in
  if negb (seqb scheme (js "http") || seqb scheme (js "https")) then None
  else if negb (startsWith (js "://") rest) then None
  else
    let rest := skipn 3 rest in
    let '(authority, rest) :=
      span (fun c => (c =? 47) || (c =? 63) || (c =? 35))%N rest in
    let '(host, portpart) := span (N.eqb 58%N) authority in
    let host := asciiLower host in
    let portdigits := tl portpart in
    if (match host with [] => true | _ => false end)
       || negb (forallb isHostUnit host) || endsInNumber host
       || hasPunycodeLabel host
       || negb (forallb isDigit portdigits) then None
    else if (65535 <? value portdigits)%N then None
    else
      let port :=
        match portdigits with
        | [] => []
        | _ => if (value portdigits =? defaultPort scheme)%N then []
               else showNat (N.to_nat (value portdigits))
        end in
      Some (scheme, host, port, rest).

(** [new URL(input).hostname] on the fragment: the path, the query and the
    fragment have no part in it. *)
Definition hostOf (input : jsstring) : option jsstring :=
  match authority input with
  | Some (_, host, _, _) => Some host
  | None => None
  end.

Definition parse (input : jsstring) : option t :=
  match authority input with
  | None => None
  | Some (scheme, host, port, rest) =>
      let '(path, rest) := span (fun c => (c =? 63) || (c =? 35))%N rest in
      let '(q, rest) :=
        match rest with
        | 63%N :: r => let '(q, rest') := span (N.eqb 35%N) r in (Some q, rest')
        | _ => (None, rest)
        end in
      let f := match rest with
               | 35%N :: r => Some r
               | _ => None
               end in
      if negb (forallb isPathUnit path) || hasDotSegment path
         || negb (forallb isQueryUnit (or_empty q))
         || negb (asciiEscapes (or_empty q))
         || negb (forallb isFragmentUnit (or_empty f)) then None
      else
        Some (mk (scheme ++ js ":") host port
                 (match path with [] => js "/" | _ => path end) q f)
  end.

(** The [search] getter: [""] for an absent or empty query. *)
Definition search (u : t) : jsstring :=
  match query u with
  | Some (c :: q) => 63%N :: c :: q
  | _ => []
  end.

(** The [hostname] setter keeps the old host when the new one is empty or
    not a host of the modelled form. *)
Definition set_hostname (h : jsstring) (u : t) : t :=
  let h := asciiLower h in
  match h with
  | [] => u
  | _ => if forallb isHostUnit h && negb (endsInNumber h)
         then mk (protocol u) h (port u) (pathname u) (query u) (fragment u)
         else u
  end.

(** The [pathname] setter, on a path of units that need no escape. *)
Definition set_pathname (p : jsstring) (u : t) : t :=
  let p := match p with
           | 47%N :: _ => p
           | _ => 47%N :: p
           end in
  mk (protocol u) (hostname u) (port u) p (query u) (fragment u).

(** [url.port = ''] *)
Definition clear_port (u : t) : t :=
  mk (protocol u) (hostname u) [] (pathname u) (query u) (fragment u).

(** The [search] setter: the empty string removes the query. *)
Definition set_search (s : jsstring) (u : t) : t :=
  let q := match s with
           | [] => None
           | 63%N :: r => Some r
           | _ => Some s
           end in
  mk (protocol u) (hostname u) (port u) (pathname u) q (fragment u).

(** [url.toString()] *)
Definition toString (u : t) : jsstring :=
  protocol u ++ js "//" ++ hostname u
  ++ (match port u with [] => [] | p => 58%N :: p end)
  ++ pathname u
  ++ (match query u with Some q => 63%N :: q | None => [] end)
  ++ (match fragment u with Some f => 35%N :: f | None => [] end).

(** ** [URLSearchParams] *)

(** Percent-decoding: [%] and two hexadecimal digits are one byte; a [%]
    that is not followed by two such digits stands for itself. *)
Fixpoint percentDecode (s : jsstring) : jsstring :=
  match s with
  | [] => []
  | c :: r =>
      match r with
      | a :: b :: r' =>
          if (c =? 37)%N && isHexDigit a && isHexDigit b
          then (hexValue a * 16 + hexValue b)%N :: percentDecode r'
          else c :: percentDecode r
      | _ => c :: percentDecode r
      end
  end.

(** A name or a value as the parser of [application/x-www-form-urlencoded]
    reads it: [+] is a space, then the escapes are decoded. *)
Definition formDecode (s : jsstring) : jsstring :=
  percentDecode (map (fun c => if (c =? 43)%N then 32%N else c) s).

(** [new URLSearchParams(search)]: the name-value pairs in order. *)
Definition searchParams (search : jsstring) : list (jsstring * jsstring) :=
  let s := match search with
           | 63%N :: r => r
           | _ => search
           end in
  map (fun piece => let '(k, v) := span (N.eqb 61%N) piece in
                    (formDecode k, formDecode (tl v)))
      (filter (fun piece => match piece with [] => false | _ => true end)
              (splitOn 38%N s)).

(** [params.get(key)]: the value of the first pair named [key]. *)
Definition get (params : list (jsstring * jsstring)) (key : jsstring)
  : option jsstring :=
  option_map snd (find (fun kv => seqb (fst kv) key) params).

Definition hexDigit (n : N) : N := if (n <? 10)%N then (48 + n)%N else (55 + n)%N.

(** A name or a value of ASCII characters as [params.toString()] writes
    it: a space is [+], letters, digits and [*-._] stand for themselves,
    every other character is escaped. *)
Definition formEncode (v : jsstring) : jsstring :=
  flat_map (fun c => if (c =? 32)%N then [43%N]
                     else if isWord c || (c =? 42)%N || (c =? 45)%N || (c =? 46)%N
                          then [c]
                          else [37%N; hexDigit (c / 16); hexDigit (c mod 16)])
           v.

(** [params.toString()] *)
Fixpoint serialize (params : list (jsstring * jsstring)) : jsstring :=
  match params with
  | [] => []
  | [(k, v)] => formEncode k ++ 61%N :: formEncode v
  | (k, v) :: rest => formEncode k ++ 61%N :: formEncode v ++ 38%N :: serialize rest
  end.

End URL.

(** The order of [Array.prototype.sort] without a comparator: strings by
    their code units. *)
Fixpoint str_leb (a b : jsstring) : bool :=
  match a, b with
  | [], _ => true
  | _ :: _, [] => false
  | x :: a', y :: b' => (x <? y)%N || ((x =? y)%N && str_leb a' b')
  end.

Section StableSort.
Variable A : Type.
Variable leb : A -> A -> bool.

(** Insertion after every element that is not greater: the sort is stable. *)
Fixpoint insert_sorted (x : A) (l : list A) : list A :=
  match l with
  | [] => [x]
  | y :: r => if leb y x then y :: insert_sorted x r else x :: l
  end.

Definition stable_sort (l : list A) : list A :=
  fold_left (fun acc x => insert_sorted x acc) l [].
End StableSort.

Module RSSDedup.
Import RSS.

Record RSSMetadata : Type := mkMeta {
  meta_title : option jsstring;
  meta_description : option jsstring;
  meta_link : option jsstring;
  meta_feedUrl : option jsstring
}.

(** A stored source ([ISource]); [metadata] is required by the schema. *)
Record Source : Type := mkSource {
  _id : nat;
  link : jsstring;
  title : jsstring;
  metadata : RSSMetadata
}.

Record DuplicationCheckResult : Type := mkCheck {
  isDuplicate : bool;
  existingSource : option Source;
  reason : option jsstring;
  confidence : Q
}.

Definition stripWww (h : jsstring) : jsstring :=        (* replace(/^www\./, '') *)
  if startsWith (js "www.") h then skipn 4 h else h.

(** What the two methods that build a [URL] answer for an input the model
    of [URL] does not cover.  The model takes these answers as they come:
    nothing is assumed of them. *)
Record Beyond : Type := mkBeyond {
  normalizeUrl_beyond : jsstring -> jsstring;
  extractDomain_beyond : jsstring -> jsstring
}.

Section Service.
Variable B : Beyond.

Definition normalizeUrl (url : jsstring) : jsstring :=
  match URL.parse url with
  | None =>
      if URL.noScheme url then toLowerCase url           (* catch *)
      else normalizeUrl_beyond B url
  | Some urlObj =>
      let urlObj := URL.set_hostname (stripWww (URL.hostname urlObj)) urlObj in
      let urlObj := URL.set_hostname (toLowerCase (URL.hostname urlObj)) urlObj in
      let urlObj := URL.set_pathname (toLowerCase (URL.pathname urlObj)) urlObj in
      let urlObj :=
        if endsWith (js "/") (URL.pathname urlObj)
           && (1 <? List.length (URL.pathname urlObj))
        then URL.set_pathname (removelast (URL.pathname urlObj)) urlObj
        else urlObj in
      let urlObj :=
        if (seqb (URL.protocol urlObj) (js "http:") && seqb (URL.port urlObj) (js "80"))
           || (seqb (URL.protocol urlObj) (js "https:") && seqb (URL.port urlObj) (js "443"))
        then URL.clear_port urlObj
        else urlObj in
      let params := URL.searchParams (URL.search urlObj) in
      let sortedParams :=
        map (fun key => (key, or_empty (or_else (URL.get params key) (Some []))))
            (stable_sort str_leb (map fst params)) in
      let urlObj := URL.set_search (URL.serialize sortedParams) urlObj in
      URL.toString urlObj
  end.

Definition extractDomain (url : jsstring) : jsstring :=
  match URL.hostOf url with
  | Some hostname => toLowerCase (stripWww hostname)
  | None =>
      if URL.noScheme url then []                        (* catch *)
      else extractDomain_beyond B url
  end.

(** [{ link: { $regex: escaped(domain), $options: 'i' } }]: the link contains
    the domain, letter case apart. *)
Definition linkMatchesDomain (domain : jsstring) (s : Source) : bool :=
  contains (toLowerCase domain) (toLowerCase (link s)).

(** [reasons.join(', ')] *)
Fixpoint join (sep : jsstring) (l : list jsstring) : jsstring :=
  match l with
  | [] => []
  | [x] => x
  | x :: r => x ++ sep ++ join sep r
  end.

Definition percent (label : jsstring) (similarity : Q) : jsstring :=
  label ++ showNat (Math_round (similarity * 100)%Q) ++ js "%".

(** One turn of the loop over [sameDomainSources]: the confidence of
    [source] and the reasons that made it. *)
Definition score (normalizedUrl : jsstring) (newMetadata : RSSMetadata)
    (source : Source) : Q * list jsstring :=
  let sourceMetadata := metadata source in
  let confidence := 0%Q in
  let reasons : list jsstring := [] in
  let titleSimilarity :=
    calculateStringSimilarity (meta_title newMetadata) (meta_title sourceMetadata) in
  let '(confidence, reasons) :=
    if gt titleSimilarity 0.85
    then ((confidence + titleSimilarity * 0.4)%Q,
          reasons ++ [percent (js "title similarity: ") titleSimilarity])
    else (confidence, reasons) in
  let descSimilarity :=
    calculateStringSimilarity (meta_description newMetadata)
                              (meta_description sourceMetadata) in
  let '(confidence, reasons) :=
    if gt descSimilarity 0.8
    then ((confidence + descSimilarity * 0.3)%Q,
          reasons ++ [percent (js "description similarity: ") descSimilarity])
    else (confidence, reasons) in
  let linkSimilarity :=
    calculateStringSimilarity
      (Some (normalizeUrl (or_empty (or_else (meta_link newMetadata) (Some [])))))
      (Some (normalizeUrl (or_empty (or_else (meta_link sourceMetadata) (Some []))))) in
  let '(confidence, reasons) :=
    if gt linkSimilarity 0.9
    then ((confidence + linkSimilarity * 0.3)%Q,
          reasons ++ [percent (js "website link similarity: ") linkSimilarity])
    else (confidence, reasons) in
  let normalizedExisting := normalizeUrl (link source) in
  let urlSimilarity :=
    calculateStringSimilarity (Some normalizedUrl) (Some normalizedExisting) in
  let '(confidence, reasons) :=
    if gt urlSimilarity 0.8
    then ((confidence + urlSimilarity * 0.2)%Q,
          reasons ++ [percent (js "URL similarity: ") urlSimilarity])
    else (confidence, reasons) in
  (confidence, reasons).

(** The loop state: [highestConfidence], [bestMatch], [bestReason]. *)
Definition best_step (normalizedUrl : jsstring) (newMetadata : RSSMetadata)
    (st : Q * option Source * jsstring) (source : Source)
  : Q * option Source * jsstring :=
  let '(highestConfidence, bestMatch, bestReason) := st in
  let '(confidence, reasons) := score normalizedUrl newMetadata source in
  if gt confidence highestConfidence
  then (confidence, Some source, join (js ", ") reasons)
  else st.

(** [checkForDuplicate(newUrl, metadata)], the second argument written
    [newMetadata], over the stored sources [db]
    (the [Source] collection, in its natural order).  The content hash the
    method computes first is never read and is left out. *)
Definition checkForDuplicate (db : list Source) (newUrl : jsstring)
    (newMetadata : RSSMetadata) : DuplicationCheckResult :=
  let normalizedUrl := normalizeUrl newUrl in
  let domain := extractDomain newUrl in
  (* 1. Source.findOne({ link: { $in: [newUrl, normalizedUrl] } }) *)
  match find (fun s => seqb (link s) newUrl || seqb (link s) normalizedUrl) db with
  | Some exactUrlMatch =>
      mkCheck true (Some exactUrlMatch) (Some (js "Exact URL match")) 1
  | None =>
      (* 2. Source.find({ link: { $regex: domain, $options: 'i' } }) *)
      let sameDomainSources := filter (linkMatchesDomain domain) db in
      match sameDomainSources with
      | [] => mkCheck false None None 0
      | _ =>
          let '(highestConfidence, bestMatch, bestReason) :=
            fold_left (best_step normalizedUrl newMetadata) sameDomainSources
                      (0%Q, None, []) in
          let isDuplicate := gt highestConfidence 0.75 in
          mkCheck isDuplicate bestMatch
            (Some (match bestReason with
                   | [] => js "Content similarity analysis"
                   | _ => bestReason
                   end))
            highestConfidence
      end
  end.

Record PotentialDuplicate : Type := mkPotential {
  dup_source : Source;
  dup_confidence : Q;
  dup_reason : jsstring
}.

(** [duplicates.sort((a, b) => b.confidence - a.confidence)] *)
Definition byConfidenceDesc (a b : PotentialDuplicate) : bool :=
  Qle_bool (dup_confidence b) (dup_confidence a).

(** [findPotentialDuplicates(sourceId, threshold = 0.7)] *)
Definition findPotentialDuplicates (db : list Source) (sourceId : nat)
    (threshold : option Q) : outcome (Source * list PotentialDuplicate) :=
  let threshold := match threshold with Some t => t | None => 0.7%Q end in
  match find (fun s => (_id s =? sourceId)%nat) db with
  | None => Throw (js "Source not found")
  | Some source =>
      let domain := extractDomain (link source) in
      let otherSources :=
        filter (fun s => negb (_id s =? sourceId)%nat && linkMatchesDomain domain s)
               db in
      let duplicates :=
        flat_map
          (fun otherSource =>
             let result := checkForDuplicate db (link otherSource)
                                             (metadata otherSource) in
             if gt (confidence result) threshold
             then [mkPotential otherSource (confidence result)
                     (or_empty (or_else (reason result)
                                        (Some (js "Similarity analysis"))))]
             else [])
          otherSources in
      Ok (source, stable_sort byConfidenceDesc duplicates)
  end.

End Service.
End RSSDedup.

(* ================================================================== *)
(** * OpenSearchService *)
(* ================================================================== *)

Module OpenSearch.

(** [NewsDocument].  [title] and [content] are declared as strings; the code
    still guards them with [|| ''], so they may be absent here. *)
Record NewsDocument : Type := mkNews {
  id : option jsstring;
  title : option jsstring;
  content : option jsstring;
  description : option jsstring;
  source : option jsstring;
  sourceId : option jsstring;
  lang : option jsstring;
  theme : option jsstring;
  topics : list jsstring;
  tags : list jsstring;
  created_at : JSDate;
  url : option jsstring;
  image : option jsstring;
  content_hash : option jsstring;
  title_hash : option jsstring;
  duplicate_of : option jsstring;
  similarity_score : option Q;
  summaryShortOriginal : option jsstring;
  titleCanonicalOriginal : option jsstring;
  score : option Q
}.

Inductive Method : Type := hash | text_similarity | none.

Record DuplicationResult : Type := mkResult {
  isDuplicate : bool;
  original : option NewsDocument;
  dup_similarity_score : option Q;
  method : Method;
  candidates : option (list NewsDocument)
}.

(** ** The search client *)

(** One hit of a search response. *)
Record Hit : Type := mkHit {
  _score : option Q;
  _source : NewsDocument
}.

(** [hits.total] is a number, or an object whose [value] may be absent, or
    absent itself. *)
Inductive HitsTotal : Type :=
| TotalNumber (n : nat)
| TotalObject (value : option nat)
| TotalAbsent.

Record SearchResponse : Type := mkResponse {
  total : HitsTotal;
  hits : list Hit
}.

(** The two queries [checkForDuplicates] sends. *)
Inductive SearchRequest : Type :=
| ExactHashQuery (contentHash titleHash : jsstring)
    (* bool.should [term content_hash, term title_hash], minimum_should_match 1 *)
| MoreLikeThisQuery (title content : option jsstring).
    (* more_like_this on title^3 and content, created in the last 7 days,
       min_score 2.0 *)

(** What the service is given by the platform: the digest, the random
    source ([Math_random k] is the text of the [k]-th draw) and the search
    client, whose answer depends on what the index holds. *)
Record Platform : Type := mkPlatform {
  sha256 : jsstring -> jsstring;
  Math_random : nat -> jsstring;
  search : list NewsDocument -> SearchRequest -> outcome SearchResponse;
  (* [index_error docs d] is the error of [opensearchClient.index] when the
     index holds [docs] and is given [d], if it fails then *)
  index_error : list NewsDocument -> NewsDocument -> option jsstring
}.

(** A call to the search client, as it is recorded in the log. *)
Inductive Call : Type :=
| CallSearch (request : SearchRequest)
| CallIndex (document : NewsDocument).

(** ** Similarity scorers *)

Definition longer_than_2 (w : jsstring) : bool := (2 <? List.length w)%nat.

Definition calculateSimpleSimilarity (text1 text2 : jsstring) : Q :=
  match text1, text2 with
  | [], _ | _, [] => 0%Q
  | _, _ =>
      let normalize (text : jsstring) :=
        collapseSpaces
          (removeAll (fun c => negb (isWord c || isSpace c))
             (trim (toLowerCase text))) in
      let norm1 := normalize text1 in
      let norm2 := normalize text2 in
      if seqb norm1 norm2 then 1%Q
      else
        let words1 := filter longer_than_2 (splitOn 32%N norm1) in
        let words2 := filter longer_than_2 (splitOn 32%N norm2) in
        match words1, words2 with
        | [], _ | _, [] => 0%Q
        | _, _ =>
            let set1 := mkSet words1 in
            let set2 := mkSet words2 in
            let intersection := setIntersection set1 set2 in
            let union := setUnion set1 set2 in
            ratio (List.length intersection) (List.length union)
        end
  end.

Definition stopWords : list jsstring :=
  map js ["для"; "как"; "что"; "это"; "все"; "она"; "они"; "его"; "её"; "их";
          "был"; "была"; "были"; "при"; "над"; "под"; "про"; "без"; "через"]%string.

Definition calculateDetailedSimilarity (text1 text2 : jsstring) : Q :=
  match text1, text2 with
  | [], _ | _, [] => 0%Q
  | _, _ =>
      let normalize (text : jsstring) :=
        trim
          (collapseSpaces
             (replaceEach (fun c => existsb (N.eqb c) (js ".,!?;:()")) 32%N
                (replaceEach (fun c => existsb (N.eqb c) (js "—–-")) 32%N
                   (removeAll (fun c => existsb (N.eqb c) (34%N :: js "«»„'"))
                      (toLowerCase text))))) in
      let norm1 := normalize text1 in
      let norm2 := normalize text2 in
      let getWords (text : jsstring) :=
        filter (fun word => negb (includes stopWords word))
               (filter longer_than_2 (splitOn 32%N text)) in
      let words1 := getWords norm1 in
      let words2 := getWords norm2 in
      match words1, words2 with
      | [], _ | _, [] => 0%Q
      | _, _ =>
          let set1 := mkSet words1 in
          let set2 := mkSet words2 in
          let intersection := setIntersection set1 set2 in
          let jaccardSimilarity :=
            ratio (List.length intersection) (List.length (setUnion set1 set2)) in
          let coverage1 := ratio (List.length intersection) (List.length set1) in
          let coverage2 := ratio (List.length intersection) (List.length set2) in
          ((jaccardSimilarity + Math_min coverage1 coverage2) / 2)%Q
      end
  end.

Section Service.
Variable P : Platform.

(** The part of the process state the service reads and writes: the number
    of random draws made so far, the documents the index holds, and the log
    of collaborator calls. *)
Record IndexState : Type := mkIndexState {
  randomDraws : nat;
  indexed : list NewsDocument;
  calls : list Call
}.

Definition draw (st : IndexState) : jsstring * IndexState :=
  (Math_random P (randomDraws st),
   mkIndexState (S (randomDraws st)) (indexed st) (calls st)).

Definition generateContentHash (text : jsstring) (st : IndexState)
  : jsstring * IndexState :=
  if (match text with [] => true | _ => false end)
     || (List.length (trim text) <? 10)%nat
  then
    let '(r, st) := draw st in
    (sha256 P (js "EMPTY_CONTENT_" ++ r), st)
  else
    let normalized :=
      trim (collapseSpaces
              (removeAll (fun c => negb (isWord c || isSpace c))
                 (toLowerCase text))) in
    if (List.length normalized <? 10)%nat
    then
      let '(r, st) := draw st in
      (sha256 P (js "SHORT_CONTENT_" ++ r), st)
    else (sha256 P normalized, st).

(** [opensearchClient.search(...)], recorded in the log. *)
Definition client_search (request : SearchRequest) (st : IndexState)
  : outcome SearchResponse * IndexState :=
  (search P (indexed st) request,
   mkIndexState (randomDraws st) (indexed st) (calls st ++ [CallSearch request])).

Definition totalHits_of (t : HitsTotal) : nat :=
  match t with
  | TotalNumber n => n
  | TotalObject (Some v) => v
  | TotalObject None => 0
  | TotalAbsent => 0
  end.

(** The four criteria of the hash stage for one matched document. *)
Record Criteria : Type := mkCriteria {
  isHashDuplicate : bool;
  isSimpleDuplicate : bool;
  isDetailedDuplicate : bool;
  isCombinedDuplicate : bool
}.

Definition option_seqb (a : option jsstring) (b : jsstring) : bool :=
  match a with
  | Some x => seqb x b
  | None => false
  end.

(** The three similarities of the hash stage between the incoming text and
    one matched document. *)
Definition hashSimilarities (titleText contentText : jsstring)
    (original : NewsDocument) : Q * Q * Q :=
  let originalTitle := trim (toLowerCase (or_empty (title original))) in
  let currentTitle := trim (toLowerCase titleText) in
  let simpleTitleSimilarity := calculateSimpleSimilarity originalTitle currentTitle in
  let detailedTitleSimilarity := calculateDetailedSimilarity originalTitle currentTitle in
  let combinedSimilarity :=
    calculateDetailedSimilarity
      (originalTitle ++ js " " ++ or_empty (content original))
      (currentTitle ++ js " " ++ contentText) in
  (simpleTitleSimilarity, detailedTitleSimilarity, combinedSimilarity).

Definition hashCriteria (titleHash : jsstring) (original : NewsDocument)
    (sims : Q * Q * Q) : Criteria :=
  let '(simpleTitleSimilarity, detailedTitleSimilarity, combinedSimilarity) := sims in
  let matchType_is_title_hash := option_seqb (title_hash original) titleHash in
  mkCriteria
    (matchType_is_title_hash && option_seqb (title_hash original) titleHash)
    (gt simpleTitleSimilarity 0.9)
    (gt detailedTitleSimilarity 0.7)
    (gt combinedSimilarity 0.5 && gt detailedTitleSimilarity 0.5).

Definition qualifies (c : Criteria) : bool :=
  isHashDuplicate c || isSimpleDuplicate c || isDetailedDuplicate c
  || isCombinedDuplicate c.

(** The loop [for (i = 0; i < Math.min(totalHits, 3); i++)], with
    [remaining] turns left from index [i] on.  [Ok (Some r)] is the
    [return] inside the loop, [Ok None] is the loop running out, and
    [Throw] is reading [_source] of a hit that is not there. *)
Fixpoint hashLoop (titleText contentText titleHash : jsstring)
    (allHits : list Hit) (remaining i : nat)
  : outcome (option DuplicationResult) :=
  match remaining with
  | O => Ok None
  | S remaining' =>
      match nth_error allHits i with
      | None => Throw (js "Cannot read properties of undefined")
      | Some matchedDoc =>
          let original := _source matchedDoc in
          let sims := hashSimilarities titleText contentText original in
          if qualifies (hashCriteria titleHash original sims)
          then
            let '(simpleTitleSimilarity, detailedTitleSimilarity,
                  combinedSimilarity) := sims in
            Ok (Some (mkResult true (Some original)
                        (Some (Math_max3 simpleTitleSimilarity
                                 detailedTitleSimilarity combinedSimilarity))
                        hash None))
          else hashLoop titleText contentText titleHash allHits remaining' (S i)
      end
  end.

Definition notDuplicate (cands : option (list NewsDocument)) : DuplicationResult :=
  mkResult false None None none cands.

(** The semantic stage on the answer of the more-like-this query. *)
Definition semanticDecision (titleText contentText : jsstring)
    (response : SearchResponse) : DuplicationResult :=
  match hits response with
  | topMatch :: rest =>
      let rawScore := match _score topMatch with Some s => s | None => 0%Q end in
      let similarityScore := (rawScore / 10)%Q in
      let confirmed :=
        if gt similarityScore 1.5 then
          let originalTitle := or_empty (title (_source topMatch)) in
          let originalContent := or_empty (content (_source topMatch)) in
          let currentTitle := titleText in
          let currentContent := contentText in
          let contentSimilarity :=
            calculateDetailedSimilarity
              (originalTitle ++ js " " ++ originalContent)
              (currentTitle ++ js " " ++ currentContent) in
          gt contentSimilarity 0.5
        else false in
      if confirmed
      then mkResult true (Some (_source topMatch)) (Some similarityScore)
             text_similarity (Some (map _source rest))
      else notDuplicate (Some (map _source (hits response)))
  | [] => notDuplicate None
  end.

Definition semanticStage (news : NewsDocument) (titleText contentText : jsstring)
    (st : IndexState) : DuplicationResult * IndexState :=
  let '(similaritySearch, st) :=
    client_search (MoreLikeThisQuery (title news) (content news)) st in
  match similaritySearch with
  | Throw _ => (notDuplicate None, st)                          (* catch *)
  | Ok response => (semanticDecision titleText contentText response, st)
  end.

(** The hash stage: [Ok (Some r)] returns [r], [Ok None] goes on to the
    semantic stage, [Throw] lands in the [catch]. *)
Definition hashStage (titleText contentText combinedText : jsstring)
    (st : IndexState) : outcome (option DuplicationResult) * IndexState :=
  let '(contentHash, st) := generateContentHash combinedText st in
  let '(titleHash, st) := generateContentHash titleText st in
  let '(exactMatch, st) := client_search (ExactHashQuery contentHash titleHash) st in
  match exactMatch with
  | Throw e => (Throw e, st)
  | Ok response =>
      let totalHits := totalHits_of (total response) in
      if (0 <? totalHits)%nat
      then (hashLoop titleText contentText titleHash (hits response)
              (Nat.min totalHits 3) 0, st)
      else (Ok None, st)
  end.

Definition checkForDuplicates (news : NewsDocument) (st : IndexState)
  : DuplicationResult * IndexState :=
  let titleText := or_empty (or_else (title news) (Some [])) in
  let contentText := or_empty (or_else (content news) (Some [])) in
  let combinedText := titleText ++ js " " ++ contentText in
  let hasEnoughContent := (20 <=? List.length (trim combinedText))%nat in
  if hasEnoughContent then
    let '(staged, st) := hashStage titleText contentText combinedText st in
    match staged with
    | Throw _ => (notDuplicate None, st)                        (* catch *)
    | Ok (Some result) => (result, st)
    | Ok None => semanticStage news titleText contentText st
    end
  else semanticStage news titleText contentText st.

(** [a + ' ' + b] where [a] or [b] may be [undefined]. *)
Definition toStr (o : option jsstring) : jsstring :=
  match o with
  | Some s => s
  | None => js "undefined"
  end.

(** [indexNews(news)]: the two hashes are computed, then the document is
    built ([created_at.toISOString()] throws on an invalid date, before the
    client is called) and handed to the index; the answer is the id the
    index gives it. *)
Definition indexNews (news : NewsDocument) (st : IndexState)
  : outcome jsstring * IndexState :=
  let '(contentHash, st) :=
    generateContentHash (toStr (title news) ++ js " " ++ toStr (content news)) st in
  let '(titleHash, st) := generateContentHash (or_empty (title news)) st in
  match toISOString (created_at news) with
  | Throw e => (Throw e, st)
  | Ok created =>
      let document :=
        mkNews (id news) (title news) (content news) (description news)
          (source news) (sourceId news) (lang news) (theme news) (topics news)
          (tags news) (Time created) (url news) (image news)
          (Some contentHash) (Some titleHash)
          (duplicate_of news) (similarity_score news)
          (summaryShortOriginal news) (titleCanonicalOriginal news) (score news) in
      let logged := calls st ++ [CallIndex document] in
      match index_error P (indexed st) document with
      | Some e => (Throw e, mkIndexState (randomDraws st) (indexed st) logged)
      | None =>
          (Ok (showNat (List.length (indexed st))),
           mkIndexState (randomDraws st) (indexed st ++ [document]) logged)
      end
  end.

End Service.
End OpenSearch.

(* ================================================================== *)
(** * NewsDeduplicationService *)
(* ================================================================== *)

Module Dedup.

Record Entities : Type := mkEntities {
  orgs : list jsstring;
  people : list jsstring;
  products : list jsstring
}.

(** The argument of [processNews] ([newsData: any]): every property may be
    absent. *)
Module NewsData.
Record t : Type := mk {
  title : option jsstring;
  content : option jsstring;
  description : option jsstring;
  summaryShort : option jsstring;
  source : option jsstring;
  sourceId : option jsstring;
  lang : option jsstring;
  theme : option jsstring;
  topics : option (list jsstring);
  tags : option (list jsstring);
  created_at : option JSDate;
  url : option jsstring;
  image : option jsstring;
  summaryShortOriginal : option jsstring;
  titleCanonicalOriginal : option jsstring;
  score : option Q;
  newsRawId : option jsstring;
  externalId : option jsstring;
  publishedAt : option jsstring;
  entities : option Entities;
  duplicateHint : option jsstring
}.
End NewsData.

(** The object handed to [NewsNormalized.create].  [publishedAt] is the
    given string or, failing that, the [created_at] date. *)
Module Normalized.
Record t : Type := mk {
  newsRawId : option jsstring;
  sourceId : option jsstring;
  externalId : option jsstring;
  source : option jsstring;
  url : option jsstring;
  titleCanonical : option jsstring;
  lang : option jsstring;
  publishedAt : option (jsstring + JSDate);
  summaryShort : option jsstring;
  topics : list jsstring;
  tags : list jsstring;
  entities : Entities;
  duplicateHint : option jsstring;
  theme : option jsstring;
  created_at : option JSDate;
  summaryShortOriginal : option jsstring;
  titleCanonicalOriginal : option jsstring;
  score : option Q
}.
End Normalized.

(** A stored [INewsNormalized] document: the required paths of the schema
    are present, [_id] and [createdAt] are given by the store. *)
Module Doc.
Record t : Type := mk {
  _id : nat;
  newsRawId : jsstring;
  sourceId : jsstring;
  externalId : jsstring;
  source : jsstring;
  url : jsstring;
  titleCanonical : jsstring;
  lang : jsstring;
  publishedAt : jsstring + JSDate;
  summaryShort : jsstring;
  topics : list jsstring;
  tags : list jsstring;
  entities : Entities;
  duplicateHint : option jsstring;
  theme : option jsstring;
  createdAt : Z;
  summaryShortOriginal : option jsstring;
  titleCanonicalOriginal : option jsstring;
  score : option Q
}.
End Doc.

(** The document store behind the [NewsNormalized] model.
    [create_error docs d] is the error of the store when it holds [docs] and
    is asked to create [d], if it fails then for a reason of its own. *)
Record Store : Type := mkStore {
  create_error : list Doc.t -> Normalized.t -> option jsstring
}.

(** The state of the process and of its two collaborators. *)
Record World : Type := mkWorld {
  os : OpenSearch.IndexState;
  newsNormalized : list Doc.t;
  nextObjectId : nat;
  clock : Z                                   (* [new Date()] *)
}.

Definition with_os (w : World) (st : OpenSearch.IndexState) : World :=
  mkWorld st (newsNormalized w) (nextObjectId w) (clock w).

(** What [processNews] answers.  The [reason] texts are
    [Confirmed duplicate (method, score: s)], [New article saved successfully],
    [Saved to MongoDB (OpenSearch failed)] and [Save failed: message]. *)
Inductive Reason : Type :=
| ConfirmedDuplicate (m : OpenSearch.Method) (similarity_score : Q)
| NewArticleSaved
| SavedToMongoOnly
| SaveFailed (message : jsstring).

Record ProcessResult : Type := mkProcessResult {
  saved : bool;
  reason : Reason;
  original : option OpenSearch.NewsDocument
}.

(** A required path of type [String]: present and not empty. *)
Definition required (o : option jsstring) : option jsstring :=
  if truthy o then o else None.

(** Validation by the schema of [NewsNormalized]: the document to store, or
    [None] when a required path is missing. *)
Definition validate (oid : nat) (now : Z) (d : Normalized.t) : option Doc.t :=
  match Normalized.newsRawId d, Normalized.sourceId d,
        required (Normalized.externalId d), required (Normalized.source d),
        required (Normalized.url d), required (Normalized.titleCanonical d),
        required (Normalized.lang d), Normalized.publishedAt d,
        required (Normalized.summaryShort d) with
  | Some newsRawId, Some sourceId, Some externalId, Some source, Some url,
    Some titleCanonical, Some lang, Some publishedAt, Some summaryShort =>
      if match publishedAt with inl [] => true | _ => false end then None
      else
        Some (Doc.mk oid newsRawId sourceId externalId source url titleCanonical
                lang publishedAt summaryShort (Normalized.topics d)
                (Normalized.tags d) (Normalized.entities d)
                (Normalized.duplicateHint d) (Normalized.theme d) now
                (Normalized.summaryShortOriginal d)
                (Normalized.titleCanonicalOriginal d) (Normalized.score d))
  | _, _, _, _, _, _, _, _, _ => None
  end.

Section Service.
Variable P : OpenSearch.Platform.
Variable DB : Store.

(** [NewsNormalized.create(data)] *)
Definition create (data : Normalized.t) (w : World) : outcome Doc.t * World :=
  match create_error DB (newsNormalized w) data with
  | Some e => (Throw e, w)
  | None =>
      match validate (nextObjectId w) (clock w) data with
      | None => (Throw (js "NewsNormalized validation failed"), w)
      | Some doc =>
          (Ok doc,
           mkWorld (os w) (newsNormalized w ++ [doc]) (S (nextObjectId w))
                   (clock w))
      end
  end.

Definition defaultEntities : Entities := mkEntities [] [] [].

Definition or_list (o : option (list jsstring)) : list jsstring :=
  match o with
  | Some l => l
  | None => []
  end.

(** The object both [try] blocks build; the fallback leaves the last three
    properties out. *)
Definition normalizedNewsData (newsData : NewsData.t) (fallback : bool)
  : Normalized.t :=
  Normalized.mk
    (NewsData.newsRawId newsData)
    (NewsData.sourceId newsData)
    (NewsData.externalId newsData)
    (NewsData.source newsData)
    (NewsData.url newsData)
    (NewsData.title newsData)
    (NewsData.lang newsData)
    (if truthy (NewsData.publishedAt newsData)
     then option_map inl (NewsData.publishedAt newsData)
     else option_map inr (NewsData.created_at newsData))
    (or_else (NewsData.description newsData) (NewsData.content newsData))
    (or_list (NewsData.topics newsData))
    (or_list (NewsData.tags newsData))
    (match NewsData.entities newsData with Some e => e | None => defaultEntities end)
    (NewsData.duplicateHint newsData)
    (NewsData.theme newsData)
    (NewsData.created_at newsData)
    (if fallback then None else NewsData.summaryShortOriginal newsData)
    (if fallback then None else NewsData.titleCanonicalOriginal newsData)
    (if fallback then None else NewsData.score newsData).

(** The [catch] block of [processNews]. *)
Definition fallbackSave (newsData : NewsData.t) (w : World)
  : ProcessResult * World :=
  let '(savedNews, w) := create (normalizedNewsData newsData true) w in
  match savedNews with
  | Ok _ => (mkProcessResult true SavedToMongoOnly None, w)
  | Throw message => (mkProcessResult false (SaveFailed message) None, w)
  end.

(** [similarity_score && similarity_score >= 1.5] *)
Definition confirmedScore (s : option Q) : bool :=
  match s with
  | Some s => negb (Qeq_bool s 0) && Qle_bool 1.5 s
  | None => false
  end.

(** [a || ''] after a chain of [||]. *)
Definition contentTextOf (newsData : NewsData.t) : jsstring :=
  or_empty (or_else (NewsData.content newsData)
              (or_else (NewsData.description newsData)
                 (or_else (NewsData.summaryShort newsData) (Some [])))).

Definition titleTextOf (newsData : NewsData.t) : jsstring :=
  or_empty (or_else (NewsData.title newsData) (Some [])).

(** The [newsDocument] object of [processNews]; [now] is [new Date()]. *)
Definition newsDocumentOf (newsData : NewsData.t) (now : Z)
  : OpenSearch.NewsDocument :=
  OpenSearch.mkNews None (Some (titleTextOf newsData)) (Some (contentTextOf newsData))
    (or_else (NewsData.description newsData) (NewsData.summaryShort newsData))
    (NewsData.source newsData) (NewsData.sourceId newsData)
    (NewsData.lang newsData) (NewsData.theme newsData)
    (or_list (NewsData.topics newsData)) (or_list (NewsData.tags newsData))
    (match NewsData.created_at newsData with Some d => d | None => Time now end)
    (NewsData.url newsData) (NewsData.image newsData)
    None None None None
    (NewsData.summaryShortOriginal newsData)
    (NewsData.titleCanonicalOriginal newsData)
    (NewsData.score newsData).

(** [newsDocument.id = savedNews._id.toString()] *)
Definition withId (d : OpenSearch.NewsDocument) (oid : nat)
  : OpenSearch.NewsDocument :=
  OpenSearch.mkNews (Some (showNat oid))
    (OpenSearch.title d) (OpenSearch.content d) (OpenSearch.description d)
    (OpenSearch.source d) (OpenSearch.sourceId d) (OpenSearch.lang d)
    (OpenSearch.theme d) (OpenSearch.topics d) (OpenSearch.tags d)
    (OpenSearch.created_at d) (OpenSearch.url d) (OpenSearch.image d)
    (OpenSearch.content_hash d) (OpenSearch.title_hash d)
    (OpenSearch.duplicate_of d) (OpenSearch.similarity_score d)
    (OpenSearch.summaryShortOriginal d) (OpenSearch.titleCanonicalOriginal d)
    (OpenSearch.score d).

(** The [try] block of [processNews]: [Ok r] is a [return r], [Throw e] is
    an exception that reaches the [catch]. *)
Definition processNews_try (newsData : NewsData.t) (w : World)
  : outcome ProcessResult * World :=
  let contentText := contentTextOf newsData in
  let titleText := titleTextOf newsData in
  match trim titleText with
  | [] => (Throw (js "Article has no title"), w)
  | _ =>
      let newsDocument := newsDocumentOf newsData (clock w) in
      let '(duplicationResult, st) :=
        OpenSearch.checkForDuplicates P newsDocument (os w) in
      let w := with_os w st in
      if OpenSearch.isDuplicate duplicationResult
         && confirmedScore (OpenSearch.dup_similarity_score duplicationResult)
      then
        (Ok (mkProcessResult false
               (ConfirmedDuplicate (OpenSearch.method duplicationResult)
                  (match OpenSearch.dup_similarity_score duplicationResult with
                   | Some s => s
                   | None => 0%Q
                   end))
               (OpenSearch.original duplicationResult)), w)
      else
        let '(savedNews, w) := create (normalizedNewsData newsData false) w in
        match savedNews with
        | Throw e => (Throw e, w)
        | Ok savedDoc =>
            let newsDocument := withId newsDocument (Doc._id savedDoc) in
            let '(indexedId, st) := OpenSearch.indexNews P newsDocument (os w) in
            let w := with_os w st in
            match indexedId with
            | Throw e => (Throw e, w)
            | Ok _ => (Ok (mkProcessResult true NewArticleSaved None), w)
            end
        end
  end.

Definition processNews (newsData : NewsData.t) (w : World)
  : ProcessResult * World :=
  let '(attempt, w) := processNews_try newsData w in
  match attempt with
  | Ok result => (result, w)
  | Throw _ => fallbackSave newsData w                          (* catch *)
  end.

(** ** The duplicate sweep *)

Definition commonWords : list jsstring :=
  map js ["в"; "на"; "с"; "по"; "для"; "из"; "о"; "от"; "к"; "и"; "а"; "но";
          "или"; "что"; "как"; "за"; "до"; "при"; "со"; "во"; "не"; "же"]%string.

Definition calculateTitleSimilarity (title1 title2 : jsstring) : Q :=
  let normalize (text : jsstring) :=
    trim
      (collapseSpaces
         (removeAll (fun c => existsb (N.eqb c) (js ".,!?;:"))
            (replaceEach (fun c => existsb (N.eqb c) (js "—–")) 45%N
               (replaceEach (fun c => existsb (N.eqb c) (34%N :: js "«»„")) 34%N
                  (toLowerCase text))))) in
  let words (t : jsstring) :=
    filter (fun w => OpenSearch.longer_than_2 w && negb (includes commonWords w))
           (splitOn 32%N (normalize t)) in
  let words1 := words title1 in
  let words2 := words title2 in
  match words1, words2 with
  | [], _ | _, [] => 0%Q
  | _, _ =>
      let set1 := mkSet words1 in
      let set2 := mkSet words2 in
      let intersection := setIntersection set1 set2 in
      let union := setUnion set1 set2 in
      ratio (List.length intersection) (List.length union)
  end.

(** The private [calculateSimpleSimilarity] of this class has the text of
    the method of the same name in [OpenSearchService]. *)
Definition calculateSimpleSimilarity (title1 title2 : jsstring) : Q :=
  OpenSearch.calculateSimpleSimilarity title1 title2.

(** The values [duplicateMethod] takes. *)
Inductive SweepMethod : Type :=
| simple_title_match
| advanced_title_match
| exact_content_hash
| reported (m : OpenSearch.Method).

Inductive Action : Type := removed | error | dry_run.

(** An entry of [duplicatesToRemove]; its [reason] text is made of
    [method] and [similarity]. *)
Record DuplicateToRemove : Type := mkDuplicate {
  dup_id : nat;
  dup_title : jsstring;
  dup_original : Doc.t;
  dup_similarity : Q;
  dup_method : SweepMethod
}.

(** An entry of [results.details]; [createdAt] stands for its ISO text and
    the [reason] text names [originalTitle]. *)
Record Detail : Type := mkDetail {
  det_title : jsstring;
  det_originalTitle : option jsstring;
  det_method : SweepMethod;
  det_similarity : Q;
  det_action : Action;
  det_collections : list jsstring;
  det_createdAt : Z;
  det_originalCreatedAt : option Z
}.

(** The local state of the detection loop: the map [processedArticles] in
    insertion order, [duplicatesToRemove], [results.duplicatesFound] and
    [results.details]. *)
Record Scan : Type := mkScan {
  processedArticles : list (jsstring * Doc.t);
  duplicatesToRemove : list DuplicateToRemove;
  duplicatesFound : nat;
  details : list Detail
}.

(** [Map.prototype.set]: a key that is present keeps its place. *)
Fixpoint map_set (k : jsstring) (v : Doc.t) (m : list (jsstring * Doc.t))
  : list (jsstring * Doc.t) :=
  match m with
  | [] => [(k, v)]
  | (k', v') :: r => if seqb k' k then (k, v) :: r else (k', v') :: map_set k v r
  end.

Definition lowerTrim (s : jsstring) : jsstring := trim (toLowerCase s).

(** 1. The first processed article whose title matches. *)
Fixpoint titleMatch (currentNews : Doc.t) (entries : list (jsstring * Doc.t))
  : option (Doc.t * SweepMethod * Q) :=
  match entries with
  | [] => None
  | (_, existingArticle) :: rest =>
      let advancedSimilarity :=
        calculateTitleSimilarity (lowerTrim (Doc.titleCanonical currentNews))
                                 (lowerTrim (Doc.titleCanonical existingArticle)) in
      let simpleSimilarity :=
        calculateSimpleSimilarity (lowerTrim (Doc.titleCanonical currentNews))
                                  (lowerTrim (Doc.titleCanonical existingArticle)) in
      let isExactMatch := gt advancedSimilarity 0.85 || gt simpleSimilarity 0.9 in
      if isExactMatch
      then Some (existingArticle,
                 (if gt simpleSimilarity 0.9 then simple_title_match
                  else advanced_title_match),
                 Math_max advancedSimilarity simpleSimilarity)
      else titleMatch currentNews rest
  end.

Definition contentForHash (a : Doc.t) : jsstring :=
  lowerTrim (Doc.titleCanonical a ++ js " " ++ Doc.summaryShort a).

(** 2. The first processed article whose content hash, computed anew,
    equals [contentHash]. *)
Fixpoint hashMatch (contentHash : jsstring) (entries : list (jsstring * Doc.t))
    (st : OpenSearch.IndexState) : option Doc.t * OpenSearch.IndexState :=
  match entries with
  | [] => (None, st)
  | (_, existingArticle) :: rest =>
      let '(existingContentHash, st) :=
        OpenSearch.generateContentHash P (contentForHash existingArticle) st in
      if seqb contentHash existingContentHash
      then (Some existingArticle, st)
      else hashMatch contentHash rest st
  end.

(** [similarity_score && similarity_score > 0.9] *)
Definition highScore (s : option Q) : bool :=
  match s with
  | Some s => negb (Qeq_bool s 0) && gt s 0.9
  | None => false
  end.

(** The [newsDocument] the sweep hands to the search service. *)
Definition sweepDocument (currentNews : Doc.t) : OpenSearch.NewsDocument :=
  OpenSearch.mkNews None (Some (Doc.titleCanonical currentNews))
    (Some (Doc.summaryShort currentNews)) None
    (Some (Doc.source currentNews)) None
    (required (Some (Doc.lang currentNews))) (required (Doc.theme currentNews))
    [] [] (Time (Doc.createdAt currentNews)) (Some (Doc.url currentNews)) None
    None None None None None None
    (Some (match Doc.score currentNews with Some x => x | None => 0%Q end)).

(** 3. The processed article that carries the title of the original the
    search service reports. *)
Definition semanticMatch (currentNews : Doc.t) (entries : list (jsstring * Doc.t))
    (st : OpenSearch.IndexState)
  : option (Doc.t * SweepMethod * Q) * OpenSearch.IndexState :=
  let newsDocument := sweepDocument currentNews in
  let '(duplicationResult, st) := OpenSearch.checkForDuplicates P newsDocument st in
  if OpenSearch.isDuplicate duplicationResult
     && highScore (OpenSearch.dup_similarity_score duplicationResult)
  then
    match OpenSearch.original duplicationResult with
    | None => (None, st)
    | Some original =>
        match find (fun e => OpenSearch.option_seqb (OpenSearch.title original)
                               (Doc.titleCanonical (snd e))) entries with
        | Some (_, existingArticle) =>
            (Some (existingArticle, reported (OpenSearch.method duplicationResult),
                   match OpenSearch.dup_similarity_score duplicationResult with
                   | Some x => x
                   | None => 0%Q
                   end), st)
        | None => (None, st)
        end
    end
  else (None, st).

(** The three checks of one turn: the original found for [currentNews]
    among the processed articles, with the method and the score. *)
Definition findOriginal (currentNews : Doc.t) (entries : list (jsstring * Doc.t))
    (st : OpenSearch.IndexState)
  : option (Doc.t * SweepMethod * Q) * OpenSearch.IndexState :=
  match titleMatch currentNews entries with
  | Some m => (Some m, st)
  | None =>
      let '(contentHash, st) :=
        OpenSearch.generateContentHash P (contentForHash currentNews) st in
      let '(m, st) := hashMatch contentHash entries st in
      match m with
      | Some existingArticle => (Some (existingArticle, exact_content_hash, 1%Q), st)
      | None =>
          match entries with
          | [] => (None, st)                       (* processedArticles.size > 0 *)
          | _ => semanticMatch currentNews entries st
          end
      end
  end.

(** One turn of the loop over [allNews]. *)
Definition scanStep (dryRun : bool) (acc : Scan * OpenSearch.IndexState)
    (currentNews : Doc.t) : Scan * OpenSearch.IndexState :=
  let '(sc, st) := acc in
  let entries := processedArticles sc in
  let '(found, st) := findOriginal currentNews entries st in
  match found with
  | Some (originalArticle, duplicateMethod, similarityScore) =>
      (mkScan entries
         (duplicatesToRemove sc ++
            [mkDuplicate (Doc._id currentNews) (Doc.titleCanonical currentNews)
               originalArticle similarityScore duplicateMethod])
         (S (duplicatesFound sc))
         (details sc ++
            [mkDetail (Doc.titleCanonical currentNews)
               (Some (Doc.titleCanonical originalArticle))
               duplicateMethod similarityScore
               (if dryRun then dry_run else removed)
               [js "news-normalized"]
               (Doc.createdAt currentNews)
               (Some (Doc.createdAt originalArticle))]),
       st)
  | None =>
      let '(contentHash, st) :=
        OpenSearch.generateContentHash P (contentForHash currentNews) st in
      (mkScan (map_set contentHash currentNews entries)
         (duplicatesToRemove sc) (duplicatesFound sc) (details sc), st)
  end.

(** [NewsNormalized.find({}).sort({ createdAt: 1 })]; documents created at
    the same instant keep the order of the store. *)
Definition oldestFirst (docs : list Doc.t) : list Doc.t :=
  stable_sort (fun a b => (Doc.createdAt a <=? Doc.createdAt b)%Z) docs.

(** The detection loop of [findAndRemoveDuplicates(dryRun)]: everything up
    to the removal of the entries of [duplicatesToRemove].  With well-formed
    documents no turn of the loop throws. *)
Definition findAndRemoveDuplicates_scan (dryRun : bool) (w : World)
  : Scan * OpenSearch.IndexState :=
  let allNews := oldestFirst (newsNormalized w) in
  fold_left (scanStep dryRun) allNews (mkScan [] [] 0 [], os w).

End Service.
End Dedup.

(* ================================================================== *)
(** * The rest of the three services *)
(* ================================================================== *)

(** ** RSSDeduplicationService: statistics *)

Module RSSStats.
Import RSSDedup.

Record DuplicateGroup : Type := mkGroup {
  group_domain : jsstring;
  group_sources : list Source;
  avgConfidence : Q
}.

Record Stats : Type := mkStats {
  totalSources : nat;
  potentialDuplicates : nat;
  duplicateGroups : list DuplicateGroup
}.

(** [domainGroups.get(domain).push(source)], the map in insertion order. *)
Fixpoint addToGroup (domain : jsstring) (source : Source)
    (groups : list (jsstring * list Source)) : list (jsstring * list Source) :=
  match groups with
  | [] => [(domain, [source])]
  | (d, ss) :: rest =>
      if seqb d domain then (d, ss ++ [source]) :: rest
      else (d, ss) :: addToGroup domain source rest
  end.

Section Service.
Variable B : Beyond.

Definition groupByDomain (allSources : list Source)
  : list (jsstring * list Source) :=
  fold_left (fun groups source =>
               addToGroup (extractDomain B (link source)) source groups)
            allSources [].

(** The two nested loops over [i < j]: the check is made on [sources[j]]
    alone.  The state is [totalConfidence] and [pairCount]. *)
Fixpoint pairLoop (db : list Source) (sources : list Source) (acc : Q * nat)
  : Q * nat :=
  match sources with
  | [] => acc
  | _ :: later =>
      pairLoop db later
        (fold_left
           (fun acc sj =>
              let result := checkForDuplicate B db (link sj) (metadata sj) in
              if gt (confidence result) 0.5
              then ((fst acc + confidence result)%Q, S (snd acc))
              else acc)
           later acc)
  end.

(** [duplicateGroups.sort((a, b) => b.avgConfidence - a.avgConfidence)] *)
Definition byAverageDesc (a b : DuplicateGroup) : bool :=
  Qle_bool (avgConfidence b) (avgConfidence a).

(** [getDuplicationStats()].  The [public] flag of a stored source, which
    the record [Source] leaves out, is read with [isPublic]. *)
Definition getDuplicationStats (isPublic : Source -> bool) (db : list Source)
  : Stats :=
  let allSources := filter isPublic db in
  let domainGroups := groupByDomain allSources in
  let '(duplicateGroups, potentialDuplicates) :=
    fold_left
      (fun acc g =>
         let '(domain, sources) := g in
         if (1 <? List.length sources)%nat then
           let '(totalConfidence, pairCount) := pairLoop db sources (0%Q, 0) in
           if (0 <? pairCount)%nat
           then (fst acc ++ [mkGroup domain sources
                               (totalConfidence / inject_Z (Z.of_nat pairCount))%Q],
                 snd acc + List.length sources)
           else acc
         else acc)
      domainGroups ([], 0) in
  mkStats (List.length allSources) potentialDuplicates
          (stable_sort byAverageDesc duplicateGroups).

End Service.
End RSSStats.

(** ** NewsDeduplicationService: search, sync and removal *)

Module DedupMore.
Import Dedup.

Section Service.
Variable P : OpenSearch.Platform.

(** [searchSimilarNews(title, content, limit = 5)]; [limit] is whatever
    number the caller passes (the route passes [parseInt] of a request
    field) and [now] is [new Date()]. *)
Definition searchSimilarNews (title content : jsstring) (limit : option number)
    (now : Z) (st : OpenSearch.IndexState)
  : list OpenSearch.NewsDocument * OpenSearch.IndexState :=
  let limit := match limit with Some l => l | None => Finite 5 end in
  let newsDocument :=
    OpenSearch.mkNews None (Some title) (Some content) None (Some []) None None
      None [] [] (Time now) None None None None None None None None None in
  let '(result, st) := OpenSearch.checkForDuplicates P newsDocument st in
  (match OpenSearch.candidates result with
   | Some cs => slice0 limit cs
   | None => []
   end, st).

(** The [newsDocument] that [syncExistingNews] builds of a stored article. *)
Definition syncDocument (news : Doc.t) : OpenSearch.NewsDocument :=
  OpenSearch.mkNews (Some (showNat (Doc._id news)))
    (Some (Doc.titleCanonical news)) (Some (Doc.summaryShort news))
    (Some (Doc.summaryShort news)) (Some (Doc.source news)) None
    (Some (Doc.lang news)) (required (Doc.theme news))
    (Doc.topics news) (Doc.tags news) (Time (Doc.createdAt news))
    (Some (Doc.url news)) None None None None None None None None.

(** [syncExistingNews()]: the first 1000 stored articles are indexed one by
    one; an article the index refuses is counted and the loop goes on.  The
    answer is [{ indexed, errors }]. *)
Definition syncExistingNews (w : World) : (nat * nat) * World :=
  let existingNews := firstn 1000 (newsNormalized w) in
  let '(counts, st) :=
    fold_left
      (fun acc news =>
         let '((indexed, errors), st) := acc in
         let '(r, st) := OpenSearch.indexNews P (syncDocument news) st in
         match r with
         | Ok _ => ((S indexed, errors), st)
         | Throw _ => ((indexed, S errors), st)
         end)
      existingNews ((0, 0), os w) in
  (counts, with_os w st).

(** *** The removal of the marked articles *)

(** A [news-raw] document, as far as the sweep reads and writes it. *)
Record RawDoc : Type := mkRaw {
  raw_id : nat;
  rawData_title : option jsstring;
  raw_title : option jsstring;
  hasNormalized : bool;
  raw_isDuplicate : bool;
  duplicateReason : option (SweepMethod * Q)
}.

(** The calls of the removal loop that may reject: the error of each, if
    it fails, and what the index holds after a delete by id. *)
Record RemovalCalls : Type := mkRemovalCalls {
  findByIdAndDelete_error : nat -> option jsstring;
  findOne_error : jsstring -> option jsstring;
  findByIdAndUpdate_error : nat -> option jsstring;
  deleteDocument : list OpenSearch.NewsDocument -> nat
                   -> outcome (list OpenSearch.NewsDocument)
}.

(** [results] *)
Record Results : Type := mkResults {
  res_duplicatesFound : nat;
  res_duplicatesRemoved : nat;
  res_errors : nat;
  res_details : list Detail
}.

(** What the removal loop works on. *)
Record Corpus : Type := mkCorpus {
  normalized : list Doc.t;
  raws : list RawDoc;
  index : list OpenSearch.NewsDocument
}.

(** [{ $regex: escaped(title), $options: 'i' }] on a path that may be
    absent. *)
Definition titleMatches (t : jsstring) (field : option jsstring) : bool :=
  match field with
  | Some f => contains (toLowerCase t) (toLowerCase f)
  | None => false
  end.

(** [details[details.findIndex(d => d.title === title)] = f(...)] *)
Fixpoint updateFirstDetail (t : jsstring) (f : Detail -> Detail)
    (ds : list Detail) : list Detail :=
  match ds with
  | [] => []
  | d :: rest =>
      if seqb (det_title d) t then f d :: rest
      else d :: updateFirstDetail t f rest
  end.

Definition setCollections (d : Detail) : Detail :=
  mkDetail (det_title d) (det_originalTitle d) (det_method d) (det_similarity d)
    (det_action d) [js "news-normalized"; js "news-raw"] (det_createdAt d)
    (det_originalCreatedAt d).

Definition setError (d : Detail) : Detail :=
  mkDetail (det_title d) (det_originalTitle d) (det_method d) (det_similarity d)
    error (det_collections d) (det_createdAt d) (det_originalCreatedAt d).

Definition markRaw (reason : SweepMethod * Q) (r : RawDoc) : RawDoc :=
  mkRaw (raw_id r) (rawData_title r) (raw_title r) false true (Some reason).

Variable C : RemovalCalls.

Definition failed (acc : Results) (c : Corpus) (duplicate : DuplicateToRemove)
  : Results * Corpus :=
  (mkResults (res_duplicatesFound acc) (res_duplicatesRemoved acc)
     (S (res_errors acc))
     (updateFirstDetail (dup_title duplicate) setError (res_details acc)), c).

(** One turn of [for (const duplicate of duplicatesToRemove)]. *)
Definition removeStep (state : Results * Corpus) (duplicate : DuplicateToRemove)
  : Results * Corpus :=
  let '(acc, c) := state in
  match findByIdAndDelete_error C (dup_id duplicate) with
  | Some _ => failed acc c duplicate
  | None =>
      let c := mkCorpus
                 (filter (fun d => negb (Doc._id d =? dup_id duplicate)%nat)
                         (normalized c))
                 (raws c) (index c) in
      match findOne_error C (dup_title duplicate) with
      | Some _ => failed acc c duplicate
      | None =>
          let correspondingRaw :=
            find (fun r => titleMatches (dup_title duplicate) (rawData_title r)
                           || titleMatches (dup_title duplicate) (raw_title r))
                 (raws c) in
          let updated :=
            match correspondingRaw with
            | None => Ok (acc, c)
            | Some raw =>
                match findByIdAndUpdate_error C (raw_id raw) with
                | Some e => Throw e
                | None =>
                    Ok (mkResults (res_duplicatesFound acc)
                          (res_duplicatesRemoved acc) (res_errors acc)
                          (updateFirstDetail (dup_title duplicate) setCollections
                             (res_details acc)),
                        mkCorpus (normalized c)
                          (map (fun r => if (raw_id r =? raw_id raw)%nat
                                         then markRaw (dup_method duplicate,
                                                       dup_similarity duplicate) r
                                         else r)
                               (raws c))
                          (index c))
                end
            end in
          match updated with
          | Throw _ => failed acc c duplicate
          | Ok (acc, c) =>
              let c :=
                match deleteDocument C (index c) (dup_id duplicate) with
                | Ok index' => mkCorpus (normalized c) (raws c) index'
                | Throw _ => c                      (* ignored *)
                end in
              (mkResults (res_duplicatesFound acc)
                 (S (res_duplicatesRemoved acc)) (res_errors acc)
                 (res_details acc), c)
          end
      end
  end.

(** [findAndRemoveDuplicates(dryRun = true)] with well-formed documents and
    a store that answers the first [find]: the detection loop, then the
    removal loop unless [dryRun]. *)
Definition findAndRemoveDuplicates (dryRun : option bool) (w : World)
    (raw : list RawDoc) : Results * (World * list RawDoc) :=
  let dryRun := match dryRun with Some b => b | None => true end in
  let '(sc, st) := findAndRemoveDuplicates_scan P dryRun w in
  let results := mkResults (duplicatesFound sc) 0 0 (details sc) in
  if dryRun then (results, (with_os w st, raw))
  else
    let '(results, c) :=
      fold_left removeStep (duplicatesToRemove sc)
        (results, mkCorpus (newsNormalized w) raw (OpenSearch.indexed st)) in
    (results,
     (mkWorld (OpenSearch.mkIndexState (OpenSearch.randomDraws st) (index c)
                 (OpenSearch.calls st))
        (normalized c) (nextObjectId w) (clock w),
      raws c)).

End Service.
End DedupMore.

(* ================================================================== *)
(** * Notions used in the further statements *)
(* ================================================================== *)

Module MoreStatements.

(** A code unit outside [A-Za-z0-9_]. *)
Definition noWordUnit (c : N) : bool := negb (isWord c).

(** The four signals of the fuzzy comparison of a registration with a
    stored source, each with its gate, in the order of the code: title,
    description, site link, URL. *)
Definition signals (B : RSSDedup.Beyond) (normalizedUrl : jsstring)
    (newMetadata : RSSDedup.RSSMetadata)
    (source : RSSDedup.Source) : list bool :=
  [ gt (RSS.calculateStringSimilarity (RSSDedup.meta_title newMetadata)
          (RSSDedup.meta_title (RSSDedup.metadata source))) 0.85;
    gt (RSS.calculateStringSimilarity (RSSDedup.meta_description newMetadata)
          (RSSDedup.meta_description (RSSDedup.metadata source))) 0.8;
    gt (RSS.calculateStringSimilarity
          (Some (RSSDedup.normalizeUrl B
                   (or_empty (or_else (RSSDedup.meta_link newMetadata) (Some [])))))
          (Some (RSSDedup.normalizeUrl B
                   (or_empty (or_else (RSSDedup.meta_link (RSSDedup.metadata source))
                                      (Some [])))))) 0.9;
    gt (RSS.calculateStringSimilarity (Some normalizedUrl)
          (Some (RSSDedup.normalizeUrl B (RSSDedup.link source)))) 0.8 ].

(** The number of signals that fire. *)
Definition fired (bs : list bool) : nat := List.length (filter (fun b => b) bs).

(** A state of the search service that differs from [st] only by at most
    [draws] random draws and at most [searches] calls in the log, all of them
    searches. *)
Definition reads_only (st : OpenSearch.IndexState) (draws searches : nat)
    (st' : OpenSearch.IndexState) : Prop :=
  OpenSearch.indexed st' = OpenSearch.indexed st /\
  OpenSearch.randomDraws st <= OpenSearch.randomDraws st'
    <= OpenSearch.randomDraws st + draws /\
  exists log,
    OpenSearch.calls st' = OpenSearch.calls st ++ log /\
    List.length log <= searches /\
    Forall (fun c => exists request, c = OpenSearch.CallSearch request) log.

(** The text [generateContentHash] digests: lowercased, without the
    characters outside [A-Za-z0-9_] and white space, every run of white
    space one space, trimmed. *)
Definition normalizedText (text : jsstring) : jsstring :=
  trim (collapseSpaces
          (removeAll (fun c => negb (isWord c || isSpace c)) (toLowerCase text))).

(** A title the simple similarity cannot tell from another.  The sweep hands
    over the title lowercased and trimmed, [s], and the similarity lowercases
    it once more: [s] is not empty, and its lowercase has no character of
    [A-Za-z0-9_] and contains white space after trimming (any headline of two
    words or more in Cyrillic, say). *)
Definition blindTitle (t : jsstring) : bool :=
  let s := Dedup.lowerTrim t in
  match s with [] => false | _ => true end
  && forallb noWordUnit (toLowerCase s)
  && existsb isSpace (trim (toLowerCase s)).

(** None of the calls of the removal loop that reach its [catch] fails. *)
Definition noFailure (C : DedupMore.RemovalCalls) : Prop :=
  (forall i, DedupMore.findByIdAndDelete_error C i = None) /\
  (forall t, DedupMore.findOne_error C t = None) /\
  (forall i, DedupMore.findByIdAndUpdate_error C i = None).

(** The stored articles the sweep has not marked. *)
Definition unmarked (marked : list nat) (docs : list Dedup.Doc.t) : list Dedup.Doc.t :=
  filter (fun d => negb (existsb (Nat.eqb (Dedup.Doc._id d)) marked)) docs.

End MoreStatements.

(* ================================================================== *)
(** * Notions used in the statements *)
(* ================================================================== *)

Module Statements.
Import RSS.

(** Row [i] of the Levenshtein matrix of [s2] against [s1], as the textbook
    recurrence gives it. *)
Definition levRow (s1 s2 : jsstring) (i : nat) : list nat :=
  map (levenshtein_prefix s2 s1 i) (seq 0 (S (List.length s1))).

(** An entry of the reverse lookup that reports an exact URL match. *)
Definition exactMatchEntry (d : RSSDedup.PotentialDuplicate) : Prop :=
  RSSDedup.dup_confidence d = 1%Q /\
  RSSDedup.dup_reason d = js "Exact URL match".


(** [m] is the greatest of [a], [b] and [c]. *)
Definition isMaxOf3 (m a b c : Q) : Prop :=
  ((a <= m)%Q /\ (b <= m)%Q /\ (c <= m)%Q) /\ (m = a \/ m = b \/ m = c).

(** The rule of the semantic stage, in the words of the specification: the
    relevance score of the top hit divided by 10 exceeds 1.5, and the
    detailed similarity of the two texts exceeds 0.50. *)
Definition semanticRule (titleText contentText : jsstring)
    (topMatch : OpenSearch.Hit) : Prop :=
  let normalized :=
    (match OpenSearch._score topMatch with Some s => s | None => 0 end / 10)%Q in
  let candidate := OpenSearch._source topMatch in
  (1.5 < normalized)%Q /\
  (0.5 < OpenSearch.calculateDetailedSimilarity
           (or_empty (OpenSearch.title candidate) ++ js " "
            ++ or_empty (OpenSearch.content candidate))
           (titleText ++ js " " ++ contentText))%Q.

(** The ids the sweep has marked for removal, and the articles it has
    accepted (the seen set). *)
Definition markedIds (sc : Dedup.Scan) : list nat :=
  map Dedup.dup_id (Dedup.duplicatesToRemove sc).

Definition seen (sc : Dedup.Scan) : list Dedup.Doc.t :=
  map snd (Dedup.processedArticles sc).


(** The entry [d] marks the article [cur] of the list [l] as a duplicate of
    an article that stands before it in [l]. *)
Definition marksLaterOf (l : list Dedup.Doc.t) (d : Dedup.DuplicateToRemove) : Prop :=
  exists pre cur post,
    l = pre ++ cur :: post /\
    Dedup.dup_id d = Dedup.Doc._id cur /\
    Dedup.dup_title d = Dedup.Doc.titleCanonical cur /\
    In (Dedup.dup_original d) pre.

(** What holds of the sweep after the articles [done]: the seen set and the
    originals come from [done], every entry marks a later article of [done],
    and neither a seen article nor an original is marked. *)
Definition sweepInvariant (done : list Dedup.Doc.t) (sc : Dedup.Scan) : Prop :=
  (forall x, In x (seen sc) -> In x done) /\
  (forall d, In d (Dedup.duplicatesToRemove sc) -> marksLaterOf done d) /\
  (forall x, In x (seen sc) -> ~ In (Dedup.Doc._id x) (markedIds sc)) /\
  (forall d, In d (Dedup.duplicatesToRemove sc) ->
             ~ In (Dedup.Doc._id (Dedup.dup_original d)) (markedIds sc)).

(** The article handed to [processNews] carries every path the schema of
    [NewsNormalized] requires, under the names [processNews] reads them by:
    [newsRawId], [sourceId], and as strings that are not empty [externalId],
    [source], [url], [title], [lang], one of [description] and [content],
    and [publishedAt] (or, failing that, a [created_at] date). *)
Definition meetsSchema (newsData : Dedup.NewsData.t) : bool :=
  match Dedup.NewsData.newsRawId newsData, Dedup.NewsData.sourceId newsData with
  | Some _, Some _ => true
  | _, _ => false
  end
  && truthy (Dedup.NewsData.externalId newsData)
  && truthy (Dedup.NewsData.source newsData)
  && truthy (Dedup.NewsData.url newsData)
  && truthy (Dedup.NewsData.title newsData)
  && truthy (Dedup.NewsData.lang newsData)
  && (truthy (Dedup.NewsData.publishedAt newsData)
      || match Dedup.NewsData.created_at newsData with
         | Some _ => true
         | None => false
         end)
  && (truthy (Dedup.NewsData.description newsData)
      || truthy (Dedup.NewsData.content newsData)).

(** The stored record [doc] is a record of the article [newsData]. *)
Definition recordOf (newsData : Dedup.NewsData.t) (doc : Dedup.Doc.t) : Prop :=
  Dedup.NewsData.newsRawId newsData = Some (Dedup.Doc.newsRawId doc) /\
  Dedup.NewsData.sourceId newsData = Some (Dedup.Doc.sourceId doc) /\
  Dedup.NewsData.externalId newsData = Some (Dedup.Doc.externalId doc) /\
  Dedup.NewsData.source newsData = Some (Dedup.Doc.source doc) /\
  Dedup.NewsData.url newsData = Some (Dedup.Doc.url doc) /\
  Dedup.NewsData.title newsData = Some (Dedup.Doc.titleCanonical doc) /\
  Dedup.NewsData.lang newsData = Some (Dedup.Doc.lang doc) /\
  or_else (Dedup.NewsData.description newsData) (Dedup.NewsData.content newsData)
  = Some (Dedup.Doc.summaryShort doc).

End Statements.

(* ================================================================== *)
(** * Sample data *)
(* ================================================================== *)

Module Samples.
Import RSSDedup.

(** The URLs of the samples lie in the modelled fragment: these answers are
    never asked for. *)
Definition beyond : Beyond := mkBeyond (fun url => url) (fun _ => []).

Definition feedMeta : RSSMetadata :=
  mkMeta (Some (js "Example")) None None (Some (js "http://example.com/rss")).

(** A stored source registered as [http://example.com/rss]. *)
Definition httpSource : Source :=
  mkSource 1 (js "http://example.com/rss") (js "Example") feedMeta.

(** A second feed of the same site, with nothing else in common. *)
Definition atomSource : Source :=
  mkSource 2 (js "http://example.com/atom.xml") (js "Releases")
    (mkMeta (Some (js "Releases")) (Some (js "Software releases"))
            (Some (js "http://example.com/downloads"))
            (Some (js "http://example.com/atom.xml"))).

Definition twoFeeds : list Source := [httpSource; atomSource].

(** A platform for the examples: a digest that keeps its argument, a
    counter for a random source, an index that answers the hash query from
    what it holds and the more-like-this query with the given hits, and that
    stores every document unless [indexDown] is set. *)
Definition demoPlatform (mlt : list OpenSearch.Hit) (indexDown : bool)
  : OpenSearch.Platform :=
  OpenSearch.mkPlatform
    (fun s => js "sha256:" ++ s)
    (fun k => js "0." ++ showNat k)
    (fun docs request =>
       match request with
       | OpenSearch.ExactHashQuery c t =>
           let found :=
             filter (fun d => OpenSearch.option_seqb (OpenSearch.content_hash d) c
                              || OpenSearch.option_seqb (OpenSearch.title_hash d) t)
                    docs in
           Ok (OpenSearch.mkResponse
                 (OpenSearch.TotalObject (Some (List.length found)))
                 (map (OpenSearch.mkHit (Some 1%Q)) found))
       | OpenSearch.MoreLikeThisQuery _ _ =>
           Ok (OpenSearch.mkResponse
                 (OpenSearch.TotalObject (Some (List.length mlt))) mlt)
       end)
    (fun _ _ => if indexDown then Some (js "index unavailable") else None).

(** A document as the index holds it, with the hashes [indexNews] gives. *)
Definition indexedDoc (title content : string) : OpenSearch.NewsDocument :=
  OpenSearch.mkNews None (Some (js title)) (Some (js content)) None
    (Some (js "feed")) None None None [] [] (Time 0) None None
    (Some (js "sha256:" ++ trim (collapseSpaces (toLowerCase (js title ++ js " " ++ js content)))))
    (Some (js "sha256:" ++ trim (collapseSpaces (toLowerCase (js title)))))
    None None None None None.

Definition launchTitle : string := "Company X launches platform Y".
Definition launchText : string := "The platform opens to developers today".

(** The incoming article of scenario A. *)
Definition incoming : OpenSearch.NewsDocument :=
  OpenSearch.mkNews None (Some (js launchTitle)) (Some (js launchText)) None
    (Some (js "other feed")) None None None [] [] (Time 0) None None
    None None None None None None None.

Definition emptyIndex : OpenSearch.IndexState := OpenSearch.mkIndexState 0 [] [].

Definition oneDocIndex : OpenSearch.IndexState :=
  OpenSearch.mkIndexState 0 [indexedDoc launchTitle launchText] [].

(** The top hit of scenario E: relevance 18, about something else. *)
Definition unrelatedHit : OpenSearch.Hit :=
  OpenSearch.mkHit (Some 18%Q)
    (indexedDoc "Weather turns cold this weekend" "Snow is expected in the north").

(** A top hit with relevance 18 that tells the same story. *)
Definition sameStoryHit : OpenSearch.Hit :=
  OpenSearch.mkHit (Some 18%Q)
    (indexedDoc "Company X launches platform Y today"
                "The platform opens to developers today").

(** A store that fails for no reason of its own. *)
Definition demoStore : Dedup.Store := Dedup.mkStore (fun _ _ => None).

Definition emptyWorld : Dedup.World := Dedup.mkWorld emptyIndex [] 0 1000%Z.

Definition articleTitled (t : string) : Dedup.NewsData.t :=
  Dedup.NewsData.mk (Some (js t)) (Some (js launchText)) None None
    (Some (js "feed")) (Some (js "source-1")) (Some (js "en")) None None None
    (Some (Time 900)) (Some (js "http://example.com/news/1")) None None None None
    (Some (js "raw-1")) (Some (js "ext-1")) (Some (js "2025-01-01")) None None.

(** A well-formed article, and the same article with a blank title. *)
Definition goodArticle : Dedup.NewsData.t := articleTitled launchTitle.
Definition blankArticle : Dedup.NewsData.t := articleTitled "   ".

(** An index that never answers with a hit. *)
Definition quietPlatform : OpenSearch.Platform :=
  OpenSearch.mkPlatform
    (fun s => js "sha256:" ++ s)
    (fun k => js "0." ++ showNat k)
    (fun _ _ => Ok (OpenSearch.mkResponse (OpenSearch.TotalObject (Some 0)) []))
    (fun _ _ => None).

Definition storedArticle (oid : nat) (t summary : string) (createdAt : Z)
  : Dedup.Doc.t :=
  Dedup.Doc.mk oid (js "raw") (js "source-1") (js "ext") (js "feed")
    (js "http://example.com/news") (js t) (js "en") (inl (js "2025-01-01"))
    (js summary) [] [] (Dedup.mkEntities [] [] []) None None createdAt
    None None None.

(** Scenario D: the second title has nine of its ten words in common with
    the first; the third article is about something else. *)
Definition first : Dedup.Doc.t :=
  storedArticle 11 "Acme Robotics unveils household robot with voice control today"
    "The robot answers spoken commands" 100.
Definition second : Dedup.Doc.t :=
  storedArticle 12
    "Acme Robotics unveils household robot with voice control today worldwide"
    "Sales start in every region at once" 200.
Definition third : Dedup.Doc.t :=
  storedArticle 13 "Weather turns cold this weekend"
    "Snow is expected in the north" 300.

Definition worldWith (docs : list Dedup.Doc.t) : Dedup.World :=
  Dedup.mkWorld emptyIndex docs 20 1000%Z.

End Samples.

(* ================================================================== *)
(** * Further sample data *)
(* ================================================================== *)

Module MoreSamples.
Import RSSDedup.

(** The metadata of a feed, complete. *)
Definition fullMeta : RSSMetadata :=
  mkMeta (Some (js "Example News")) (Some (js "All the news of Example"))
         (Some (js "http://example.com")) (Some (js "http://example.com/rss")).

(** The feed, registered under its [http] address. *)
Definition registered : Source :=
  mkSource 7 (js "http://example.com/rss") (js "Example News") fullMeta.

(** A public feed of another site. *)
Definition elsewhere : Source :=
  mkSource 8 (js "http://other.org/feed") (js "Other")
    (mkMeta (Some (js "Other")) None None None).

Definition threeFeeds : list Source :=
  [Samples.httpSource; Samples.atomSource; elsewhere].

(** A platform whose search client is unreachable. *)
Definition downPlatform : OpenSearch.Platform :=
  OpenSearch.mkPlatform
    (fun s => js "sha256:" ++ s)
    (fun k => js "0." ++ showNat k)
    (fun _ _ => Throw (js "connect ECONNREFUSED"))
    (fun _ _ => None).

(** Removal calls that all succeed; the index forgets nothing. *)
Definition calmCalls : DedupMore.RemovalCalls :=
  DedupMore.mkRemovalCalls (fun _ => None) (fun _ => None) (fun _ => None)
    (fun index _ => Ok index).

(** Three stored articles with Russian titles about different things. *)
Definition rouble : Dedup.Doc.t :=
  Samples.storedArticle 21 "Курс рубля вырос" "Рубль укрепился к доллару" 100.
Definition planet : Dedup.Doc.t :=
  Samples.storedArticle 22 "Учёные открыли новую планету"
    "Планета находится в соседней системе" 200.
Definition match_won : Dedup.Doc.t :=
  Samples.storedArticle 23 "Сборная выиграла матч" "Счёт три ноль" 300.

End MoreSamples.

(* ================================================================== *)
(** * Facts *)
(* ================================================================== *)

Example js_cyrillic : js "для" = [1076; 1083; 1103]%N.
Proof. reflexivity. Qed.

Example editSim_kitten :
  RSS.calculateStringSimilarity (Some (js "Kitten")) (Some (js " sitting ")) = (4 / 7)%Q.
Proof. vm_compute. reflexivity. Qed.

(** ** Strings and scores *)

Lemma seqb_eq a b : seqb a b = true <-> a = b.
Proof.
  unfold seqb. destruct (list_eq_dec N.eq_dec a b); split; congruence.
Qed.

Lemma seqb_refl a : seqb a a = true.
Proof. apply seqb_eq. reflexivity. Qed.

Lemma seqb_neq a b : seqb a b = false <-> a <> b.
Proof.
  unfold seqb. destruct (list_eq_dec N.eq_dec a b); split; congruence.
Qed.

Lemma gt_lt a b : gt a b = true <-> (b < a)%Q.
Proof.
  unfold gt. rewrite negb_true_iff.
  destruct (Qle_bool a b) eqn:E.
  - apply Qle_bool_iff in E. split; [discriminate|].
    intros H. exfalso. exact (Qlt_not_le _ _ H E).
  - split; [intros _|reflexivity].
    apply Qnot_le_lt. intros H. apply Qle_bool_iff in H. congruence.
Qed.

Lemma gt_le a b : gt a b = false <-> (a <= b)%Q.
Proof.
  unfold gt. rewrite negb_false_iff. apply Qle_bool_iff.
Qed.

Lemma ratio_same n : n <> 0 -> (ratio n n == 1)%Q.
Proof.
  intros H. unfold ratio. apply Qmult_inv_r.
  intros E. unfold Qeq in E. simpl in E. lia.
Qed.

Lemma ratio_zero n : (ratio 0 n == 0)%Q.
Proof. unfold ratio. simpl. apply Qmult_0_l. Qed.

(* ------------------------------------------------------------------ *)
(** ** The matrix of [calculateStringSimilarity] is the Levenshtein matrix *)

Module LevFacts.
Import RSS Statements.

Section Recurrence.
Variables a b : jsstring.

Local Abbreviation D := (levenshtein_prefix a b).

Lemma lev_0_l j : D 0 j = j.
Proof. reflexivity. Qed.

Lemma lev_0_r i : D i 0 = i.
Proof. destruct i; reflexivity. Qed.

Lemma lev_S_S i j :
  D (S i) (S j) =
  Nat.min (D i (S j) + 1)
    (Nat.min (D (S i) j + 1)
       (D i j + if (nth i a 0 =? nth j b 0)%N then 0 else 1)).
Proof. reflexivity. Qed.

(** One more unit on either side costs at most one more edit ... *)
Lemma lev_up_le i j : D (S i) j <= D i j + 1.
Proof.
  destruct j as [|j].
  - rewrite !lev_0_r. lia.
  - rewrite lev_S_S. lia.
Qed.

Lemma lev_left_le i j : D i (S j) <= D i j + 1.
Proof.
  destruct i as [|i].
  - rewrite !lev_0_l. lia.
  - rewrite lev_S_S. lia.
Qed.

(** ... and saves at most one. *)
Lemma lev_up_ge i j : D i j <= D (S i) j + 1.
Proof.
  induction j as [|j IH].
  - rewrite !lev_0_r. lia.
  - rewrite lev_S_S.
    pose proof (lev_left_le i j).
    destruct (nth i a 0 =? nth j b 0)%N; lia.
Qed.

Lemma lev_left_ge i j : D i j <= D i (S j) + 1.
Proof.
  induction i as [|i IH].
  - rewrite !lev_0_l. lia.
  - rewrite lev_S_S.
    pose proof (lev_up_le i j).
    destruct (nth i a 0 =? nth j b 0)%N; lia.
Qed.

(** The recurrence as the code writes it: on equal units the diagonal
    entry is taken as it is. *)
Lemma lev_code_step i j :
  D (S i) (S j) =
  if (nth i a 0 =? nth j b 0)%N then D i j
  else Nat.min (D i j + 1) (Nat.min (D (S i) j + 1) (D i (S j) + 1)).
Proof.
  rewrite lev_S_S.
  pose proof (lev_up_ge i j). pose proof (lev_left_ge i j).
  pose proof (lev_up_le i j). pose proof (lev_left_le i j).
  pose proof (lev_up_ge i (S j)). pose proof (lev_left_ge (S i) j).
  destruct (nth i a 0 =? nth j b 0)%N; lia.
Qed.
End Recurrence.

Lemma lev_prefix_sym a b : forall i j,
  levenshtein_prefix a b i j = levenshtein_prefix b a j i.
Proof.
  induction i as [|i IHi]; intros j.
  - rewrite lev_0_l, lev_0_r. reflexivity.
  - induction j as [|j IHj].
    + rewrite lev_0_l, lev_0_r. reflexivity.
    + rewrite !lev_S_S, IHj, !IHi, (N.eqb_sym (nth j b 0%N)). lia.
Qed.

Lemma levenshtein_sym a b : levenshtein a b = levenshtein b a.
Proof. apply lev_prefix_sym. Qed.

Lemma lev_prefix_diag a : forall i, levenshtein_prefix a a i i = 0.
Proof.
  induction i as [|i IH]; [reflexivity|].
  rewrite lev_S_S, IH, N.eqb_refl. lia.
Qed.

Lemma levenshtein_refl a : levenshtein a a = 0.
Proof. apply lev_prefix_diag. Qed.

Lemma levenshtein_nil_r a : levenshtein a [] = List.length a.
Proof. apply lev_0_r. Qed.

Lemma levenshtein_le_max a b :
  levenshtein a b <= Nat.max (List.length a) (List.length b).
Proof.
  unfold levenshtein.
  assert (H : forall i j, levenshtein_prefix a b i j <= Nat.max i j).
  { induction i as [|i IHi]; intros j.
    - rewrite lev_0_l. lia.
    - destruct j as [|j].
      + rewrite lev_0_r. lia.
      + rewrite lev_S_S. specialize (IHi j).
        destruct (nth i a 0 =? nth j b 0)%N; lia. }
  apply H.
Qed.

Lemma fillRow_spec s1 s2 i : forall k rest,
  skipn k s1 = rest ->
  k <= List.length s1 ->
  fillRow (nth i s2 0%N) rest
    (map (levenshtein_prefix s2 s1 i) (seq k (S (List.length s1) - k)))
    (levenshtein_prefix s2 s1 (S i) k)
  = map (levenshtein_prefix s2 s1 (S i)) (seq (S k) (List.length s1 - k)).
Proof.
  intros k rest. revert k.
  induction rest as [|c rest IH]; intros k Hk Hle.
  - assert (List.length s1 - k = 0) as ->.
    { apply (f_equal (@List.length _)) in Hk. rewrite length_skipn in Hk.
      simpl in Hk. lia. }
    reflexivity.
  - assert (Hlen : List.length s1 - k = S (List.length rest)).
    { apply (f_equal (@List.length _)) in Hk. rewrite length_skipn in Hk.
      simpl in Hk. lia. }
    assert (Hc : nth k s1 0%N = c).
    { rewrite <- (firstn_skipn k s1) at 1. rewrite Hk.
      rewrite app_nth2; rewrite length_firstn; [|lia].
      replace (k - Nat.min k (List.length s1)) with 0 by lia. reflexivity. }
    assert (Hk' : skipn (S k) s1 = rest).
    { replace (S k) with (1 + k) by lia. rewrite <- skipn_skipn, Hk. reflexivity. }
    replace (S (List.length s1) - k) with (S (S (List.length s1 - S k))) by lia.
    replace (List.length s1 - k) with (S (List.length s1 - S k)) by lia.
    cbn [seq map fillRow].
    rewrite (lev_code_step s2 s1 i k), Hc.
    f_equal.
    specialize (IH (S k) Hk' ltac:(lia)).
    replace (S (List.length s1) - S k) with (S (List.length s1 - S k)) in IH by lia.
    cbn [seq map] in IH.
    rewrite (lev_code_step s2 s1 i k), Hc in IH.
    exact IH.
Qed.

Lemma nextRow_spec s1 s2 i :
  nextRow s1 (levRow s1 s2 i) (S i) (nth i s2 0%N) = levRow s1 s2 (S i).
Proof.
  unfold nextRow, levRow.
  pose proof (@fillRow_spec s1 s2 i 0 s1 eq_refl ltac:(lia)) as H.
  rewrite !Nat.sub_0_r in H.
  rewrite lev_0_r in H. rewrite H.
  cbn [seq map]. rewrite lev_0_r. reflexivity.
Qed.

Lemma fillMatrix_spec s1 s2 : forall rest i,
  skipn i s2 = rest ->
  i <= List.length s2 ->
  fillMatrix s1 rest (levRow s1 s2 i) (S i) = levRow s1 s2 (List.length s2).
Proof.
  induction rest as [|c rest IH]; intros i Hi Hle.
  - assert (i = List.length s2) as ->.
    { apply (f_equal (@List.length _)) in Hi. rewrite length_skipn in Hi.
      simpl in Hi. lia. }
    reflexivity.
  - assert (Hlen : List.length s2 - i = S (List.length rest)).
    { apply (f_equal (@List.length _)) in Hi. rewrite length_skipn in Hi.
      simpl in Hi. lia. }
    assert (Hc : nth i s2 0%N = c).
    { rewrite <- (firstn_skipn i s2) at 1. rewrite Hi.
      rewrite app_nth2; rewrite length_firstn; [|lia].
      replace (i - Nat.min i (List.length s2)) with 0 by lia. reflexivity. }
    assert (Hi' : skipn (S i) s2 = rest).
    { replace (S i) with (1 + i) by lia. rewrite <- skipn_skipn, Hi. reflexivity. }
    cbn [fillMatrix]. rewrite <- Hc, nextRow_spec.
    apply IH; [exact Hi' | lia].
Qed.

(** [matrix[m][n]] is the Levenshtein distance of the two strings. *)
Lemma distance_levenshtein s1 s2 : distance s1 s2 = levenshtein s1 s2.
Proof.
  unfold distance.
  replace (firstRow (List.length s1)) with (levRow s1 s2 0)
    by (unfold levRow, firstRow; rewrite <- (map_id (seq _ _)) at 2;
        apply map_ext; intros j; apply lev_0_l).
  rewrite (@fillMatrix_spec s1 s2 s2 0 eq_refl ltac:(lia)).
  unfold levRow.
  rewrite (nth_indep _ 0 (levenshtein_prefix s2 s1 (List.length s2) 0))
    by (rewrite length_map, length_seq; lia).
  rewrite map_nth, seq_nth by lia.
  rewrite levenshtein_sym. reflexivity.
Qed.

End LevFacts.
(* ------------------------------------------------------------------ *)
(** ** Edit-distance similarity *)

Module EditSimFacts.
Import RSS LevFacts.

(** C7, the sentence as written, fails on two empty strings: the guard
    [if (!str1 || !str2) return 0] answers before anything is compared. *)
Lemma editSim_empty_empty_is_not_1 :
  ~ (calculateStringSimilarity (Some (js "")) (Some (js "")) == 1)%Q.
Proof. vm_compute. discriminate. Qed.

Lemma editSim_nonempty str1 str2 :
  str1 <> [] -> str2 <> [] ->
  let s1 := trim (toLowerCase str1) in
  let s2 := trim (toLowerCase str2) in
  let maxLen := Nat.max (List.length s1) (List.length s2) in
  (maxLen = 0 -> calculateStringSimilarity (Some str1) (Some str2) = 1%Q) /\
  (maxLen <> 0 ->
   (calculateStringSimilarity (Some str1) (Some str2)
    == ratio (maxLen - levenshtein s1 s2) maxLen)%Q).
Proof.
  intros H1 H2 s1 s2 maxLen.
  unfold calculateStringSimilarity. cbn [or_empty].
  destruct str1 as [|c1 r1]; [congruence|].
  destruct str2 as [|c2 r2]; [congruence|].
  fold s1 s2.
  destruct (seqb s1 s2) eqn:E.
  - apply seqb_eq in E. split; [reflexivity|].
    intros Hm. subst maxLen. rewrite <- E in *.
    rewrite levenshtein_refl, Nat.sub_0_r. symmetry. apply ratio_same. exact Hm.
  - apply seqb_neq in E. split.
    + intros Hm. exfalso. apply E.
      destruct s1, s2; simpl in *; subst maxLen; simpl in *; try lia. reflexivity.
    + intros Hm.
      destruct (List.length s1 =? 0) eqn:En.
      * apply Nat.eqb_eq in En.
        destruct s1; [|discriminate]. clear En.
        destruct (List.length s2 =? 0) eqn:Em.
        { apply Nat.eqb_eq in Em. destruct s2; [congruence|discriminate]. }
        subst maxLen. rewrite levenshtein_sym, levenshtein_nil_r.
        simpl List.length. rewrite Nat.max_0_l, Nat.sub_diag.
        symmetry. apply ratio_zero.
      * destruct (List.length s2 =? 0) eqn:Em.
        { apply Nat.eqb_eq in Em. destruct s2; [|discriminate].
          subst maxLen. rewrite levenshtein_nil_r.
          simpl List.length. rewrite Nat.max_0_r, Nat.sub_diag.
          symmetry. apply ratio_zero. }
        rewrite distance_levenshtein. fold maxLen.
        destruct (maxLen =? 0) eqn:Ex; [apply Nat.eqb_eq in Ex; congruence|].
        reflexivity.
Qed.

(** C7 (amended).  An empty or undefined argument gives 0, so
    [editSim("","") = 0] and [editSim("","a") = 0]; [editSim("abc","abc") = 1];
    for two non-empty arguments the answer is 1 when both are blank after
    trimming, and otherwise [(maxLen - Levenshtein distance) / maxLen] over
    the lowercased, trimmed inputs. *)
Theorem editSim_edge_cases_and_formula :
  (forall o,
     calculateStringSimilarity None o = 0%Q /\
     calculateStringSimilarity (Some []) o = 0%Q /\
     calculateStringSimilarity o None = 0%Q /\
     calculateStringSimilarity o (Some []) = 0%Q) /\
  calculateStringSimilarity (Some (js "")) (Some (js "")) = 0%Q /\
  calculateStringSimilarity (Some (js "")) (Some (js "a")) = 0%Q /\
  calculateStringSimilarity (Some (js "abc")) (Some (js "abc")) = 1%Q /\
  (forall str1 str2,
     str1 <> [] -> str2 <> [] ->
     let s1 := trim (toLowerCase str1) in
     let s2 := trim (toLowerCase str2) in
     let maxLen := Nat.max (List.length s1) (List.length s2) in
     (maxLen = 0 -> calculateStringSimilarity (Some str1) (Some str2) = 1%Q) /\
     (maxLen <> 0 ->
      (calculateStringSimilarity (Some str1) (Some str2)
       == ratio (maxLen - levenshtein s1 s2) maxLen)%Q)).
Proof.
  repeat split; try reflexivity.
  - destruct o as [[|? ?]|]; reflexivity.
  - destruct o as [[|? ?]|]; reflexivity.
  - apply editSim_nonempty; assumption.
  - apply editSim_nonempty; assumption.
Qed.

(** The formula at ["Kitten"] and [" sitting "]: three edits over seven
    units. *)
Lemma editSim_edge_cases_and_formula_witness :
  js "Kitten" <> [] /\ js " sitting " <> [] /\
  Nat.max (List.length (trim (toLowerCase (js "Kitten"))))
          (List.length (trim (toLowerCase (js " sitting ")))) <> 0 /\
  (calculateStringSimilarity (Some (js "Kitten")) (Some (js " sitting "))
   == ratio (7 - levenshtein (js "kitten") (js "sitting")) 7)%Q.
Proof.
  assert (H1 : js "Kitten" <> []) by (vm_compute; discriminate).
  assert (H2 : js " sitting " <> []) by (vm_compute; discriminate).
  assert (H3 : Nat.max (List.length (trim (toLowerCase (js "Kitten"))))
                 (List.length (trim (toLowerCase (js " sitting ")))) <> 0)
    by (vm_compute; discriminate).
  split; [exact H1|]. split; [exact H2|]. split; [exact H3|].
  exact (proj2 (proj2 (proj2 (proj2 (proj2 editSim_edge_cases_and_formula)))
                  (js "Kitten") (js " sitting ") H1 H2) H3).
Defined.

End EditSimFacts.

(* ------------------------------------------------------------------ *)
(** ** Source deduplication *)

Module SourceFacts.
Import RSS RSSDedup Samples Statements.

Lemma In_insert_sorted A (leb : A -> A -> bool) x y l :
  In y (insert_sorted leb x l) <-> y = x \/ In y l.
Proof.
  induction l as [|z l IH]; simpl.
  - intuition congruence.
  - destruct (leb z x); simpl; rewrite ?IH; intuition congruence.
Qed.

Lemma In_stable_sort A (leb : A -> A -> bool) y l :
  In y (stable_sort leb l) <-> In y l.
Proof.
  unfold stable_sort.
  assert (H : forall acc, In y (fold_left (fun a x => insert_sorted leb x a) l acc)
                          <-> In y acc \/ In y l).
  { induction l as [|x l IH]; intros acc; simpl.
    - intuition.
    - rewrite IH, In_insert_sorted. intuition congruence. }
  rewrite H. simpl. intuition.
Qed.

(** The exact-URL lookup over all sources finds a source for the link of
    any stored source: that source itself, if no earlier one. *)
Lemma checkForDuplicate_stored_link (B : Beyond) db S newMetadata :
  In S db ->
  exists found,
    checkForDuplicate B db (link S) newMetadata
    = mkCheck true (Some found) (Some (js "Exact URL match")) 1.
Proof.
  intros HIn. unfold checkForDuplicate.
  destruct (find _ db) as [found|] eqn:E.
  - exists found. reflexivity.
  - exfalso. pose proof (find_none _ _ E S HIn) as H. simpl in H.
    rewrite seqb_refl in H. discriminate.
Qed.

(** C10.  For a source found by [sourceId] and a threshold below 1 (the
    default 0.7 is), [findPotentialDuplicates] reports every other stored
    source whose link matches the domain, each with confidence 1.0 and reason
    'Exact URL match', whatever the titles, descriptions and URLs are: the
    check runs on the stored link of the reported source, which the lookup
    over all sources finds. *)
Theorem findPotentialDuplicates_reports_exact_match (B : Beyond)
    (db : list Source) (sourceId : nat) (threshold : option Q) (T : Source) :
  find (fun s => (_id s =? sourceId)%nat) db = Some T ->
  (match threshold with Some t => t | None => 0.7 end < 1)%Q ->
  exists dups,
    findPotentialDuplicates B db sourceId threshold = Ok (T, dups) /\
    (forall d, In d dups -> exactMatchEntry d) /\
    (forall S, In S db -> _id S <> sourceId ->
               linkMatchesDomain (extractDomain B (link T)) S = true ->
               exists d, In d dups /\ dup_source d = S /\ exactMatchEntry d).
Proof.
  intros HT Hth. unfold findPotentialDuplicates. rewrite HT.
  eexists. split; [reflexivity|].
  set (th := match threshold with Some t => t | None => 0.7%Q end) in *.
  assert (Hgt : gt 1 th = true) by (apply gt_lt; exact Hth).
  split.
  - intros d Hd. apply In_stable_sort in Hd.
    apply in_flat_map in Hd. destruct Hd as (S & HS & Hd).
    apply filter_In in HS. destruct HS as [HS _].
    destruct (@checkForDuplicate_stored_link B db S (metadata S) HS) as [found E].
    rewrite E in Hd. cbn [confidence reason] in Hd. rewrite Hgt in Hd.
    destruct Hd as [<-|[]]. split; reflexivity.
  - intros S HS Hid Hdom.
    destruct (@checkForDuplicate_stored_link B db S (metadata S) HS) as [found E].
    exists (mkPotential S 1 (js "Exact URL match")).
    split; [|split; [reflexivity|split; reflexivity]].
    apply In_stable_sort. apply in_flat_map. exists S. split.
    + apply filter_In. split; [exact HS|].
      rewrite Hdom, andb_true_r. apply negb_true_iff. apply Nat.eqb_neq. exact Hid.
    + rewrite E. cbn [confidence reason]. rewrite Hgt. left. reflexivity.
Qed.

(** Two feeds of one site with nothing else in common: looking up the first
    reports the second as an exact URL match. *)
Lemma findPotentialDuplicates_reports_exact_match_witness :
  exists dups,
    findPotentialDuplicates beyond twoFeeds 1 None = Ok (httpSource, dups) /\
    (forall d, In d dups -> exactMatchEntry d) /\
    (exists d, In d dups /\ dup_source d = atomSource /\ exactMatchEntry d).
Proof.
  assert (H1 : find (fun s => (_id s =? 1)%nat) twoFeeds = Some httpSource)
    by reflexivity.
  assert (H2 : (0.7 < 1)%Q) by reflexivity.
  destruct (@findPotentialDuplicates_reports_exact_match beyond
              twoFeeds 1 None httpSource H1 H2) as (dups & E & Hall & Hex).
  exists dups. split; [exact E|]. split; [exact Hall|].
  apply (Hex atomSource).
  - simpl. right. left. reflexivity.
  - simpl. discriminate.
  - vm_compute. reflexivity.
Defined.

(** *** Scenario C *)

(** C8, as written, fails: against a source stored as
    [http://example.com/rss] the registration of
    [https://www.example.com/rss/] is not even classified as a duplicate. *)
Lemma scenarioC_http_vs_https_is_no_exact_match :
  ~ exists B : Beyond,
      let r := checkForDuplicate B [httpSource] (js "https://www.example.com/rss/")
                 feedMeta in
      isDuplicate r = true /\ (confidence r == 1)%Q
      /\ reason r = Some (js "Exact URL match").
Proof. intros [B H]. vm_compute in H. destruct H as [H _]. discriminate. Qed.

Lemma normalize_www_https (B : Beyond) :
  normalizeUrl B (js "https://www.example.com/rss/") = js "https://example.com/rss".
Proof. vm_compute. reflexivity. Qed.

Lemma normalize_plain_http (B : Beyond) :
  normalizeUrl B (js "http://example.com/rss") = js "http://example.com/rss".
Proof. vm_compute. reflexivity. Qed.

Lemma join_head (sep x : jsstring) (l : list jsstring) c r :
  x = c :: r -> exists r', join sep (x :: l) = c :: r'.
Proof.
  intros ->. destruct l; simpl; eexists; reflexivity.
Qed.

(** Every reason of the fuzzy path starts with the name of a signal. *)
Lemma percent_head label sim c r :
  label = c :: r -> c <> 69%N ->
  exists c' r', percent label sim = c' :: r' /\ c' <> 69%N.
Proof.
  intros -> Hc. exists c. eexists. split; [reflexivity|exact Hc].
Qed.

Lemma score_reason_head (B : Beyond) normalizedUrl newMetadata source :
  match snd (score B normalizedUrl newMetadata source) with
  | [] => True
  | x :: _ => exists c r, x = c :: r /\ c <> 69%N
  end.
Proof.
  unfold score.
  set (t := calculateStringSimilarity (meta_title newMetadata)
              (meta_title (metadata source))).
  set (d := calculateStringSimilarity (meta_description newMetadata)
              (meta_description (metadata source))).
  set (l := calculateStringSimilarity
              (Some (normalizeUrl B (or_empty (or_else (meta_link newMetadata) (Some [])))))
              (Some (normalizeUrl B (or_empty (or_else (meta_link (metadata source))
                                                     (Some [])))))).
  set (u := calculateStringSimilarity (Some normalizedUrl)
              (Some (normalizeUrl B (link source)))).
  clearbody t d l u.
  assert (Ht : js "title similarity: " = 116%N :: js "itle similarity: ")
    by (vm_compute; reflexivity).
  assert (Hd : js "description similarity: " = 100%N :: js "escription similarity: ")
    by (vm_compute; reflexivity).
  assert (Hl : js "website link similarity: " = 119%N :: js "ebsite link similarity: ")
    by (vm_compute; reflexivity).
  assert (Hu : js "URL similarity: " = 85%N :: js "RL similarity: ")
    by (vm_compute; reflexivity).
  destruct (gt t 0.85); destruct (gt d 0.8); destruct (gt l 0.9);
    destruct (gt u 0.8); lazy beta iota zeta delta [snd app]; try exact I;
    lazymatch goal with
    | |- exists c r, percent (js "title similarity: ") _ = _ /\ _ =>
        apply (percent_head _ Ht); discriminate
    | |- exists c r, percent (js "description similarity: ") _ = _ /\ _ =>
        apply (percent_head _ Hd); discriminate
    | |- exists c r, percent (js "website link similarity: ") _ = _ /\ _ =>
        apply (percent_head _ Hl); discriminate
    | |- exists c r, percent (js "URL similarity: ") _ = _ /\ _ =>
        apply (percent_head _ Hu); discriminate
    end.
Qed.

Lemma fuzzy_reason_not_exact (B : Beyond) normalizedUrl newMetadata source st :
  match snd st with [] => True | c :: _ => c <> 69%N end ->
  match snd (best_step B normalizedUrl newMetadata st source) with
  | [] => True
  | c :: _ => c <> 69%N
  end.
Proof.
  destruct st as [[h b] rs]. cbn [snd]. intros H.
  unfold best_step.
  pose proof (score_reason_head B normalizedUrl newMetadata source) as Hs.
  destruct (score B normalizedUrl newMetadata source) as [conf reasons].
  cbn [snd] in Hs.
  destruct (gt conf h); lazy beta iota delta [snd]; [|exact H].
  destruct reasons as [|x l]; [exact I|].
  destruct Hs as (c & r & Hx & Hc).
  destruct (@join_head (js ", ") x l c r Hx) as [r' E].
  assert (Hj : match join (js ", ") (x :: l) with
               | [] => True
               | c0 :: _ => c0 <> 69%N
               end) by (rewrite E; exact Hc).
  exact Hj.
Qed.

(** C8 (amended).  Normalisation keeps the scheme.  The registration of
    [https://www.example.com/rss/] is an exact URL match, with confidence
    1.0, against a source stored as [https://example.com/rss]; against a
    source stored as [http://example.com/rss] the exact lookup finds nothing
    and the answer is that of the fuzzy comparison within the domain. *)
Theorem scenarioC_exact_match_needs_same_scheme (B : Beyond) :
  normalizeUrl B (js "https://www.example.com/rss/") = js "https://example.com/rss" /\
  normalizeUrl B (js "http://example.com/rss") = js "http://example.com/rss" /\
  (forall i t m newMetadata,
     let stored := mkSource i (js "https://example.com/rss") t m in
     checkForDuplicate B [stored] (js "https://www.example.com/rss/") newMetadata
     = mkCheck true (Some stored) (Some (js "Exact URL match")) 1) /\
  (forall i t m newMetadata,
     let stored := mkSource i (js "http://example.com/rss") t m in
     let r := checkForDuplicate B [stored] (js "https://www.example.com/rss/")
                                newMetadata in
     find (fun s => seqb (link s) (js "https://www.example.com/rss/")
                    || seqb (link s) (normalizeUrl B (js "https://www.example.com/rss/")))
          [stored] = None /\
     reason r <> Some (js "Exact URL match") /\
     isDuplicate r = gt (confidence r) 0.75).
Proof.
  split; [exact (normalize_www_https B)|].
  split; [exact (normalize_plain_http B)|].
  split.
  - intros i t m newMetadata stored.
    unfold checkForDuplicate. rewrite (normalize_www_https B).
    cbn [find link stored].
    replace (seqb (js "https://example.com/rss") (js "https://www.example.com/rss/"))
      with false by (vm_compute; reflexivity).
    rewrite seqb_refl. reflexivity.
  - intros i t m newMetadata stored r.
    assert (Hfind :
      find (fun s => seqb (link s) (js "https://www.example.com/rss/")
                     || seqb (link s) (normalizeUrl B (js "https://www.example.com/rss/")))
           [stored] = None).
    { rewrite (normalize_www_https B). cbn [find link stored].
      replace (seqb (js "http://example.com/rss") (js "https://www.example.com/rss/"))
        with false by (vm_compute; reflexivity).
      replace (seqb (js "http://example.com/rss") (js "https://example.com/rss"))
        with false by (vm_compute; reflexivity).
      reflexivity. }
    split; [exact Hfind|].
    subst r. unfold checkForDuplicate. rewrite Hfind.
    replace (filter (linkMatchesDomain (extractDomain B (js "https://www.example.com/rss/")))
                    [stored]) with [stored]
      by (cbn [filter]; unfold linkMatchesDomain; cbn [link stored];
          replace (contains _ _) with true by (vm_compute; reflexivity);
          reflexivity).
    cbn [fold_left].
    pose proof (@fuzzy_reason_not_exact B
                  (normalizeUrl B (js "https://www.example.com/rss/")) newMetadata
                  stored (0%Q, None, []) I) as H.
    destruct (best_step B _ newMetadata (0%Q, None, []) stored) as [[h b] rs].
    cbn [snd] in H. cbn [reason isDuplicate confidence].
    split; [|reflexivity].
    destruct rs as [|c rs].
    + vm_compute. discriminate.
    + intros E. injection E as E1 E2. apply H. exact E1.
Qed.

End SourceFacts.

(* ------------------------------------------------------------------ *)
(** ** The duplicate check of one article *)

Module CheckFacts.
Import OpenSearch Statements Samples.

Lemma Math_max_spec a b :
  ((a <= Math_max a b)%Q /\ (b <= Math_max a b)%Q) /\
  (Math_max a b = a \/ Math_max a b = b).
Proof.
  unfold Math_max. destruct (Qle_bool a b) eqn:E.
  - apply Qle_bool_iff in E. repeat split; auto using Qle_refl.
  - assert (b < a)%Q by (apply gt_lt; unfold gt; rewrite E; reflexivity).
    repeat split; auto using Qle_refl, Qlt_le_weak.
Qed.

Lemma Math_max3_spec a b c : isMaxOf3 (Math_max3 a b c) a b c.
Proof.
  unfold isMaxOf3, Math_max3.
  destruct (Math_max_spec a b) as [[H1 H2] H3].
  destruct (Math_max_spec (Math_max a b) c) as [[H4 H5] H6].
  split.
  - repeat split; eauto using Qle_trans.
  - destruct H6 as [->| ->]; [destruct H3 as [->| ->]|]; auto.
Qed.



Section HashLoop.
Variables titleText contentText titleHash : jsstring.
Variable allHits : list Hit.

Local Abbreviation sims h := (hashSimilarities titleText contentText (_source h)).
Local Abbreviation ok h := (qualifies (hashCriteria titleHash (_source h) (sims h))).
Local Abbreviation loop := (hashLoop titleText contentText titleHash allHits).


End HashLoop.



(** The decision of the semantic stage on a given answer. *)
Lemma semanticDecision_rule titleText contentText response :
  let r := semanticDecision titleText contentText response in
  (isDuplicate r = true <->
   exists topMatch rest,
     hits response = topMatch :: rest /\ semanticRule titleText contentText topMatch) /\
  (forall topMatch rest,
     hits response = topMatch :: rest ->
     semanticRule titleText contentText topMatch ->
     r = mkResult true (Some (_source topMatch))
           (Some (match _score topMatch with Some s => s | None => 0 end / 10)%Q)
           text_similarity (Some (map _source rest))) /\
  (isDuplicate r = false ->
   r = notDuplicate (match hits response with
                     | [] => None
                     | _ => Some (map _source (hits response))
                     end)).
Proof.
  intros r. subst r. unfold semanticDecision, semanticRule.
  destruct (hits response) as [|topMatch rest].
  - split; [|split].
    + split; [discriminate|]. intros (t & l & E & _). discriminate.
    + intros t l E. discriminate.
    + reflexivity.
  - set (norm := (match _score topMatch with Some s => s | None => 0%Q end / 10)%Q).
    set (sim := calculateDetailedSimilarity _ _).
    destruct (gt norm 1.5) eqn:E1; [destruct (gt sim 0.5) eqn:E2|].
    + apply gt_lt in E1, E2. split; [|split].
      * split; [intros _|reflexivity]. exists topMatch, rest. auto.
      * intros t l E _. injection E as <- <-. reflexivity.
      * discriminate.
    + apply gt_le in E2. split; [|split].
      * split; [discriminate|]. intros (t & l & E & _ & H).
        injection E as <- <-. exfalso. exact (Qlt_not_le _ _ H E2).
      * intros t l E [_ H]. injection E as <- <-.
        exfalso. exact (Qlt_not_le _ _ H E2).
      * reflexivity.
    + apply gt_le in E1. split; [|split].
      * split; [discriminate|]. intros (t & l & E & H & _).
        injection E as <- <-. exfalso. exact (Qlt_not_le _ _ H E1).
      * intros t l E [H _]. injection E as <- <-.
        exfalso. exact (Qlt_not_le _ _ H E1).
      * reflexivity.
Qed.

(** C2.  When the more-like-this query is answered, the semantic stage
    reports a duplicate exactly when the top hit's relevance score divided by
    10 exceeds 1.5 and the detailed similarity of (candidate title+content)
    and (incoming title+content) exceeds 0.50; it then reports
    [method = text_similarity] and the normalized score.  In particular a
    normalized score above 1.5 with a detailed similarity of at most 0.50 is
    not a duplicate. *)
Theorem semantic_stage_needs_both_thresholds
    (P : Platform) (news : NewsDocument) (titleText contentText : jsstring)
    (st : IndexState) (response : SearchResponse) :
  search P (indexed st) (MoreLikeThisQuery (title news) (content news))
  = Ok response ->
  let r := fst (semanticStage P news titleText contentText st) in
  (isDuplicate r = true <->
   exists topMatch rest,
     hits response = topMatch :: rest /\ semanticRule titleText contentText topMatch) /\
  (forall topMatch rest,
     hits response = topMatch :: rest ->
     semanticRule titleText contentText topMatch ->
     r = mkResult true (Some (_source topMatch))
           (Some (match _score topMatch with Some s => s | None => 0 end / 10)%Q)
           text_similarity (Some (map _source rest))) /\
  (forall topMatch rest,
     hits response = topMatch :: rest ->
     (1.5 < match _score topMatch with Some s => s | None => 0 end / 10)%Q ->
     (calculateDetailedSimilarity
        (or_empty (title (_source topMatch)) ++ js " "
         ++ or_empty (content (_source topMatch)))
        (titleText ++ js " " ++ contentText) <= 0.5)%Q ->
     isDuplicate r = false /\ method r = none).
Proof.
  intros Hs r.
  assert (Hr : r = semanticDecision titleText contentText response).
  { subst r. unfold semanticStage, client_search. rewrite Hs. reflexivity. }
  rewrite Hr.
  destruct (semanticDecision_rule titleText contentText response) as (H1 & H2 & H3).
  split; [exact H1|]. split; [exact H2|].
  intros topMatch rest E Hscore Hsim.
  assert (Hfalse : isDuplicate (semanticDecision titleText contentText response) = false).
  { apply not_true_is_false. intros Hd. apply H1 in Hd.
    destruct Hd as (t & l & E' & _ & Hlt). rewrite E in E'. injection E' as <- <-.
    exact (Qlt_not_le _ _ Hlt Hsim). }
  split; [exact Hfalse|]. rewrite (H3 Hfalse). reflexivity.
Qed.

(** Scenario E: normalized score 1.8, detailed similarity 24/270. *)
Lemma semantic_stage_needs_both_thresholds_witness :
  let r := fst (semanticStage (demoPlatform [unrelatedHit] false) incoming
                  (js launchTitle) (js launchText) emptyIndex) in
  isDuplicate r = false /\ method r = none.
Proof.
  set (P := demoPlatform [unrelatedHit] false).
  pose (response := mkResponse (TotalObject (Some 1)) [unrelatedHit]).
  assert (Hs : search P (indexed emptyIndex)
                 (MoreLikeThisQuery (title incoming) (content incoming))
               = Ok response) by reflexivity.
  destruct (@semantic_stage_needs_both_thresholds P incoming (js launchTitle)
              (js launchText) emptyIndex response Hs) as (_ & _ & H).
  apply (H unrelatedHit []).
  - reflexivity.
  - vm_compute. reflexivity.
  - vm_compute. discriminate.
Defined.

End CheckFacts.

(* ------------------------------------------------------------------ *)
(** ** [processNews] *)

Module ProcessFacts.
Import Dedup Samples.

Lemma generateContentHash_indexed P text st :
  OpenSearch.indexed (snd (OpenSearch.generateContentHash P text st))
  = OpenSearch.indexed st /\
  OpenSearch.calls (snd (OpenSearch.generateContentHash P text st))
  = OpenSearch.calls st.
Proof.
  unfold OpenSearch.generateContentHash.
  destruct (_ || _); [split; reflexivity|].
  destruct (_ <? 10); split; reflexivity.
Qed.

(** A duplicate is always reported with its original. *)
Lemma hashLoop_some t c th allHits : forall remaining i r,
  OpenSearch.hashLoop t c th allHits remaining i = Ok (Some r) ->
  exists o, OpenSearch.original r = Some o.
Proof.
  induction remaining as [|n IH]; intros i r H; [discriminate|].
  cbn [OpenSearch.hashLoop] in H.
  destruct (nth_error allHits i) as [h|]; [|discriminate].
  destruct (OpenSearch.qualifies _).
  - destruct (OpenSearch.hashSimilarities _ _ _) as [[s d] cc].
    injection H as <-. eexists. reflexivity.
  - eapply IH. exact H.
Qed.

Lemma semanticDecision_original t c response :
  OpenSearch.isDuplicate (OpenSearch.semanticDecision t c response) = true ->
  exists o, OpenSearch.original (OpenSearch.semanticDecision t c response) = Some o.
Proof.
  unfold OpenSearch.semanticDecision.
  destruct (OpenSearch.hits response) as [|top rest]; [discriminate|].
  destruct (if gt _ 1.5 then _ else false); [|discriminate].
  intros _. eexists. reflexivity.
Qed.

Lemma semanticStage_original P news t c st :
  OpenSearch.isDuplicate (fst (OpenSearch.semanticStage P news t c st)) = true ->
  exists o, OpenSearch.original (fst (OpenSearch.semanticStage P news t c st)) = Some o.
Proof.
  unfold OpenSearch.semanticStage, OpenSearch.client_search.
  destruct (OpenSearch.search P _ _); cbn [fst].
  - apply semanticDecision_original.
  - discriminate.
Qed.

Lemma checkForDuplicates_original P news st :
  OpenSearch.isDuplicate (fst (OpenSearch.checkForDuplicates P news st)) = true ->
  exists o, OpenSearch.original (fst (OpenSearch.checkForDuplicates P news st)) = Some o.
Proof.
  unfold OpenSearch.checkForDuplicates.
  destruct (20 <=? _); [|apply semanticStage_original].
  unfold OpenSearch.hashStage.
  destruct (OpenSearch.generateContentHash P _ st) as [ch st1].
  destruct (OpenSearch.generateContentHash P _ st1) as [th st2].
  unfold OpenSearch.client_search.
  destruct (OpenSearch.search P _ _) as [response|e]; [|discriminate].
  destruct (0 <? _); [|apply semanticStage_original].
  destruct (OpenSearch.hashLoop _ _ _ _ _ _) as [[r|]|e] eqn:E; cbn [fst].
  - intros _. eapply hashLoop_some. exact E.
  - apply semanticStage_original.
  - discriminate.
Qed.

Lemma confirmedScore_iff o :
  confirmedScore o = true <-> exists s, o = Some s /\ (1.5 <= s)%Q.
Proof.
  unfold confirmedScore. destruct o as [s|].
  - rewrite andb_true_iff, negb_true_iff, Qle_bool_iff. split.
    + intros [_ H]. exists s. auto.
    + intros (s' & E & H). injection E as <-. split; [|exact H].
      destruct (Qeq_bool s 0) eqn:E0; [|reflexivity].
      apply Qeq_bool_iff in E0. rewrite E0 in H.
      exfalso. revert H. apply Qlt_not_le. reflexivity.
  - split; [discriminate|]. intros (s & E & _). discriminate.
Qed.

Lemma indexNews_ok P news st t :
  OpenSearch.created_at news = Time t ->
  (forall d, OpenSearch.index_error P (OpenSearch.indexed st) d = None) ->
  exists oid d,
    OpenSearch.indexNews P news st
    = (Ok oid,
       OpenSearch.mkIndexState
         (OpenSearch.randomDraws (snd (OpenSearch.indexNews P news st)))
         (OpenSearch.indexed st ++ [d])
         (OpenSearch.calls st ++ [OpenSearch.CallIndex d])) /\
    OpenSearch.id d = OpenSearch.id news /\
    OpenSearch.title d = OpenSearch.title news /\
    OpenSearch.content d = OpenSearch.content news.
Proof.
  intros Hdate Hok. unfold OpenSearch.indexNews.
  pose proof (generateContentHash_indexed P
                (OpenSearch.toStr (OpenSearch.title news) ++ js " "
                 ++ OpenSearch.toStr (OpenSearch.content news)) st) as [H1 H1'].
  destruct (OpenSearch.generateContentHash P _ st) as [ch st1]. cbn [snd] in H1, H1'.
  pose proof (generateContentHash_indexed P
                (or_empty (OpenSearch.title news)) st1) as [H2 H2'].
  destruct (OpenSearch.generateContentHash P _ st1) as [th st2]. cbn [snd] in H2, H2'.
  rewrite Hdate. cbn [toISOString].
  rewrite H2, H1, H2', H1', Hok.
  eexists. eexists. split; [reflexivity|]. repeat split.
Qed.

(** An article that meets the schema passes the validation of the store,
    and the record carries its paths. *)
Lemma validate_meetsSchema oid now newsData fallback :
  Statements.meetsSchema newsData = true ->
  exists doc,
    validate oid now (normalizedNewsData newsData fallback) = Some doc /\
    Doc._id doc = oid /\ Doc.createdAt doc = now /\
    Statements.recordOf newsData doc.
Proof.
  unfold Statements.meetsSchema. rewrite !andb_true_iff, !orb_true_iff.
  intros (((((((Hids & He) & Hs) & Hu) & Ht) & Hl) & Hp) & Hd).
  unfold validate, Statements.recordOf, required.
  cbn [normalizedNewsData Normalized.newsRawId Normalized.sourceId
       Normalized.externalId Normalized.source Normalized.url
       Normalized.titleCanonical Normalized.lang Normalized.publishedAt
       Normalized.summaryShort].
  destruct (NewsData.newsRawId newsData) as [raw|]; [|discriminate].
  destruct (NewsData.sourceId newsData) as [sid|]; [|discriminate].
  rewrite He, Hs, Hu, Ht, Hl.
  destruct (NewsData.externalId newsData) as [ext|]; [|discriminate].
  destruct (NewsData.source newsData) as [src|]; [|discriminate].
  destruct (NewsData.url newsData) as [u|]; [|discriminate].
  destruct (NewsData.title newsData) as [ti|]; [|discriminate].
  destruct (NewsData.lang newsData) as [la|]; [|discriminate].
  assert (Hsum : exists sm, or_else (NewsData.description newsData)
                              (NewsData.content newsData) = Some sm /\
                            truthy (Some sm) = true).
  { unfold or_else. destruct (truthy (NewsData.description newsData)) eqn:E.
    - destruct (NewsData.description newsData) as [x|]; [|discriminate]. eauto.
    - destruct Hd as [Hd|Hd]; [discriminate|].
      destruct (NewsData.content newsData) as [x|]; [|discriminate]. eauto. }
  destruct Hsum as (sm & Esm & Hsm). rewrite Esm, Hsm.
  destruct (truthy (NewsData.publishedAt newsData)) eqn:Epub.
  - destruct (NewsData.publishedAt newsData) as [[|c r]|]; try discriminate.
    cbn [option_map]. eexists. split; [reflexivity|].
    cbn. repeat split; reflexivity.
  - destruct Hp as [Hp|Hp]; [discriminate|].
    destruct (NewsData.created_at newsData) as [d|]; [|discriminate].
    cbn [option_map]. eexists. split; [reflexivity|].
    cbn. repeat split; reflexivity.
Qed.

Section Process.
Variable P : OpenSearch.Platform.
Variable DB : Store.
Variable newsData : NewsData.t.
Variable w : World.

Local Abbreviation check :=
  (OpenSearch.checkForDuplicates P (newsDocumentOf newsData (clock w)) (os w)).
Local Abbreviation flagged := (fst check).
Local Abbreviation out := (processNews P DB newsData w).

(** The test [isDuplicate && similarity_score && similarity_score >= 1.5]. *)
Lemma rejected_iff :
  trim (titleTextOf newsData) <> [] ->
  (OpenSearch.isDuplicate flagged
   && confirmedScore (OpenSearch.dup_similarity_score flagged) = true
   -> exists s,
        OpenSearch.dup_similarity_score flagged = Some s /\
        out = (mkProcessResult false
                 (ConfirmedDuplicate (OpenSearch.method flagged) s)
                 (OpenSearch.original flagged),
               with_os w (snd check))) /\
  (OpenSearch.isDuplicate flagged
   && confirmedScore (OpenSearch.dup_similarity_score flagged) = false
   -> forall m s, reason (fst out) <> ConfirmedDuplicate m s).
Proof.
  intros Htitle. unfold processNews, processNews_try.
  destruct (trim (titleTextOf newsData)) as [|c r] eqn:Et; [congruence|].
  destruct check as [dr st] eqn:Ec. cbn [fst snd].
  split.
  - intros H. rewrite H.
    apply andb_true_iff in H. destruct H as [_ H].
    apply confirmedScore_iff in H. destruct H as (s & E & _).
    exists s. rewrite E. split; reflexivity.
  - intros H. rewrite H. intros m s.
    destruct (create DB (normalizedNewsData newsData false) (with_os w st))
      as [[doc|e] w1].
    + destruct (OpenSearch.indexNews P _ (os w1)) as [[oid|e] st1].
      * cbn. discriminate.
      * unfold fallbackSave.
        destruct (create DB _ _) as [[doc'|e'] w2]; cbn; discriminate.
    + unfold fallbackSave.
      destruct (create DB _ _) as [[doc'|e'] w2]; cbn; discriminate.
Qed.

(** The article that is not rejected, meets the schema and carries no
    invalid date, with a store and an index that accept it. *)
Lemma saved_when_not_rejected :
  trim (titleTextOf newsData) <> [] ->
  OpenSearch.isDuplicate flagged
  && confirmedScore (OpenSearch.dup_similarity_score flagged) = false ->
  Statements.meetsSchema newsData = true ->
  NewsData.created_at newsData <> Some Invalid_Date ->
  create_error DB (newsNormalized w) (normalizedNewsData newsData false) = None ->
  (forall d, OpenSearch.index_error P (OpenSearch.indexed (snd check)) d = None) ->
  fst out = mkProcessResult true NewArticleSaved None /\
  exists doc d,
    newsNormalized (snd out) = newsNormalized w ++ [doc] /\
    Doc._id doc = nextObjectId w /\
    Statements.recordOf newsData doc /\
    OpenSearch.indexed (os (snd out)) = OpenSearch.indexed (snd check) ++ [d] /\
    OpenSearch.id d = Some (showNat (Doc._id doc)) /\
    OpenSearch.title d = Some (titleTextOf newsData) /\
    OpenSearch.content d = Some (contentTextOf newsData).
Proof.
  intros Htitle Hlow Hschema Hdate Hstore Hindex.
  destruct (@validate_meetsSchema (nextObjectId w) (clock w) newsData false Hschema)
    as (doc & Hvalid & Hid & _ & Hrec).
  unfold processNews, processNews_try.
  destruct (trim (titleTextOf newsData)) as [|c r] eqn:Et; [congruence|].
  destruct check as [dr st] eqn:Ec. cbn [fst snd] in *.
  rewrite Hlow.
  unfold create. cbn [with_os newsNormalized nextObjectId clock].
  rewrite Hstore, Hvalid. cbn [os with_os].
  assert (Hd : exists t,
             OpenSearch.created_at
               (withId (newsDocumentOf newsData (clock w)) (Doc._id doc)) = Time t).
  { cbn [withId OpenSearch.created_at newsDocumentOf].
    destruct (NewsData.created_at newsData) as [[t|]|]; [eauto|congruence|eauto]. }
  destruct Hd as [t Hd].
  destruct (@indexNews_ok P (withId (newsDocumentOf newsData (clock w)) (Doc._id doc))
              st t Hd Hindex) as (oid & d & E & Hdid & Ht & Hc).
  rewrite E. cbn [fst snd with_os newsNormalized os OpenSearch.indexed].
  split; [reflexivity|].
  exists doc, d. split; [reflexivity|]. split; [exact Hid|]. split; [exact Hrec|].
  split; [reflexivity|]. split; [exact Hdid|]. split; [exact Ht|exact Hc].
Qed.
End Process.

(** C3.  For an article with a title: [processNews] answers
    [saved = false] with the original exactly when the duplicate check
    reports [isDuplicate = true] with a score of at least 1.5, and then
    leaves the store and the index as they were; in every other case, a
    duplicate flagged with a lower score included, an article that meets
    the schema and carries no invalid date is stored, as a record of the
    article, and indexed under the id of that record, when the store and
    the index accept it. *)
Theorem processNews_rejects_only_confirmed_duplicates
    (P : OpenSearch.Platform) (DB : Store) (newsData : NewsData.t) (w : World) :
  trim (titleTextOf newsData) <> [] ->
  let check :=
    OpenSearch.checkForDuplicates P (newsDocumentOf newsData (clock w)) (os w) in
  let flagged := fst check in
  let confirmed :=
    OpenSearch.isDuplicate flagged = true /\
    exists s, OpenSearch.dup_similarity_score flagged = Some s /\ (1.5 <= s)%Q in
  let out := processNews P DB newsData w in
  ((exists m s o, fst out = mkProcessResult false (ConfirmedDuplicate m s) (Some o))
   <-> confirmed) /\
  (confirmed -> newsNormalized (snd out) = newsNormalized w /\
                OpenSearch.indexed (os (snd out)) = OpenSearch.indexed (snd check)) /\
  (~ confirmed ->
   Statements.meetsSchema newsData = true ->
   NewsData.created_at newsData <> Some Invalid_Date ->
   create_error DB (newsNormalized w) (normalizedNewsData newsData false) = None ->
   (forall d, OpenSearch.index_error P (OpenSearch.indexed (snd check)) d = None) ->
   fst out = mkProcessResult true NewArticleSaved None /\
   exists doc d,
     newsNormalized (snd out) = newsNormalized w ++ [doc] /\
     Doc._id doc = nextObjectId w /\
     Statements.recordOf newsData doc /\
     OpenSearch.indexed (os (snd out)) = OpenSearch.indexed (snd check) ++ [d] /\
     OpenSearch.id d = Some (showNat (Doc._id doc)) /\
     OpenSearch.title d = Some (titleTextOf newsData) /\
     OpenSearch.content d = Some (contentTextOf newsData)).
Proof.
  intros Htitle check flagged confirmed out.
  destruct (@rejected_iff P DB newsData w Htitle) as [Hyes Hno].
  fold check flagged out in Hyes, Hno.
  assert (Hconf : confirmed <->
            OpenSearch.isDuplicate flagged
            && confirmedScore (OpenSearch.dup_similarity_score flagged) = true).
  { unfold confirmed. rewrite andb_true_iff, confirmedScore_iff. tauto. }
  split; [split|split].
  - intros (m & s & o & E).
    destruct (OpenSearch.isDuplicate flagged
              && confirmedScore (OpenSearch.dup_similarity_score flagged)) eqn:Eb.
    + apply Hconf. reflexivity.
    + exfalso. apply (Hno eq_refl m s). rewrite E. reflexivity.
  - intros Hc. pose proof Hc as [Hdup _]. apply Hconf in Hc.
    destruct (Hyes Hc) as (s & Es & Eout).
    destruct (checkForDuplicates_original P (newsDocumentOf newsData (clock w))
                (os w) Hdup) as [o Eo].
    fold check flagged in Eo.
    exists (OpenSearch.method flagged), s, o. rewrite Eout, Eo. reflexivity.
  - intros Hc. apply Hconf in Hc. destruct (Hyes Hc) as (s & _ & Eout).
    rewrite Eout. split; reflexivity.
  - intros Hc Hschema Hdate Hstore Hindex.
    apply (@saved_when_not_rejected P DB newsData w); auto.
    apply not_true_is_false. intros E. apply Hc. apply Hconf. exact E.
Qed.

(** The sample article, twice.  Against an index that reports the same
    story with relevance 18 it is rejected, and the store and the index are
    left as they were.  Against an index that holds the same article, the
    hash stage flags it with score 1: it is stored and indexed all the
    same. *)
Lemma processNews_rejects_only_confirmed_duplicates_witness :
  (let out := processNews (demoPlatform [sameStoryHit] false) demoStore
                goodArticle emptyWorld in
   (exists m s o, fst out = mkProcessResult false (ConfirmedDuplicate m s) (Some o)) /\
   newsNormalized (snd out) = []) /\
  (let w := mkWorld oneDocIndex [] 0 1000%Z in
   let flagged :=
     fst (OpenSearch.checkForDuplicates (demoPlatform [] false)
            (newsDocumentOf goodArticle (clock w)) (os w)) in
   let out := processNews (demoPlatform [] false) demoStore goodArticle w in
   OpenSearch.isDuplicate flagged = true /\
   fst out = mkProcessResult true NewArticleSaved None /\
   exists doc d,
     newsNormalized (snd out) = [doc] /\
     Doc.titleCanonical doc = js launchTitle /\
     OpenSearch.indexed (os (snd out)) = [indexedDoc launchTitle launchText; d] /\
     OpenSearch.id d = Some (js "0")).
Proof.
  split.
  - assert (Htitle : trim (titleTextOf goodArticle) <> [])
      by (vm_compute; discriminate).
    destruct (@processNews_rejects_only_confirmed_duplicates
                (demoPlatform [sameStoryHit] false) demoStore goodArticle emptyWorld
                Htitle) as (Hiff & Hkeep & _).
    assert (Hc : OpenSearch.isDuplicate
                   (fst (OpenSearch.checkForDuplicates
                           (demoPlatform [sameStoryHit] false)
                           (newsDocumentOf goodArticle (clock emptyWorld))
                           (os emptyWorld))) = true /\
                 exists s,
                   OpenSearch.dup_similarity_score
                     (fst (OpenSearch.checkForDuplicates
                             (demoPlatform [sameStoryHit] false)
                             (newsDocumentOf goodArticle (clock emptyWorld))
                             (os emptyWorld))) = Some s /\ (1.5 <= s)%Q).
    { split; [vm_compute; reflexivity|].
      exists 1.8%Q. split; vm_compute; [reflexivity|discriminate]. }
    split.
    + apply Hiff. exact Hc.
    + apply (Hkeep Hc).
  - intros w flagged out.
    assert (Htitle : trim (titleTextOf goodArticle) <> [])
      by (vm_compute; discriminate).
    assert (Hdup : OpenSearch.isDuplicate flagged = true)
      by (vm_compute; reflexivity).
    assert (Hscore : exists s0, OpenSearch.dup_similarity_score flagged = Some s0 /\
                                (s0 < 1.5)%Q)
      by (eexists; split; vm_compute; reflexivity).
    assert (Hnot : ~ (OpenSearch.isDuplicate flagged = true /\
                      exists s, OpenSearch.dup_similarity_score flagged = Some s /\
                                (1.5 <= s)%Q)).
    { intros (_ & s & Es & Hs). destruct Hscore as (s0 & Es0 & Hs0).
      rewrite Es0 in Es. injection Es as <-.
      revert Hs. apply Qlt_not_le. exact Hs0. }
    assert (Hschema : Statements.meetsSchema goodArticle = true)
      by (vm_compute; reflexivity).
    assert (Hdate : NewsData.created_at goodArticle <> Some Invalid_Date)
      by discriminate.
    assert (Hindexed : OpenSearch.indexed
                         (snd (OpenSearch.checkForDuplicates (demoPlatform [] false)
                                 (newsDocumentOf goodArticle (clock w)) (os w)))
                       = [indexedDoc launchTitle launchText])
      by (vm_compute; reflexivity).
    destruct (proj2 (proj2 (@processNews_rejects_only_confirmed_duplicates
                              (demoPlatform [] false) demoStore goodArticle w Htitle))
                Hnot Hschema Hdate eq_refl (fun d => eq_refl))
      as (Hsaved & doc & d & Hstore & Hdocid & Hrec & Hidx & Hid & _).
    split; [exact Hdup|]. split; [exact Hsaved|].
    exists doc, d. split; [exact Hstore|].
    destruct Hrec as (_ & _ & _ & _ & _ & Ht & _).
    cbn [goodArticle articleTitled NewsData.title] in Ht. injection Ht as Ht.
    split; [symmetry; exact Ht|].
    rewrite Hindexed in Hidx. split; [exact Hidx|].
    rewrite Hid, Hdocid. reflexivity.
Defined.

End ProcessFacts.

(* ------------------------------------------------------------------ *)
(** ** The [catch] block of [processNews] *)

Module FallbackFacts.
Import Dedup Samples.

(** *** The two defects of the fallback *)

(** A title that is missing or blank skips the duplicate check and goes
    straight to the fallback. *)
Lemma processNews_no_title P DB newsData w :
  trim (titleTextOf newsData) = [] ->
  processNews P DB newsData w = fallbackSave DB newsData w.
Proof.
  intros H. unfold processNews, processNews_try. rewrite H. reflexivity.
Qed.

(** C4, the code at a blank title: no search is made, and the article is
    stored by the fallback with the answer [saved = true]. *)
Theorem processNews_blank_title_is_stored :
  let out := processNews (demoPlatform [] false) demoStore blankArticle emptyWorld in
  trim (titleTextOf blankArticle) = [] /\
  OpenSearch.calls (os (snd out)) = [] /\
  fst out = mkProcessResult true SavedToMongoOnly None /\
  map Doc.titleCanonical (newsNormalized (snd out)) = [js "   "].
Proof. vm_compute. repeat split. Qed.

(** C6, the code when the store accepts the article and the index then
    refuses it: the fallback stores the article a second time. *)
Theorem processNews_index_failure_stores_twice :
  let out := processNews (demoPlatform [] true) demoStore goodArticle emptyWorld in
  fst out = mkProcessResult true SavedToMongoOnly None /\
  map Doc._id (newsNormalized (snd out)) = [0; 1] /\
  map Doc.titleCanonical (newsNormalized (snd out))
  = [js launchTitle; js launchTitle] /\
  OpenSearch.indexed (os (snd out)) = [].
Proof. vm_compute. repeat split. Qed.

End FallbackFacts.

(* ------------------------------------------------------------------ *)
(** ** The duplicate sweep *)

Module SweepFacts.
Import Dedup Statements Samples.

(** *** Oldest first *)

Section Sorting.
Variable A : Type.
Variable key : A -> Z.

Local Abbreviation leb := (fun a b => (key a <=? key b)%Z).
Local Abbreviation le := (fun a b => (key a <= key b)%Z).

Lemma insert_sorted_perm x l : Permutation (insert_sorted leb x l) (x :: l).
Proof.
  induction l as [|y l IH]; simpl; [reflexivity|].
  destruct (key y <=? key x)%Z; [|reflexivity].
  rewrite IH. apply perm_swap.
Qed.

Lemma stable_sort_perm l : Permutation (stable_sort leb l) l.
Proof.
  unfold stable_sort.
  assert (H : forall acc, Permutation
                (fold_left (fun a x => insert_sorted leb x a) l acc) (acc ++ l)).
  { induction l as [|x l IH]; intros acc; simpl.
    - rewrite app_nil_r. reflexivity.
    - rewrite IH, insert_sorted_perm. apply Permutation_middle. }
  apply (H []).
Qed.




End Sorting.

Lemma oldestFirst_perm docs : Permutation (oldestFirst docs) docs.
Proof. apply (stable_sort_perm Doc.createdAt). Qed.



(** *** The original comes from the seen set *)

Section Scan.
Variable P : OpenSearch.Platform.

Lemma titleMatch_in cur : forall entries o m s,
  titleMatch cur entries = Some (o, m, s) -> In o (map snd entries).
Proof.
  induction entries as [|[k e] entries IH]; intros o m s H; [discriminate|].
  cbn [titleMatch] in H. cbn [map snd].
  destruct (gt _ 0.85 || gt _ 0.9).
  - injection H as <- _ _. left. reflexivity.
  - right. eapply IH. exact H.
Qed.

Lemma hashMatch_in h : forall entries st o st',
  hashMatch P h entries st = (Some o, st') -> In o (map snd entries).
Proof.
  induction entries as [|[k e] entries IH]; intros st o st' H.
  - discriminate.
  - cbn [hashMatch] in H. cbn [map snd].
    destruct (OpenSearch.generateContentHash P _ st) as [eh st1].
    destruct (seqb h eh).
    + injection H as <- _. left. reflexivity.
    + right. eapply IH. exact H.
Qed.

Lemma semanticMatch_in cur entries st o m s st' :
  semanticMatch P cur entries st = (Some (o, m, s), st') -> In o (map snd entries).
Proof.
  unfold semanticMatch.
  destruct (OpenSearch.checkForDuplicates P _ st) as [dr st1].
  destruct (_ && _); [|discriminate].
  destruct (OpenSearch.original dr) as [orig|]; [|discriminate].
  destruct (find _ entries) as [[k e]|] eqn:E; [|discriminate].
  intros H. injection H as <- _ _ _.
  apply find_some in E. destruct E as [E _].
  apply (in_map snd) in E. exact E.
Qed.

Lemma findOriginal_in cur entries st o m s st' :
  findOriginal P cur entries st = (Some (o, m, s), st') -> In o (map snd entries).
Proof.
  unfold findOriginal.
  destruct (titleMatch cur entries) as [[[o1 m1] s1]|] eqn:Et.
  - intros H. injection H as <- _ _ _. eapply titleMatch_in. exact Et.
  - destruct (OpenSearch.generateContentHash P _ st) as [h st1].
    destruct (hashMatch P h entries st1) as [[o2|] st2] eqn:Eh.
    + intros H. injection H as <- _ _ _. eapply hashMatch_in. exact Eh.
    + destruct entries as [|e entries]; [discriminate|].
      apply semanticMatch_in.
Qed.

Lemma In_map_set k v : forall m x,
  In x (map snd (map_set k v m)) -> x = v \/ In x (map snd m).
Proof.
  induction m as [|[k' v'] m IH]; intros x H; simpl in *.
  - intuition.
  - destruct (seqb k' k); simpl in H.
    + intuition.
    + destruct H as [H|H]; [intuition|]. apply IH in H. intuition.
Qed.

Lemma marksLaterOf_extend done x d :
  marksLaterOf done d -> marksLaterOf (done ++ [x]) d.
Proof.
  intros (pre & cur & post & -> & H1 & H2 & H3).
  exists pre, cur, (post ++ [x]). rewrite <- app_assoc. auto.
Qed.

Lemma marked_in_done done sc i :
  sweepInvariant done sc -> In i (markedIds sc) -> In i (map Doc._id done).
Proof.
  intros (_ & Hm & _) Hi. unfold markedIds in Hi.
  apply in_map_iff in Hi. destruct Hi as (d & <- & Hd).
  destruct (Hm d Hd) as (pre & cur & post & -> & -> & _).
  apply in_map. apply in_or_app. right. left. reflexivity.
Qed.

(** One turn of the loop keeps the invariant. *)
Lemma scanStep_invariant dryRun done sc st x :
  sweepInvariant done sc ->
  ~ In (Doc._id x) (map Doc._id done) ->
  sweepInvariant (done ++ [x]) (fst (scanStep P dryRun (sc, st) x)).
Proof.
  intros Hinv Hfresh. pose proof Hinv as (Hseen & Hmarks & Hclean & Horig).
  unfold scanStep.
  destruct (findOriginal P x (processedArticles sc) st) as [[[[o m] s]|] st1] eqn:Ef.
  - apply findOriginal_in in Ef. fold (seen sc) in Ef.
    cbn [fst]. unfold sweepInvariant, seen, markedIds.
    cbn [processedArticles duplicatesToRemove]. fold (seen sc).
    rewrite map_app. cbn [map dup_id]. fold (markedIds sc).
    split; [|split; [|split]].
    + intros y Hy. apply in_or_app. left. auto.
    + intros d Hd. apply in_app_or in Hd. destruct Hd as [Hd|[<-|[]]].
      * apply marksLaterOf_extend. auto.
      * exists done, x, []. cbn [dup_id dup_title dup_original].
        split; [reflexivity|]. split; [reflexivity|]. split; [reflexivity|].
        apply Hseen. exact Ef.
    + intros y Hy Hin. apply in_app_or in Hin. destruct Hin as [Hin|[E|[]]].
      * exact (Hclean y Hy Hin).
      * apply Hfresh. rewrite E. apply in_map. auto.
    + intros d Hd Hin. apply in_app_or in Hd.
      assert (Hod : In (dup_original d) done).
      { destruct Hd as [Hd|[<-|[]]].
        - destruct (Hmarks d Hd) as (pre & cur & post & -> & _ & _ & Ho).
          apply in_or_app. left. exact Ho.
        - cbn [dup_original]. apply Hseen. exact Ef. }
      apply in_app_or in Hin. destruct Hin as [Hin|[E|[]]].
      * destruct Hd as [Hd|[<-|[]]].
        -- exact (Horig d Hd Hin).
        -- cbn [dup_original] in Hin. exact (Hclean o Ef Hin).
      * apply Hfresh. rewrite E. apply in_map. exact Hod.
  - destruct (OpenSearch.generateContentHash P _ st1) as [h st2].
    cbn [fst]. unfold sweepInvariant, seen, markedIds.
    cbn [processedArticles duplicatesToRemove]. fold (seen sc) (markedIds sc).
    split; [|split; [|split]].
    + intros y Hy. apply In_map_set in Hy. apply in_or_app.
      destruct Hy as [->|Hy]; [right; left; reflexivity|left; auto].
    + intros d Hd. apply marksLaterOf_extend. auto.
    + intros y Hy Hin. apply In_map_set in Hy. destruct Hy as [->|Hy].
      * apply Hfresh. eapply marked_in_done; eauto.
      * exact (Hclean y Hy Hin).
    + exact Horig.
Qed.

Lemma scan_invariant dryRun : forall rest done sc st,
  sweepInvariant done sc ->
  NoDup (map Doc._id (done ++ rest)) ->
  sweepInvariant (done ++ rest) (fst (fold_left (scanStep P dryRun) rest (sc, st))).
Proof.
  induction rest as [|x rest IH]; intros done sc st Hinv Hnd.
  - rewrite app_nil_r. exact Hinv.
  - cbn [fold_left].
    destruct (scanStep P dryRun (sc, st) x) as [sc' st'] eqn:E.
    replace (done ++ x :: rest) with ((done ++ [x]) ++ rest)
      by (rewrite <- app_assoc; reflexivity).
    apply IH.
    + replace sc' with (fst (scanStep P dryRun (sc, st) x)) by (rewrite E; reflexivity).
      apply scanStep_invariant; [exact Hinv|].
      rewrite map_app in Hnd. cbn [map] in Hnd.
      apply NoDup_remove_2 in Hnd. intros Hin. apply Hnd.
      apply in_or_app. left. exact Hin.
    + rewrite <- app_assoc. exact Hnd.
Qed.

Lemma sweepInvariant_start : sweepInvariant [] (mkScan [] [] 0 []).
Proof.
  unfold sweepInvariant, seen, markedIds. cbn.
  repeat split; intros ? [].
Qed.

(** The sweep over a store whose ids are distinct. *)
Lemma findAndRemoveDuplicates_scan_invariant dryRun w :
  NoDup (map Doc._id (newsNormalized w)) ->
  sweepInvariant (oldestFirst (newsNormalized w))
                 (fst (findAndRemoveDuplicates_scan P dryRun w)).
Proof.
  intros Hnd. unfold findAndRemoveDuplicates_scan.
  apply (@scan_invariant dryRun (oldestFirst (newsNormalized w)) []
           (mkScan [] [] 0 []) (os w) sweepInvariant_start).
  cbn [app].
  apply (Permutation_NoDup (l := map Doc._id (newsNormalized w))); [|exact Hnd].
  apply Permutation_map, Permutation_sym, oldestFirst_perm.
Qed.

(** *** Scenario D *)

(** A turn that finds no original adds the article to the seen set. *)
Lemma scanStep_unmatched dryRun sc st x :
  fst (findOriginal P x (processedArticles sc) st) = None ->
  let st1 := snd (findOriginal P x (processedArticles sc) st) in
  let g := OpenSearch.generateContentHash P (contentForHash x) st1 in
  scanStep P dryRun (sc, st) x
  = (mkScan (map_set (fst g) x (processedArticles sc))
       (duplicatesToRemove sc) (duplicatesFound sc) (details sc), snd g).
Proof.
  intros H st1 g. subst g st1. unfold scanStep.
  destruct (findOriginal P x (processedArticles sc) st) as [found st1].
  cbn [fst snd] in *. subst found.
  destruct (OpenSearch.generateContentHash P (contentForHash x) st1) as [k st2].
  reflexivity.
Qed.


Lemma findOriginal_empty x st :
  fst (findOriginal P x [] st) = None.
Proof.
  unfold findOriginal. cbn [titleMatch].
  destruct (OpenSearch.generateContentHash P (contentForHash x) st) as [h st1].
  reflexivity.
Qed.






End Scan.



End SweepFacts.

(* ------------------------------------------------------------------ *)
(** ** Word sets and the three scorers *)

Module ScorerFacts.

Lemma includes_In ws w : includes ws w = true <-> In w ws.
Proof.
  unfold includes. rewrite existsb_exists. split.
  - intros (x & Hx & E). apply seqb_eq in E. subst. exact Hx.
  - intros H. exists w. split; [exact H|apply seqb_refl].
Qed.

Lemma In_mkSet x : forall l, In x (mkSet l) <-> In x l.
Proof.
  induction l as [|w l IH]; simpl; [tauto|].
  rewrite filter_In, IH, negb_true_iff, seqb_neq.
  destruct (list_eq_dec N.eq_dec x w) as [->|Hne]; [tauto|].
  split; [intros [H|[H _]]; auto|intros [H|H]; [auto|right; split; auto]].
Qed.

Lemma NoDup_mkSet : forall l, NoDup (mkSet l).
Proof.
  induction l as [|w l IH]; simpl; constructor.
  - rewrite filter_In, negb_true_iff, seqb_neq. intros [_ H]. congruence.
  - apply NoDup_filter. exact IH.
Qed.

Lemma length_mkSet_le : forall l, List.length (mkSet l) <= List.length l.
Proof.
  induction l as [|w l IH]; simpl; [lia|].
  pose proof (filter_length_le (fun x => negb (seqb x w)) (mkSet l)). lia.
Qed.

Lemma In_setIntersection x s1 s2 :
  In x (setIntersection s1 s2) <-> In x s1 /\ In x s2.
Proof.
  unfold setIntersection. rewrite In_mkSet, filter_In, includes_In. tauto.
Qed.

Lemma In_setUnion x s1 s2 : In x (setUnion s1 s2) <-> In x s1 \/ In x s2.
Proof. unfold setUnion. rewrite In_mkSet, in_app_iff. tauto. Qed.

Lemma same_size (l1 l2 : list jsstring) :
  NoDup l1 -> NoDup l2 -> (forall x, In x l1 <-> In x l2) ->
  List.length l1 = List.length l2.
Proof.
  intros H1 H2 H. apply Permutation_length. apply NoDup_Permutation; assumption.
Qed.

Lemma sub_size (l1 l2 : list jsstring) :
  NoDup l1 -> (forall x, In x l1 -> In x l2) -> List.length l1 <= List.length l2.
Proof. intros H1 H. apply NoDup_incl_length; assumption. Qed.

Lemma intersection_size_sym s1 s2 :
  List.length (setIntersection s1 s2) = List.length (setIntersection s2 s1).
Proof.
  apply same_size; try apply NoDup_mkSet.
  intros x. rewrite !In_setIntersection. tauto.
Qed.

Lemma union_size_sym s1 s2 :
  List.length (setUnion s1 s2) = List.length (setUnion s2 s1).
Proof.
  apply same_size; try apply NoDup_mkSet.
  intros x. rewrite !In_setUnion. tauto.
Qed.

Lemma intersection_le_union s1 s2 :
  List.length (setIntersection s1 s2) <= List.length (setUnion s1 s2).
Proof.
  apply sub_size; [apply NoDup_mkSet|].
  intros x. rewrite In_setIntersection, In_setUnion. tauto.
Qed.

Lemma intersection_le_l s1 s2 :
  List.length (setIntersection s1 s2) <= List.length s1.
Proof.
  unfold setIntersection.
  pose proof (length_mkSet_le (filter (includes s2) s1)).
  pose proof (filter_length_le (includes s2) s1). lia.
Qed.

Lemma intersection_le_r s1 s2 :
  NoDup s2 -> List.length (setIntersection s1 s2) <= List.length s2.
Proof.
  intros H. rewrite intersection_size_sym. apply intersection_le_l.
Qed.

(** *** Ratios of counts *)

Lemma ratio_nonneg a b : (0 <= ratio a b)%Q.
Proof.
  unfold ratio, Qdiv. apply Qmult_le_0_compat.
  - unfold Qle. simpl. lia.
  - apply Qinv_le_0_compat. unfold Qle. simpl. lia.
Qed.

Lemma ratio_le_1 a b : a <= b -> (ratio a b <= 1)%Q.
Proof.
  intros H. unfold ratio. destruct b as [|b].
  - unfold Qdiv. simpl. rewrite Qmult_0_r. discriminate.
  - apply Qle_shift_div_r.
    + unfold Qlt. simpl. lia.
    + rewrite Qmult_1_l. unfold Qle. simpl. lia.
Qed.

Lemma Math_min_sym a b : (Math_min a b == Math_min b a)%Q.
Proof.
  unfold Math_min.
  destruct (Qle_bool a b) eqn:E1, (Qle_bool b a) eqn:E2; try reflexivity.
  - apply Qle_bool_iff in E1, E2. apply Qle_antisym; assumption.
  - exfalso.
    assert (b < a)%Q by (apply gt_lt; unfold gt; rewrite E1; reflexivity).
    assert (a < b)%Q by (apply gt_lt; unfold gt; rewrite E2; reflexivity).
    exact (Qlt_irrefl a (Qlt_trans _ _ _ H0 H)).
Qed.

Lemma Math_min_bounds a b :
  (0 <= a)%Q -> (0 <= b)%Q -> (a <= 1)%Q ->
  (0 <= Math_min a b)%Q /\ (Math_min a b <= 1)%Q.
Proof.
  intros Ha Hb Ha1. unfold Math_min. destruct (Qle_bool a b) eqn:E.
  - split; assumption.
  - split; [assumption|].
    assert (b < a)%Q by (apply gt_lt; unfold gt; rewrite E; reflexivity).
    apply Qlt_le_weak. eapply Qlt_le_trans; eassumption.
Qed.

(** *** The Jaccard index of two word lists *)

Lemma jaccard_sym w1 w2 :
  ratio (List.length (setIntersection (mkSet w1) (mkSet w2)))
        (List.length (setUnion (mkSet w1) (mkSet w2)))
  = ratio (List.length (setIntersection (mkSet w2) (mkSet w1)))
          (List.length (setUnion (mkSet w2) (mkSet w1))).
Proof.
  rewrite intersection_size_sym, union_size_sym. reflexivity.
Qed.

Lemma jaccard_bounds w1 w2 :
  (0 <= ratio (List.length (setIntersection (mkSet w1) (mkSet w2)))
              (List.length (setUnion (mkSet w1) (mkSet w2))) <= 1)%Q.
Proof.
  split; [apply ratio_nonneg|apply ratio_le_1, intersection_le_union].
Qed.

(** X1.  [calculateSimpleSimilarity] does not depend on the order of its
    two arguments. *)
Theorem calculateSimpleSimilarity_sym text1 text2 :
  OpenSearch.calculateSimpleSimilarity text1 text2
  = OpenSearch.calculateSimpleSimilarity text2 text1.
Proof.
  unfold OpenSearch.calculateSimpleSimilarity.
  destruct text1 as [|a r1], text2 as [|b r2]; try reflexivity.
  cbv zeta.
  set (n1 := collapseSpaces _). set (n2 := collapseSpaces _).
  destruct (seqb n1 n2) eqn:E.
  - apply seqb_eq in E. rewrite E, seqb_refl. reflexivity.
  - assert (E' : seqb n2 n1 = false)
      by (apply seqb_neq; apply seqb_neq in E; congruence).
    rewrite E'.
    destruct (filter OpenSearch.longer_than_2 (splitOn 32%N n1)) as [|x1 l1];
      destruct (filter OpenSearch.longer_than_2 (splitOn 32%N n2)) as [|x2 l2];
      try reflexivity.
    apply jaccard_sym.
Qed.

Lemma simple_bounds text1 text2 :
  (0 <= OpenSearch.calculateSimpleSimilarity text1 text2 <= 1)%Q.
Proof.
  unfold OpenSearch.calculateSimpleSimilarity.
  destruct text1 as [|a r1], text2 as [|b r2]; try (split; discriminate).
  cbv zeta.
  destruct (seqb _ _); [split; discriminate|].
  destruct (filter OpenSearch.longer_than_2 _) as [|x1 l1];
    [split; discriminate|].
  destruct (filter OpenSearch.longer_than_2 _) as [|x2 l2];
    [split; discriminate|].
  apply jaccard_bounds.
Qed.

(** X2.  [calculateSimpleSimilarity] answers a number between 0 and 1, and
    exactly 1 for two equal texts that are not empty. *)
Theorem calculateSimpleSimilarity_range text1 text2 :
  (0 <= OpenSearch.calculateSimpleSimilarity text1 text2 <= 1)%Q /\
  (text1 <> [] -> OpenSearch.calculateSimpleSimilarity text1 text1 = 1%Q).
Proof.
  split.
  - apply simple_bounds.
  - intros H. unfold OpenSearch.calculateSimpleSimilarity.
    destruct text1 as [|a r1]; [congruence|].
    cbv zeta. rewrite seqb_refl. reflexivity.
Qed.

Lemma calculateSimpleSimilarity_range_witness :
  js "Web" <> [] /\ OpenSearch.calculateSimpleSimilarity (js "Web") (js "Web") = 1%Q.
Proof.
  assert (H : js "Web" <> []) by (vm_compute; discriminate).
  split; [exact H|].
  exact (proj2 (calculateSimpleSimilarity_range (js "Web") (js "Web")) H).
Defined.

(** X3.  [calculateDetailedSimilarity] does not depend on the order of its
    two arguments. *)
Theorem calculateDetailedSimilarity_sym text1 text2 :
  (OpenSearch.calculateDetailedSimilarity text1 text2
   == OpenSearch.calculateDetailedSimilarity text2 text1)%Q.
Proof.
  unfold OpenSearch.calculateDetailedSimilarity.
  destruct text1 as [|a r1], text2 as [|b r2]; try reflexivity.
  cbv zeta.
  destruct (filter _ (filter OpenSearch.longer_than_2 _)) as [|x1 l1];
    destruct (filter _ (filter OpenSearch.longer_than_2 _)) as [|x2 l2];
    try reflexivity.
  rewrite jaccard_sym.
  rewrite (intersection_size_sym (mkSet (x1 :: l1)) (mkSet (x2 :: l2))).
  rewrite (Math_min_sym (ratio _ (List.length (mkSet (x1 :: l1))))).
  reflexivity.
Qed.

Lemma detailed_bounds text1 text2 :
  (0 <= OpenSearch.calculateDetailedSimilarity text1 text2 <= 1)%Q.
Proof.
  unfold OpenSearch.calculateDetailedSimilarity.
  destruct text1 as [|a r1], text2 as [|b r2]; try (split; discriminate).
  cbv zeta.
  destruct (filter _ (filter OpenSearch.longer_than_2 _)) as [|x1 l1];
    [split; discriminate|].
  destruct (filter _ (filter OpenSearch.longer_than_2 _)) as [|x2 l2];
    [split; discriminate|].
  set (w1 := x1 :: l1). set (w2 := x2 :: l2).
  pose proof (jaccard_bounds w1 w2) as [Hj0 Hj1].
  set (j := ratio _ (List.length (setUnion _ _))) in *.
  set (c1 := ratio _ (List.length (mkSet w1))).
  set (c2 := ratio _ (List.length (mkSet w2))).
  assert (Hc1 : (0 <= c1)%Q /\ (c1 <= 1)%Q)
    by (split; [apply ratio_nonneg|apply ratio_le_1, intersection_le_l]).
  assert (Hc2 : (0 <= c2)%Q) by apply ratio_nonneg.
  destruct (Math_min_bounds (proj1 Hc1) Hc2 (proj2 Hc1)) as [Hm0 Hm1].
  set (m := Math_min c1 c2) in *.
  split.
  - apply Qle_shift_div_l; [reflexivity|].
    rewrite Qmult_0_l. rewrite <- (Qplus_0_r 0). apply Qplus_le_compat; assumption.
  - apply Qle_shift_div_r; [reflexivity|].
    change (1 * 2)%Q with (1 + 1)%Q. apply Qplus_le_compat; assumption.
Qed.

(** X4.  [calculateDetailedSimilarity] answers a number between 0 and 1. *)
Theorem calculateDetailedSimilarity_range text1 text2 :
  (0 <= OpenSearch.calculateDetailedSimilarity text1 text2 <= 1)%Q.
Proof. apply detailed_bounds. Qed.

Lemma title_bounds title1 title2 :
  (0 <= Dedup.calculateTitleSimilarity title1 title2 <= 1)%Q.
Proof.
  unfold Dedup.calculateTitleSimilarity. cbv zeta.
  destruct (filter _ (splitOn 32%N _)) as [|x1 l1]; [split; discriminate|].
  destruct (filter _ (splitOn 32%N _)) as [|x2 l2]; [split; discriminate|].
  apply jaccard_bounds.
Qed.

(** X5.  The title similarity of the sweep is symmetric and lies between 0
    and 1. *)
Theorem calculateTitleSimilarity_sym_range title1 title2 :
  Dedup.calculateTitleSimilarity title1 title2
  = Dedup.calculateTitleSimilarity title2 title1 /\
  (0 <= Dedup.calculateTitleSimilarity title1 title2 <= 1)%Q.
Proof.
  unfold Dedup.calculateTitleSimilarity. cbv zeta.
  destruct (filter _ (splitOn 32%N _)) as [|x1 l1];
    destruct (filter _ (splitOn 32%N _)) as [|x2 l2];
    try (split; [reflexivity|split; discriminate]).
  split; [apply jaccard_sym|apply jaccard_bounds].
Qed.

End ScorerFacts.

(* ------------------------------------------------------------------ *)
(** ** Texts without ASCII word characters *)

Module BlindFacts.

Import MoreStatements.

Lemma In_trimStart c : forall s, In c (trimStart s) -> In c s.
Proof.
  induction s as [|d s IH]; simpl; [tauto|].
  destruct (isSpace d); simpl; tauto.
Qed.

Lemma In_trim c s : In c (trim s) -> In c s.
Proof.
  unfold trim, trimEnd. intros H.
  apply in_rev in H. apply In_trimStart in H. apply in_rev in H.
  apply In_trimStart in H. exact H.
Qed.

Lemma collapseSpaces_all_space : forall l,
  forallb isSpace l = true ->
  collapseSpaces l = match l with [] => [] | _ => [32%N] end.
Proof.
  induction l as [|c l IH]; [reflexivity|].
  cbn [forallb]. rewrite andb_true_iff. intros [Hc Hl].
  cbn [collapseSpaces]. rewrite Hc.
  destruct l as [|d l']; [reflexivity|].
  cbn [forallb] in Hl. apply andb_true_iff in Hl. destruct Hl as [Hd Hl'].
  rewrite Hd. rewrite IH; [reflexivity|].
  cbn [forallb]. rewrite Hd, Hl'. reflexivity.
Qed.

(** The normal form of a text without word characters: one space when the
    trimmed text contains white space, nothing otherwise. *)
Lemma simple_normal_form text :
  forallb noWordUnit (toLowerCase text) = true ->
  let L := trim (toLowerCase text) in
  collapseSpaces (removeAll (fun c => negb (isWord c || isSpace c)) L)
  = if existsb isSpace L then [32%N] else [].
Proof.
  intros H L.
  assert (HL : forall c, In c L -> isWord c = false).
  { intros c Hc. apply In_trim in Hc. rewrite forallb_forall in H.
    specialize (H c Hc). unfold noWordUnit in H.
    apply negb_true_iff in H. exact H. }
  assert (E : removeAll (fun c => negb (isWord c || isSpace c)) L = filter isSpace L).
  { unfold removeAll. apply filter_ext_in. intros c Hc.
    rewrite (HL c Hc). cbn [orb]. apply negb_involutive. }
  rewrite E. rewrite collapseSpaces_all_space.
  - destruct (filter isSpace L) as [|c l] eqn:Ef.
    + destruct (existsb isSpace L) eqn:Ee; [|reflexivity].
      apply existsb_exists in Ee. destruct Ee as (x & Hx & Hs).
      assert (In x (filter isSpace L)) by (apply filter_In; auto).
      rewrite Ef in H0. destruct H0.
    + assert (Hc : In c (filter isSpace L)) by (rewrite Ef; left; reflexivity).
      apply filter_In in Hc.
      replace (existsb isSpace L) with true; [reflexivity|].
      symmetry. apply existsb_exists. exists c. exact Hc.
  - apply forallb_forall. intros x Hx. apply filter_In in Hx. tauto.
Qed.

Lemma simple_blind text1 text2 :
  text1 <> [] -> text2 <> [] ->
  forallb noWordUnit (toLowerCase text1) = true ->
  forallb noWordUnit (toLowerCase text2) = true ->
  existsb isSpace (trim (toLowerCase text1))
  = existsb isSpace (trim (toLowerCase text2)) ->
  OpenSearch.calculateSimpleSimilarity text1 text2 = 1%Q.
Proof.
  intros H1 H2 Hw1 Hw2 Hs.
  unfold OpenSearch.calculateSimpleSimilarity.
  destruct text1 as [|a r1]; [congruence|].
  destruct text2 as [|b r2]; [congruence|].
  cbv zeta.
  rewrite (simple_normal_form _ Hw1), (simple_normal_form _ Hw2), Hs.
  rewrite seqb_refl. reflexivity.
Qed.

(** X6.  The simple similarity does not see characters outside
    [A-Za-z0-9_]: two non-empty texts whose lowercase has no such character
    have similarity 1.0 as soon as both contain white space between their
    words, or neither does. *)
Theorem calculateSimpleSimilarity_blind text1 text2 :
  text1 <> [] -> text2 <> [] ->
  forallb noWordUnit (toLowerCase text1) = true ->
  forallb noWordUnit (toLowerCase text2) = true ->
  existsb isSpace (trim (toLowerCase text1))
  = existsb isSpace (trim (toLowerCase text2)) ->
  OpenSearch.calculateSimpleSimilarity text1 text2 = 1%Q.
Proof. apply simple_blind. Qed.

(** Two unrelated Russian titles. *)
Lemma calculateSimpleSimilarity_blind_witness :
  OpenSearch.calculateSimpleSimilarity (js "Курс рубля вырос")
                                       (js "Учёные открыли новую планету") = 1%Q.
Proof.
  apply calculateSimpleSimilarity_blind.
  - vm_compute. discriminate.
  - vm_compute. discriminate.
  - vm_compute. reflexivity.
  - vm_compute. reflexivity.
  - vm_compute. reflexivity.
Defined.

End BlindFacts.

(* ------------------------------------------------------------------ *)
(** ** More on the edit distance *)

Module EditMoreFacts.
Import RSS LevFacts ScorerFacts.

Lemma lev_prefix_lower a b : forall i j,
  i <= levenshtein_prefix a b i j + j /\ j <= levenshtein_prefix a b i j + i.
Proof.
  induction i as [|i IHi]; intros j.
  - rewrite lev_0_l. lia.
  - induction j as [|j IHj].
    + rewrite lev_0_r. lia.
    + rewrite lev_S_S.
      pose proof (IHi (S j)). pose proof (IHi j).
      destruct (nth i a 0 =? nth j b 0)%N; lia.
Qed.

Lemma firstn_S_nth (l : jsstring) i :
  i < List.length l -> firstn (S i) l = firstn i l ++ [nth i l 0%N].
Proof.
  revert i. induction l as [|x l IH]; intros i H; simpl in H; [lia|].
  destruct i as [|i]; [reflexivity|].
  cbn [firstn nth app]. rewrite <- IH by lia. reflexivity.
Qed.

Lemma lev_prefix_zero a b : forall i j,
  i <= List.length a -> j <= List.length b ->
  levenshtein_prefix a b i j = 0 -> i = j /\ firstn i a = firstn j b.
Proof.
  induction i as [|i IHi]; intros j Hi Hj H.
  - rewrite lev_0_l in H. subst. auto.
  - destruct j as [|j]; [rewrite lev_0_r in H; discriminate|].
    rewrite lev_S_S in H.
    destruct (nth i a 0 =? nth j b 0)%N eqn:E; [|lia].
    apply N.eqb_eq in E.
    assert (H0 : levenshtein_prefix a b i j = 0) by lia.
    destruct (IHi j ltac:(lia) ltac:(lia) H0) as [-> Hf].
    split; [reflexivity|].
    rewrite !firstn_S_nth by lia. congruence.
Qed.

Lemma distance_facts s1 s2 :
  List.length s1 - List.length s2 <= distance s1 s2 /\
  List.length s2 - List.length s1 <= distance s1 s2 /\
  distance s1 s2 <= Nat.max (List.length s1) (List.length s2) /\
  (distance s1 s2 = 0 <-> s1 = s2).
Proof.
  rewrite distance_levenshtein.
  pose proof (lev_prefix_lower s1 s2 (List.length s1) (List.length s2)) as [H1 H2].
  fold (levenshtein s1 s2) in H1, H2.
  split; [lia|]. split; [lia|]. split; [apply levenshtein_le_max|].
  split.
  - intros H.
    destruct (@lev_prefix_zero s1 s2 (List.length s1) (List.length s2)
                (le_n _) (le_n _) H) as [_ Hf].
    rewrite !firstn_all in Hf. exact Hf.
  - intros ->. apply levenshtein_refl.
Qed.

(** X7.  The distance the matrix yields lies between the difference of the
    two lengths and the greater length, and is 0 only for equal strings. *)
Theorem distance_bounds s1 s2 :
  List.length s1 - List.length s2 <= distance s1 s2 /\
  List.length s2 - List.length s1 <= distance s1 s2 /\
  distance s1 s2 <= Nat.max (List.length s1) (List.length s2) /\
  (distance s1 s2 = 0 <-> s1 = s2).
Proof. apply distance_facts. Qed.

Lemma ratio_eq_1 a b : (ratio a b == 1)%Q -> a = b.
Proof.
  unfold ratio. destruct b as [|b].
  - unfold Qdiv. simpl. rewrite Qmult_0_r. discriminate.
  - intros H. apply (Qmult_inj_r _ _ (inject_Z (Z.of_nat (S b)))) in H.
    + unfold Qdiv in H.
      rewrite <- Qmult_assoc, (Qmult_comm (/ _)), Qmult_inv_r, Qmult_1_r, Qmult_1_l in H
        by (unfold Qeq; simpl; lia).
      unfold Qeq in H. simpl in H. lia.
    + unfold Qeq. simpl. lia.
Qed.

Section Similarity.
Variables str1 str2 : jsstring.
Hypothesis H1 : str1 <> [].
Hypothesis H2 : str2 <> [].

Local Abbreviation s1 := (trim (toLowerCase str1)).
Local Abbreviation s2 := (trim (toLowerCase str2)).

(** The body of the function past its first guard. *)
Lemma editSim_body :
  calculateStringSimilarity (Some str1) (Some str2)
  = if seqb s1 s2 then 1%Q
    else if (List.length s1 =? 0) || (List.length s2 =? 0) then 0%Q
    else ratio (Nat.max (List.length s1) (List.length s2) - levenshtein s1 s2)
               (Nat.max (List.length s1) (List.length s2)).
Proof.
  unfold calculateStringSimilarity. cbn [or_empty].
  destruct str1 as [|c1 r1] eqn:E1; [congruence|].
  destruct str2 as [|c2 r2] eqn:E2; [congruence|].
  rewrite <- E1, <- E2.
  destruct (seqb _ _) eqn:E; [reflexivity|].
  destruct (List.length s1 =? 0) eqn:En.
  - apply Nat.eqb_eq in En.
    destruct (List.length s2 =? 0) eqn:Em; [|reflexivity].
    apply Nat.eqb_eq in Em. apply seqb_neq in E. exfalso. apply E.
    destruct (trim _); [|discriminate]. destruct (trim _); [reflexivity|discriminate].
  - destruct (List.length s2 =? 0) eqn:Em; [reflexivity|]. cbn [orb].
    rewrite distance_levenshtein.
    destruct (Nat.max _ _ =? 0) eqn:Ex; [|reflexivity].
    apply Nat.eqb_eq in Ex. apply Nat.eqb_neq in En. lia.
Qed.

Lemma editSim_one_iff :
  (calculateStringSimilarity (Some str1) (Some str2) == 1)%Q <-> s1 = s2.
Proof.
  rewrite editSim_body.
  destruct (seqb s1 s2) eqn:E.
  - apply seqb_eq in E. split; [intros _; exact E|reflexivity].
  - apply seqb_neq in E. split; [|congruence].
    destruct (_ || _); [discriminate|].
    intros H. apply ratio_eq_1 in H.
    pose proof (distance_facts s1 s2) as (_ & _ & Hle & Hz).
    rewrite distance_levenshtein in Hle, Hz.
    apply Hz.
    assert (0 < Nat.max (List.length s1) (List.length s2) \/
            Nat.max (List.length s1) (List.length s2) = 0) as [Hp|Hp] by lia; [lia|].
    exfalso. apply E.
    destruct (trim (toLowerCase str1)); [|cbn [List.length] in Hp; lia].
    destruct (trim (toLowerCase str2)); [reflexivity|cbn [List.length] in Hp; lia].
Qed.
End Similarity.

(** X8.  The edit-distance similarity does not depend on the order of its
    two arguments. *)
Theorem calculateStringSimilarity_sym (o1 o2 : option jsstring) :
  calculateStringSimilarity o1 o2 = calculateStringSimilarity o2 o1.
Proof.
  destruct o1 as [[|c1 r1]|], o2 as [[|c2 r2]|]; try reflexivity.
  rewrite !editSim_body by discriminate.
  set (s1 := trim (toLowerCase (c1 :: r1))).
  set (s2 := trim (toLowerCase (c2 :: r2))).
  destruct (seqb s1 s2) eqn:E.
  - apply seqb_eq in E. rewrite E, seqb_refl. reflexivity.
  - replace (seqb s2 s1) with false
      by (symmetry; apply seqb_neq; apply seqb_neq in E; congruence).
    rewrite (orb_comm (List.length s2 =? 0)).
    rewrite (Nat.max_comm (List.length s2)), (levenshtein_sym s2 s1).
    reflexivity.
Qed.

Lemma editSim_bounds (o1 o2 : option jsstring) :
  (0 <= calculateStringSimilarity o1 o2 <= 1)%Q.
Proof.
  destruct o1 as [[|c1 r1]|], o2 as [[|c2 r2]|]; try (split; discriminate).
  rewrite editSim_body by discriminate.
  destruct (seqb _ _); [split; discriminate|].
  destruct (_ || _); [split; discriminate|].
  split; [apply ratio_nonneg|apply ratio_le_1; lia].
Qed.

(** X9.  The edit-distance similarity lies between 0 and 1; for two
    arguments that are not empty it is 1 exactly when they are equal after
    lowercasing and trimming. *)
Theorem calculateStringSimilarity_range (o1 o2 : option jsstring) :
  (0 <= calculateStringSimilarity o1 o2 <= 1)%Q /\
  (forall str1 str2,
     str1 <> [] -> str2 <> [] ->
     ((calculateStringSimilarity (Some str1) (Some str2) == 1)%Q
      <-> trim (toLowerCase str1) = trim (toLowerCase str2))).
Proof.
  split.
  - apply editSim_bounds.
  - intros str1 str2 H1 H2. apply editSim_one_iff; assumption.
Qed.

Lemma calculateStringSimilarity_range_witness :
  (calculateStringSimilarity (Some (js " Tech News ")) (Some (js "tech news")) == 1)%Q.
Proof.
  assert (H1 : js " Tech News " <> []) by (vm_compute; discriminate).
  assert (H2 : js "tech news" <> []) by (vm_compute; discriminate).
  apply (proj2 (calculateStringSimilarity_range None None) _ _ H1 H2).
  vm_compute. reflexivity.
Defined.

End EditMoreFacts.

(* ------------------------------------------------------------------ *)
(** ** What [checkForDuplicate] answers *)

Module SourceMoreFacts.
Import RSS RSSDedup MoreStatements Statements.

(** The confidence of one stored source: what each signal adds. *)
Lemma score_bounds (B : Beyond) normalizedUrl newMetadata source :
  let bs := signals B normalizedUrl newMetadata source in
  let conf := fst (score B normalizedUrl newMetadata source) in
  (0 <= conf)%Q /\ (conf <= 6 # 5)%Q /\
  (fired bs <= 2 -> (conf <= 7 # 10)%Q).
Proof.
  unfold signals, score, fired.
  pose proof (EditMoreFacts.editSim_bounds (meta_title newMetadata)
                (meta_title (metadata source))) as Ht.
  pose proof (EditMoreFacts.editSim_bounds (meta_description newMetadata)
                (meta_description (metadata source))) as Hd.
  pose proof (EditMoreFacts.editSim_bounds
                (Some (normalizeUrl B (or_empty (or_else (meta_link newMetadata) (Some [])))))
                (Some (normalizeUrl B (or_empty (or_else (meta_link (metadata source))
                                                       (Some [])))))) as Hl.
  pose proof (EditMoreFacts.editSim_bounds (Some normalizedUrl)
                (Some (normalizeUrl B (link source)))) as Hu.
  set (t := calculateStringSimilarity (meta_title newMetadata) _) in *.
  set (d := calculateStringSimilarity (meta_description newMetadata) _) in *.
  set (l := calculateStringSimilarity (Some (normalizeUrl B (or_empty _))) _) in *.
  set (u := calculateStringSimilarity (Some normalizedUrl) _) in *.
  clearbody t d l u.
  destruct (gt t 0.85); destruct (gt d 0.8); destruct (gt l 0.9);
    destruct (gt u 0.8);
    lazy beta iota zeta delta [fst filter List.length];
    (split; [lra|split; [lra|intros Hf; try lia; lra]]).
Qed.

(** The state of the loop over the sources of the domain. *)
Lemma best_fold (B : Beyond) normalizedUrl newMetadata : forall l h b r,
  (0 <= h)%Q ->
  match b with
  | Some s => h = fst (score B normalizedUrl newMetadata s)
  | None => (h <= 0)%Q
  end ->
  let '(h', b', r') :=
    fold_left (best_step B normalizedUrl newMetadata) l (h, b, r) in
  (0 <= h')%Q /\
  match b' with
  | Some s => h' = fst (score B normalizedUrl newMetadata s) /\ (b = Some s \/ In s l)
  | None => (h' <= 0)%Q
  end.
Proof.
  induction l as [|x l IH]; intros h b r Hh Hb.
  - cbn [fold_left]. split; [exact Hh|].
    destruct b as [s|]; [split; [exact Hb|left; reflexivity]|exact Hb].
  - cbn [fold_left]. unfold best_step at 2.
    destruct (score B normalizedUrl newMetadata x) as [conf reasons] eqn:Es.
    destruct (gt conf h) eqn:Eg.
    + apply gt_lt in Eg.
      specialize (IH conf (Some x) (join (js ", ") reasons)
                    (Qle_trans _ _ _ Hh (Qlt_le_weak _ _ Eg))).
      cbv beta iota in IH. rewrite Es in IH. specialize (IH eq_refl).
      destruct (fold_left _ l _) as [[h' b'] r'].
      destruct IH as [H0 Hb']. split; [exact H0|].
      destruct b' as [s|]; [|exact Hb'].
      destruct Hb' as [E [Hx|Hin]]; split; auto.
      * injection Hx as <-. right. left. reflexivity.
      * right. right. exact Hin.
    + specialize (IH h b r Hh Hb).
      destruct (fold_left _ l _) as [[h' b'] r'].
      destruct IH as [H0 Hb']. split; [exact H0|].
      destruct b' as [s|]; [|exact Hb'].
      destruct Hb' as [E [Hx|Hin]]; split; auto.
      right. right. exact Hin.
Qed.

Lemma checkForDuplicate_shape (B : Beyond) db newUrl newMetadata :
  let r := checkForDuplicate B db newUrl newMetadata in
  (exists s,
     find (fun s => seqb (link s) newUrl || seqb (link s) (normalizeUrl B newUrl)) db
     = Some s /\
     In s db /\ r = mkCheck true (Some s) (Some (js "Exact URL match")) 1) \/
  (find (fun s => seqb (link s) newUrl || seqb (link s) (normalizeUrl B newUrl)) db
   = None /\
   isDuplicate r = gt (confidence r) 0.75 /\
   (0 <= confidence r)%Q /\
   match existingSource r with
   | Some s => In s db /\ confidence r = fst (score B (normalizeUrl B newUrl) newMetadata s)
   | None => (confidence r <= 0)%Q
   end).
Proof.
  unfold checkForDuplicate.
  destruct (find _ db) as [s|] eqn:Ef.
  - left. exists s. split; [reflexivity|]. split; [|reflexivity].
    apply find_some in Ef. tauto.
  - right. split; [reflexivity|].
    destruct (filter _ db) as [|y l] eqn:El.
    + cbn. repeat split; discriminate.
    + pose proof (@best_fold B (normalizeUrl B newUrl) newMetadata (y :: l) 0%Q None []
                    ltac:(discriminate) ltac:(discriminate)) as H.
      destruct (fold_left _ (y :: l) _) as [[h b] rs].
      destruct H as [H0 Hb].
      cbn [isDuplicate confidence existingSource].
      split; [reflexivity|]. split; [exact H0|].
      destruct b as [s|]; [|exact Hb].
      destruct Hb as [E [Hx|Hin]]; [discriminate|].
      split; [|exact E].
      rewrite <- El in Hin. apply filter_In in Hin. tauto.
Qed.

(** X10.  Whatever the sources and the metadata: the confidence lies
    between 0 and 1.2; the answer is a duplicate exactly when the confidence
    exceeds 0.75; and a duplicate always names a stored source. *)
Theorem checkForDuplicate_answer (B : Beyond) db newUrl newMetadata :
  let r := checkForDuplicate B db newUrl newMetadata in
  (0 <= confidence r <= 6 # 5)%Q /\
  (isDuplicate r = true <-> (0.75 < confidence r)%Q) /\
  (isDuplicate r = true -> exists s, existingSource r = Some s /\ In s db) /\
  (forall s, existingSource r = Some s -> In s db).
Proof.
  intros r. subst r.
  destruct (checkForDuplicate_shape B db newUrl newMetadata)
    as [(s & _ & Hs & ->)|(_ & Hd & H0 & Hb)].
  - cbn [confidence isDuplicate existingSource].
    split; [split; discriminate|].
    split; [split; reflexivity|].
    split; [intros _; exists s; auto|].
    intros s' E. injection E as <-. exact Hs.
  - set (r := checkForDuplicate B db newUrl newMetadata) in *.
    assert (Hup : (confidence r <= 6 # 5)%Q).
    { destruct (existingSource r) as [s|].
      - destruct Hb as [_ ->]. apply score_bounds.
      - lra. }
    split; [split; assumption|].
    split; [rewrite Hd; apply gt_lt|].
    split.
    + intros Hdup. rewrite Hd in Hdup. apply gt_lt in Hdup.
      destruct (existingSource r) as [s|]; [exists s; tauto|lra].
    + intros s E. rewrite E in Hb. tauto.
Qed.

(** X11.  Without an exact URL match, a source is only declared a
    duplicate of a stored source for which at least three of the four
    signals (title, description, site link, URL) pass their gates: two
    signals give at most 0.7. *)
Theorem fuzzy_duplicate_needs_three_signals (B : Beyond) db newUrl newMetadata :
  let r := checkForDuplicate B db newUrl newMetadata in
  find (fun s => seqb (link s) newUrl || seqb (link s) (normalizeUrl B newUrl)) db
  = None ->
  isDuplicate r = true ->
  exists s, existingSource r = Some s /\ In s db /\
            3 <= fired (signals B (normalizeUrl B newUrl) newMetadata s).
Proof.
  intros r Hfind Hdup. subst r.
  destruct (checkForDuplicate_shape B db newUrl newMetadata)
    as [(s & Ef & _)|(_ & Hd & H0 & Hb)].
  - rewrite Hfind in Ef. discriminate.
  - set (r := checkForDuplicate B db newUrl newMetadata) in *.
    rewrite Hd in Hdup. apply gt_lt in Hdup.
    destruct (existingSource r) as [s|]; [|lra].
    destruct Hb as [Hin E]. exists s. split; [reflexivity|]. split; [exact Hin|].
    pose proof (score_bounds B (normalizeUrl B newUrl) newMetadata s) as (_ & _ & H2).
    cbv zeta in H2. rewrite <- E in H2.
    destruct (le_lt_dec (fired (signals B (normalizeUrl B newUrl) newMetadata s)) 2)
      as [Hle|Hgt]; [|lia].
    specialize (H2 Hle). lra.
Qed.

(** The feed of the samples, registered again under its [https] address
    with the same metadata: title, description and site link agree and the
    URLs are close. *)
Lemma fuzzy_duplicate_needs_three_signals_witness :
  exists s,
    existingSource (checkForDuplicate Samples.beyond [MoreSamples.registered]
                      (js "https://www.example.com/rss/") MoreSamples.fullMeta)
    = Some s /\
    In s [MoreSamples.registered] /\
    3 <= fired (signals Samples.beyond (normalizeUrl Samples.beyond (js "https://www.example.com/rss/"))
                        MoreSamples.fullMeta s).
Proof.
  apply fuzzy_duplicate_needs_three_signals.
  - vm_compute. reflexivity.
  - vm_compute. reflexivity.
Defined.

(** *** The reverse lookup *)

Lemma stored_link_exact (B : Beyond) db S newMetadata :
  In S db ->
  confidence (checkForDuplicate B db (link S) newMetadata) = 1%Q /\
  reason (checkForDuplicate B db (link S) newMetadata) = Some (js "Exact URL match").
Proof.
  intros H.
  destruct (@SourceFacts.checkForDuplicate_stored_link B db S newMetadata H) as [f ->].
  split; reflexivity.
Qed.

Lemma flat_map_nil A B (f : A -> list B) l :
  (forall x, In x l -> f x = []) -> flat_map f l = [].
Proof.
  induction l as [|x l IH]; intros H; [reflexivity|].
  cbn [flat_map]. rewrite (H x (or_introl eq_refl)), IH; [reflexivity|].
  intros y Hy. apply H. right. exact Hy.
Qed.

(** X12.  Whatever the threshold, [findPotentialDuplicates] never reports
    the source it was asked about, reports only stored sources whose link
    matches its domain, each of them as an exact URL match with confidence
    1.0, and reports nothing at all for a threshold of 1 or more. *)
Theorem findPotentialDuplicates_entries (B : Beyond)
    (db : list Source) (sourceId : nat) (threshold : option Q) T dups :
  findPotentialDuplicates B db sourceId threshold = Ok (T, dups) ->
  (forall d, In d dups ->
     _id (dup_source d) <> sourceId /\
     In (dup_source d) db /\
     linkMatchesDomain (extractDomain B (link T)) (dup_source d) = true /\
     exactMatchEntry d) /\
  ((1 <= match threshold with Some t => t | None => 0.7 end)%Q -> dups = []).
Proof.
  unfold findPotentialDuplicates.
  destruct (find _ db) as [T'|]; [|discriminate].
  intros E. injection E as <- <-.
  set (th := match threshold with Some t => t | None => 0.7%Q end).
  split.
  - intros d Hd. apply SourceFacts.In_stable_sort in Hd.
    apply in_flat_map in Hd. destruct Hd as (S & HS & Hd).
    apply filter_In in HS. destruct HS as [HS Hc].
    apply andb_true_iff in Hc. destruct Hc as [Hid Hdom].
    apply negb_true_iff, Nat.eqb_neq in Hid.
    destruct (@stored_link_exact B db S (metadata S) HS) as [Ec Er].
    rewrite Ec, Er in Hd. cbn [or_else truthy or_empty] in Hd.
    destruct (gt 1 th); [|destruct Hd].
    destruct Hd as [<-|[]]. cbn [dup_source].
    repeat split; assumption.
  - intros Hth. rewrite flat_map_nil; [reflexivity|].
    intros S HS. apply filter_In in HS. destruct HS as [HS _].
    destruct (@stored_link_exact B db S (metadata S) HS) as [Ec _].
    rewrite Ec.
    replace (gt 1 th) with false; [reflexivity|].
    symmetry. apply gt_le. exact Hth.
Qed.

(** The two feeds of the samples: the lookup of the first reports only the
    second. *)
Lemma findPotentialDuplicates_entries_witness :
  exists dups,
    findPotentialDuplicates Samples.beyond Samples.twoFeeds 1 None = Ok (Samples.httpSource, dups) /\
    (forall d, In d dups -> _id (dup_source d) <> 1 /\ exactMatchEntry d).
Proof.
  eexists. split; [reflexivity|].
  intros d Hd.
  pose proof (proj1 (@findPotentialDuplicates_entries Samples.beyond Samples.twoFeeds 1 None
                       Samples.httpSource _ eq_refl) d Hd) as (H1 & _ & _ & H4).
  split; assumption.
Defined.

End SourceMoreFacts.
(* ------------------------------------------------------------------ *)
(** ** The statistics of the sources *)

Module StatsFacts.
Import RSS RSSDedup RSSStats.

Lemma insert_perm A (leb : A -> A -> bool) x l :
  Permutation (insert_sorted leb x l) (x :: l).
Proof.
  induction l as [|y l IH]; simpl; [reflexivity|].
  destruct (leb y x); [|reflexivity].
  rewrite IH. apply perm_swap.
Qed.

Lemma sort_perm A (leb : A -> A -> bool) l : Permutation (stable_sort leb l) l.
Proof.
  unfold stable_sort.
  assert (H : forall acc, Permutation
                (fold_left (fun a x => insert_sorted leb x a) l acc) (acc ++ l)).
  { induction l as [|x l IH]; intros acc; simpl.
    - rewrite app_nil_r. reflexivity.
    - rewrite IH, insert_perm. apply Permutation_middle. }
  apply (H []).
Qed.

(** The inner loop: every source of the group is stored, so every check is
    an exact match and every pair counts with confidence 1. *)
Lemma inner_loop (B : Beyond) db : forall later acc,
  (forall s, In s later -> In s db) ->
  let r := fold_left
             (fun acc sj =>
                let result := checkForDuplicate B db (link sj) (metadata sj) in
                if gt (confidence result) 0.5
                then ((fst acc + confidence result)%Q, S (snd acc))
                else acc)
             later acc in
  (fst r == fst acc + inject_Z (Z.of_nat (List.length later)))%Q /\
  snd r = snd acc + List.length later.
Proof.
  induction later as [|sj later IH]; intros acc Hin.
  - cbn. split; [ring|lia].
  - cbn [fold_left].
    destruct (@SourceMoreFacts.stored_link_exact B db sj (metadata sj)
                (Hin sj (or_introl eq_refl))) as [Ec _].
    rewrite Ec. replace (gt 1 0.5) with true by reflexivity.
    destruct (IH ((fst acc + 1)%Q, S (snd acc))
                 (fun s H => Hin s (or_intror H))) as [H1 H2].
    cbn [fst snd] in H1, H2. split.
    + rewrite H1. cbn [List.length]. rewrite Nat2Z.inj_succ.
      unfold Z.succ. rewrite inject_Z_plus. ring.
    + rewrite H2. cbn [List.length]. lia.
Qed.

Lemma pairLoop_counts (B : Beyond) db : forall sources acc,
  (forall s, In s sources -> In s db) ->
  (fst acc == inject_Z (Z.of_nat (snd acc)))%Q ->
  (fst (pairLoop B db sources acc) == inject_Z (Z.of_nat (snd (pairLoop B db sources acc))))%Q /\
  snd acc + (List.length sources - 1) <= snd (pairLoop B db sources acc).
Proof.
  induction sources as [|x later IH]; intros acc Hin Hacc.
  - cbn. split; [exact Hacc|lia].
  - cbn [pairLoop].
    destruct (@inner_loop B db later acc (fun s H => Hin s (or_intror H))) as [H1 H2].
    set (acc' := fold_left _ later acc) in *.
    destruct (IH acc' (fun s H => Hin s (or_intror H))) as [H3 H4].
    + rewrite H1, H2, Hacc, Nat2Z.inj_add, inject_Z_plus. reflexivity.
    + split; [exact H3|]. cbn [List.length]. lia.
Qed.

Lemma addToGroup_from (Pr : Source -> Prop) domain source : forall groups,
  Pr source ->
  (forall d ss s, In (d, ss) groups -> In s ss -> Pr s) ->
  forall d ss s, In (d, ss) (addToGroup domain source groups) -> In s ss -> Pr s.
Proof.
  induction groups as [|[d0 ss0] groups IH]; intros Hsrc Hg d ss s Hin Hs.
  - cbn in Hin. destruct Hin as [E|[]]. injection E as <- <-.
    destruct Hs as [<-|[]]. exact Hsrc.
  - cbn [addToGroup] in Hin. destruct (seqb d0 domain).
    + destruct Hin as [E|Hin].
      * injection E as <- <-. apply in_app_or in Hs.
        destruct Hs as [Hs|[<-|[]]]; [|exact Hsrc].
        apply (Hg d0 ss0 s); [left; reflexivity|exact Hs].
      * apply (Hg d ss s); [right; exact Hin|exact Hs].
    + destruct Hin as [E|Hin].
      * injection E as <- <-. apply (Hg d0 ss0 s); [left; reflexivity|exact Hs].
      * apply (IH Hsrc (fun d' ss' s' H => Hg d' ss' s' (or_intror H)) d ss s Hin Hs).
Qed.

Lemma groupByDomain_from (B : Beyond) allSources d ss s :
  In (d, ss) (groupByDomain B allSources) -> In s ss -> In s allSources.
Proof.
  unfold groupByDomain.
  assert (H : forall l groups,
            (forall d ss s, In (d, ss) groups -> In s ss -> In s allSources) ->
            (forall s, In s l -> In s allSources) ->
            forall d ss s,
              In (d, ss) (fold_left (fun groups source =>
                                       addToGroup (extractDomain B (link source))
                                                  source groups) l groups) ->
              In s ss -> In s allSources).
  { induction l as [|x l IH]; intros groups Hg Hl d' ss' s'; cbn [fold_left].
    - apply Hg.
    - apply IH.
      + apply addToGroup_from; [apply Hl; left; reflexivity|exact Hg].
      + intros y Hy. apply Hl. right. exact Hy. }
  apply (H allSources []); [intros ? ? ? []|auto].
Qed.

(** The loop over the groups. *)
Lemma groups_loop (B : Beyond) db : forall G out n,
  (forall d ss s, In (d, ss) G -> In s ss -> In s db) ->
  let r :=
    fold_left
      (fun acc g =>
         let '(domain, sources) := g in
         if (1 <? List.length sources)%nat then
           let '(totalConfidence, pairCount) := pairLoop B db sources (0%Q, 0) in
           if (0 <? pairCount)%nat
           then (fst acc ++ [mkGroup domain sources
                               (totalConfidence / inject_Z (Z.of_nat pairCount))%Q],
                 snd acc + List.length sources)
           else acc
         else acc)
      G (out, n) in
  (forall g, In g (fst r) ->
     In g out \/
     ((avgConfidence g == 1)%Q /\ 2 <= List.length (group_sources g) /\
      In (group_domain g, group_sources g) G)) /\
  (forall g, In g out -> In g (fst r)) /\
  (forall d ss, In (d, ss) G -> 2 <= List.length ss ->
     exists g, In g (fst r) /\ group_domain g = d /\ group_sources g = ss) /\
  snd r + list_sum (map (fun g => List.length (group_sources g)) out)
  = n + list_sum (map (fun g => List.length (group_sources g)) (fst r)).
Proof.
  induction G as [|[d0 ss0] G IH]; intros out n HG.
  - cbn. repeat split; auto. intros d ss [].
  - cbn [fold_left].
    assert (HG' : forall d ss s, In (d, ss) G -> In s ss -> In s db)
      by (intros d ss s H; apply (HG d ss s); right; exact H).
    destruct (1 <? List.length ss0)%nat eqn:E1.
    + apply Nat.ltb_lt in E1.
      destruct (@pairLoop_counts B db ss0 (0%Q, 0)
                  (fun s H => HG d0 ss0 s (or_introl eq_refl) H)
                  ltac:(reflexivity)) as [Hq Hn].
      destruct (pairLoop B db ss0 (0%Q, 0)) as [total count].
      cbn [fst snd] in Hq, Hn.
      replace (0 <? count)%nat with true by (symmetry; apply Nat.ltb_lt; lia).
      cbn [fst snd].
      set (g0 := mkGroup d0 ss0 (total / inject_Z (Z.of_nat count))%Q).
      destruct (IH (out ++ [g0]) (n + List.length ss0) HG') as (H1 & H2 & H3 & H4).
      split; [|split; [|split]].
      * intros g Hg. destruct (H1 g Hg) as [Hin|(Ha & Hb & Hc)].
        -- apply in_app_or in Hin. destruct Hin as [Hin|[<-|[]]]; [left; exact Hin|].
           right. cbn [avgConfidence group_sources group_domain g0].
           split; [|split; [lia|left; reflexivity]].
           rewrite Hq. apply Qmult_inv_r. unfold Qeq. simpl. lia.
        -- right. split; [exact Ha|]. split; [exact Hb|right; exact Hc].
      * intros g Hg. apply H2. apply in_or_app. left. exact Hg.
      * intros d ss [E|Hin] Hlen.
        -- injection E as <- <-. exists g0. split; [|split; reflexivity].
           apply H2. apply in_or_app. right. left. reflexivity.
        -- apply (H3 d ss Hin Hlen).
      * rewrite map_app, list_sum_app in H4.
        change (list_sum (map (fun g => List.length (group_sources g)) [g0]))
          with (List.length ss0 + 0) in H4.
        lia.
    + apply Nat.ltb_ge in E1.
      destruct (IH out n HG') as (H1 & H2 & H3 & H4).
      split; [|split; [|split]]; auto.
      * intros g Hg. destruct (H1 g Hg) as [Hin|(Ha & Hb & Hc)]; [left; exact Hin|].
        right. split; [exact Ha|]. split; [exact Hb|right; exact Hc].
      * intros d ss [E|Hin] Hlen.
        -- injection E as <- <-. lia.
        -- apply (H3 d ss Hin Hlen).
Qed.

(** X13.  The statistics do not depend on any similarity: a domain group of
    public sources is reported exactly when it has two sources or more, and
    always with average confidence 1; [potentialDuplicates] is the number of
    sources in the reported groups and [totalSources] the number of public
    sources. *)
Theorem getDuplicationStats_reports_every_group (B : Beyond)
    (isPublic : Source -> bool) (db : list Source) :
  let stats := getDuplicationStats B isPublic db in
  let groups := groupByDomain B (filter isPublic db) in
  totalSources stats = List.length (filter isPublic db) /\
  (forall g, In g (duplicateGroups stats) ->
     (avgConfidence g == 1)%Q /\ 2 <= List.length (group_sources g) /\
     In (group_domain g, group_sources g) groups) /\
  (forall d ss, In (d, ss) groups -> 2 <= List.length ss ->
     exists g, In g (duplicateGroups stats) /\
               group_domain g = d /\ group_sources g = ss) /\
  potentialDuplicates stats
  = list_sum (map (fun g => List.length (group_sources g)) (duplicateGroups stats)).
Proof.
  intros stats groups. subst stats. unfold getDuplicationStats. fold groups.
  assert (HG : forall d ss s, In (d, ss) groups -> In s ss -> In s db).
  { intros d ss s H Hs. apply (groupByDomain_from B _ _ _ _ H) in Hs.
    apply filter_In in Hs. tauto. }
  destruct (@groups_loop B db groups [] 0 HG) as (H1 & _ & H3 & H4).
  destruct (fold_left _ groups ([], 0)) as [out n].
  cbn [fst snd] in *. cbn [totalSources duplicateGroups potentialDuplicates].
  split; [reflexivity|]. split; [|split].
  - intros g Hg. apply SourceFacts.In_stable_sort in Hg.
    destruct (H1 g Hg) as [[]|H]. exact H.
  - intros d ss Hin Hlen. destruct (H3 d ss Hin Hlen) as (g & Hg & E1 & E2).
    exists g. split; [|split; assumption].
    apply SourceFacts.In_stable_sort. exact Hg.
  - change (list_sum (map (fun g => List.length (group_sources g)) [])) with 0 in H4.
    rewrite (Permutation_list_sum
               (Permutation_map (fun g => List.length (group_sources g))
                                (sort_perm byAverageDesc out))). lia.
Qed.

End StatsFacts.

(* ------------------------------------------------------------------ *)
(** ** The duplicate check: the shape of the answer and its effects *)

Module CheckMoreFacts.
Import OpenSearch MoreStatements Samples.

Lemma Math_max3_bounds a b c :
  (0 <= a <= 1)%Q -> (0 <= b <= 1)%Q -> (0 <= c <= 1)%Q ->
  (0 <= Math_max3 a b c <= 1)%Q.
Proof.
  intros Ha Hb Hc.
  destruct (CheckFacts.Math_max3_spec a b c) as [_ [-> | [-> | ->]]]; assumption.
Qed.

(** What the loop of the hash stage returns: one of the hits, with a score
    between 0 and 1. *)
Lemma hashLoop_shape t c th allHits : forall remaining i r,
  hashLoop t c th allHits remaining i = Ok (Some r) ->
  exists h s,
    In h allHits /\ (0 <= s <= 1)%Q /\
    r = mkResult true (Some (_source h)) (Some s) hash None.
Proof.
  induction remaining as [|n IH]; intros i r H; [discriminate|].
  cbn [hashLoop] in H.
  destruct (nth_error allHits i) as [h|] eqn:En; [|discriminate].
  destruct (qualifies _).
  - unfold hashSimilarities in H. injection H as <-.
    exists h. eexists. split; [eapply nth_error_In; exact En|].
    split; [|reflexivity].
    apply Math_max3_bounds;
      first [apply ScorerFacts.simple_bounds | apply ScorerFacts.detailed_bounds].
  - eapply IH. exact H.
Qed.

Lemma semanticDecision_shape t c response :
  let r := semanticDecision t c response in
  (r = notDuplicate (candidates r)) \/
  (exists h s,
     In h (hits response) /\ (1.5 < s)%Q /\
     r = mkResult true (Some (_source h)) (Some s) text_similarity (candidates r)).
Proof.
  unfold semanticDecision.
  destruct (hits response) as [|top rest]; [left; reflexivity|].
  destruct (gt _ 1.5) eqn:Eg; [|left; reflexivity].
  destruct (gt _ 0.5); [|left; reflexivity].
  right. exists top. eexists. split; [left; reflexivity|].
  split; [apply gt_lt; exact Eg|reflexivity].
Qed.

Section Check.
Variable P : Platform.
Variable news : NewsDocument.
Variable st : IndexState.

Local Abbreviation titleText := (or_empty (or_else (title news) (Some []))).
Local Abbreviation contentText := (or_empty (or_else (content news) (Some []))).
Local Abbreviation combinedText := (titleText ++ js " " ++ contentText).
Local Abbreviation similar := (MoreLikeThisQuery (title news) (content news)).

Lemma reads_only_refl : reads_only st 0 0 st.
Proof.
  split; [reflexivity|]. split; [lia|].
  exists []. rewrite app_nil_r. repeat split; auto.
Qed.

Lemma reads_only_hash d s text st' :
  reads_only st d s st' ->
  reads_only st (S d) s (snd (generateContentHash P text st')).
Proof.
  intros (Hi & Hd & log & Hc & Hl & Hf).
  unfold generateContentHash, draw.
  destruct (_ || _); [|destruct (_ <? 10)]; cbn [snd indexed randomDraws calls];
    (split; [exact Hi|]; split; [cbn [randomDraws]; lia|]; exists log; auto).

Qed.

Lemma reads_only_search d s request st' :
  reads_only st d s st' ->
  reads_only st d (S s) (snd (client_search P request st')).
Proof.
  intros (Hi & Hd & log & Hc & Hl & Hf).
  unfold client_search. cbn [snd indexed randomDraws calls].
  split; [exact Hi|]. split; [exact Hd|].
  exists (log ++ [CallSearch request]).
  rewrite Hc, app_assoc, length_app. cbn [List.length].
  split; [reflexivity|]. split; [lia|].
  apply Forall_app. split; [exact Hf|].
  constructor; [eexists; reflexivity|constructor].
Qed.

Lemma reads_only_weaken d s d' s' st' :
  d <= d' -> s <= s' -> reads_only st d s st' -> reads_only st d' s' st'.
Proof.
  intros Hd Hs (Hi & Hr & log & Hc & Hl & Hf).
  split; [exact Hi|]. split; [lia|]. exists log. repeat split; auto. lia.
Qed.

Lemma semanticStage_effects d s st' :
  reads_only st d s st' ->
  reads_only st d (S s) (snd (semanticStage P news titleText contentText st')).
Proof.
  intros H. unfold semanticStage.
  pose proof (reads_only_search similar H) as H'.
  destruct (client_search P similar st') as [[response|e] st1]; exact H'.
Qed.

Lemma checkForDuplicates_effects :
  reads_only st 2 2 (snd (checkForDuplicates P news st)).
Proof.
  unfold checkForDuplicates.
  destruct (20 <=? _).
  - unfold hashStage.
    pose proof (reads_only_hash combinedText reads_only_refl) as H1.
    destruct (generateContentHash P combinedText st) as [ch st1]. cbn [snd] in H1.
    pose proof (reads_only_hash titleText H1) as H2.
    destruct (generateContentHash P titleText st1) as [th st2]. cbn [snd] in H2.
    pose proof (reads_only_search (ExactHashQuery ch th) H2) as H3.
    destruct (client_search P (ExactHashQuery ch th) st2) as [[response|e] st3].
    + cbn [snd] in H3. destruct (0 <? _).
      * destruct (hashLoop _ _ _ _ _ _) as [[r|]|e]; cbn [snd].
        -- apply (reads_only_weaken (d:=2) (s:=1)); auto.
        -- apply semanticStage_effects. exact H3.
        -- apply (reads_only_weaken (d:=2) (s:=1)); auto.
      * apply semanticStage_effects. exact H3.
    + cbn [snd] in *. apply (reads_only_weaken (d:=2) (s:=1)); auto.
  - apply (reads_only_weaken (d:=0) (s:=1)); [lia|lia|].
    apply semanticStage_effects. apply reads_only_refl.
Qed.

(** The answers of the search client during the check are those for the
    index as it was. *)
Lemma semanticStage_shape st' :
  indexed st' = indexed st ->
  let r := fst (semanticStage P news titleText contentText st') in
  (r = notDuplicate (candidates r)) \/
  (exists request response h s,
     search P (indexed st) request = Ok response /\
     In h (hits response) /\ (1.5 < s)%Q /\
     r = mkResult true (Some (_source h)) (Some s) text_similarity (candidates r)).
Proof.
  intros Hi. unfold semanticStage, client_search. rewrite Hi.
  destruct (search P (indexed st) similar) as [response|e] eqn:Es; cbn [fst].
  - destruct (semanticDecision_shape titleText contentText response)
      as [H|(h & s & Hin & Hs & H)]; [left; exact H|].
    right. exists similar, response, h, s. auto.
  - left. reflexivity.
Qed.

Lemma checkForDuplicates_shape :
  let r := fst (checkForDuplicates P news st) in
  (r = notDuplicate (candidates r)) \/
  (exists request response h s,
     search P (indexed st) request = Ok response /\
     In h (hits response) /\
     r = mkResult true (Some (_source h)) (Some s) (method r) (candidates r) /\
     ((method r = hash /\ (0 <= s <= 1)%Q /\ candidates r = None) \/
      (method r = text_similarity /\ (1.5 < s)%Q))).
Proof.
  assert (Hsem : forall st', indexed st' = indexed st ->
            let r := fst (semanticStage P news titleText contentText st') in
            (r = notDuplicate (candidates r)) \/
            (exists request response h s,
               search P (indexed st) request = Ok response /\
               In h (hits response) /\
               r = mkResult true (Some (_source h)) (Some s) (method r) (candidates r) /\
               ((method r = hash /\ (0 <= s <= 1)%Q /\ candidates r = None) \/
                (method r = text_similarity /\ (1.5 < s)%Q)))).
  { intros st' Hi.
    destruct (semanticStage_shape st' Hi) as [H|(q & resp & h & s & H1 & H2 & H3 & H4)];
      [left; exact H|].
    right. exists q, resp, h, s. split; [exact H1|]. split; [exact H2|].
    cbv zeta. rewrite H4. cbn [method candidates]. split; [reflexivity|].
    right. auto. }
  unfold checkForDuplicates.
  destruct (20 <=? _); [|apply Hsem; reflexivity].
  unfold hashStage.
  pose proof (ProcessFacts.generateContentHash_indexed P combinedText st) as [H1 _].
  destruct (generateContentHash P combinedText st) as [ch st1]. cbn [snd] in H1.
  pose proof (ProcessFacts.generateContentHash_indexed P titleText st1) as [H2 _].
  destruct (generateContentHash P titleText st1) as [th st2]. cbn [snd] in H2.
  unfold client_search. rewrite H2, H1.
  destruct (search P (indexed st) (ExactHashQuery ch th)) as [response|e] eqn:Es;
    [|left; reflexivity].
  destruct (0 <? _); [|apply Hsem; reflexivity].
  destruct (hashLoop _ _ _ _ _ _) as [[r|]|e] eqn:El; cbn [fst].
  - destruct (hashLoop_shape _ _ _ _ _ _ El) as (h & s & Hin & Hs & ->).
    right. exists (ExactHashQuery ch th), response, h, s.
    split; [exact Es|]. split; [exact Hin|]. split; [reflexivity|].
    left. auto.
  - apply Hsem. reflexivity.
  - left. reflexivity.
Qed.

Lemma checkForDuplicates_no_hits :
  (forall request response,
     search P (indexed st) request = Ok response -> hits response = []) ->
  fst (checkForDuplicates P news st) = notDuplicate None.
Proof.
  intros Hnone.
  assert (Hsem : forall st', indexed st' = indexed st ->
            fst (semanticStage P news titleText contentText st') = notDuplicate None).
  { intros st' Hi. unfold semanticStage, client_search. rewrite Hi.
    destruct (search P (indexed st) similar) as [response|e] eqn:Es; cbn [fst];
      [|reflexivity].
    unfold semanticDecision. rewrite (Hnone _ _ Es). reflexivity. }
  unfold checkForDuplicates.
  destruct (20 <=? _); [|apply Hsem; reflexivity].
  unfold hashStage.
  pose proof (ProcessFacts.generateContentHash_indexed P combinedText st) as [H1 _].
  destruct (generateContentHash P combinedText st) as [ch st1]. cbn [snd] in H1.
  pose proof (ProcessFacts.generateContentHash_indexed P titleText st1) as [H2 _].
  destruct (generateContentHash P titleText st1) as [th st2]. cbn [snd] in H2.
  unfold client_search. rewrite H2, H1.
  destruct (search P (indexed st) (ExactHashQuery ch th)) as [response|e] eqn:Es;
    [|reflexivity].
  destruct (0 <? totalHits_of (total response)) eqn:Et;
    [|apply Hsem; cbn; congruence].
  rewrite (Hnone _ _ Es). apply Nat.ltb_lt in Et.
  destruct (Nat.min (totalHits_of (total response)) 3) eqn:Em; [lia|].
  reflexivity.
Qed.

End Check.

(** X14.  The answer of [checkForDuplicates] has one of three shapes: not a
    duplicate (method [none], no original, no score); a duplicate of the
    hash stage, with a score between 0 and 1 and no candidates; a duplicate
    of the semantic stage, with a score above 1.5.  The original of a
    duplicate is a hit the search client returned for the index as it
    was. *)
Theorem checkForDuplicates_answer_shapes
    (P : Platform) (news : NewsDocument) (st : IndexState) :
  let r := fst (checkForDuplicates P news st) in
  (isDuplicate r = false /\ original r = None /\
   dup_similarity_score r = None /\ method r = none) \/
  (isDuplicate r = true /\
   exists request response h s,
     search P (indexed st) request = Ok response /\
     In h (hits response) /\
     original r = Some (_source h) /\
     dup_similarity_score r = Some s /\
     ((method r = hash /\ (0 <= s <= 1)%Q /\ candidates r = None) \/
      (method r = text_similarity /\ (1.5 < s)%Q))).
Proof.
  intros r. subst r.
  destruct (checkForDuplicates_shape P news st)
    as [H|(q & resp & h & s & H1 & H2 & H3 & H4)].
  - left. rewrite H. repeat split.
  - right. split; [rewrite H3; reflexivity|].
    exists q, resp, h, s.
    split; [exact H1|]. split; [exact H2|].
    split; [rewrite H3; reflexivity|]. split; [rewrite H3; reflexivity|exact H4].
Qed.

(** X15.  [checkForDuplicates] only reads: the documents of the index are
    left as they were, the log gains one or two calls, all of them
    searches, and at most two random numbers are drawn; for a text of less
    than 20 characters (title, a space and content, trimmed) it sends the
    more-like-this query alone and draws nothing. *)
Theorem checkForDuplicates_only_reads
    (P : Platform) (news : NewsDocument) (st : IndexState) :
  let st' := snd (checkForDuplicates P news st) in
  let titleText := or_empty (or_else (title news) (Some [])) in
  let contentText := or_empty (or_else (content news) (Some [])) in
  indexed st' = indexed st /\
  randomDraws st <= randomDraws st' <= randomDraws st + 2 /\
  (exists log,
     calls st' = calls st ++ log /\ 1 <= List.length log <= 2 /\
     Forall (fun c => exists request, c = CallSearch request) log) /\
  (List.length (trim (titleText ++ js " " ++ contentText)) < 20 ->
   randomDraws st' = randomDraws st /\
   calls st' = calls st ++ [CallSearch (MoreLikeThisQuery (title news) (content news))]).
Proof.
  intros st' titleText contentText.
  destruct (checkForDuplicates_effects P news st) as (Hi & Hd & log & Hc & Hl & Hf).
  fold st' in Hi, Hd, Hc.
  split; [exact Hi|]. split; [exact Hd|]. split.
  - exists log. split; [exact Hc|]. split; [|exact Hf]. split; [|exact Hl].
    destruct log as [|c l]; [|cbn [List.length]; lia].
    exfalso. rewrite app_nil_r in Hc. subst st'. revert Hc.
    unfold checkForDuplicates, hashStage, semanticStage, client_search.
    assert (Hne : forall (l : list Call) c, l ++ [c] <> l).
    { intros l c E. apply (f_equal (@List.length Call)) in E.
      rewrite length_app in E. cbn in E. lia. }
    assert (Hne2 : forall (l : list Call) c c', (l ++ [c]) ++ [c'] <> l).
    { intros l c c' E. apply (f_equal (@List.length Call)) in E.
      rewrite !length_app in E. cbn in E. lia. }
    destruct (20 <=? _).
    + pose proof (ProcessFacts.generateContentHash_indexed P
                    (titleText ++ js " " ++ contentText) st) as [_ H1].
      destruct (generateContentHash P _ st) as [ch st1]. cbn [snd] in H1.
      pose proof (ProcessFacts.generateContentHash_indexed P titleText st1) as [_ H2].
      fold titleText.
      destruct (generateContentHash P titleText st1) as [th st2]. cbn [snd] in H2.
      rewrite H2, H1.
      destruct (search P (indexed st2) _) as [response|e]; [|cbn; apply Hne].
      destruct (0 <? _).
      * destruct (hashLoop _ _ _ _ _ _) as [[r|]|e]; cbn [snd calls];
          [apply Hne| |apply Hne].
        destruct (search P _ _); cbn; apply Hne2.
      * destruct (search P _ _); cbn; apply Hne2.
    + destruct (search P _ _); cbn; apply Hne.
  - intros Hshort. subst st'. unfold checkForDuplicates.
    fold titleText contentText.
    replace (20 <=? _) with false by (symmetry; apply Nat.leb_gt; exact Hshort).
    unfold semanticStage, client_search.
    destruct (search P _ _); split; reflexivity.
Qed.

(** X16.  Without a hit there is no duplicate: when every search of the
    client fails or comes back without hits (an unreachable or an empty
    index), the answer is [isDuplicate = false] with method [none], no
    original and no candidates. *)
Theorem checkForDuplicates_without_hits
    (P : Platform) (news : NewsDocument) (st : IndexState) :
  (forall request response,
     search P (indexed st) request = Ok response -> hits response = []) ->
  fst (checkForDuplicates P news st) = notDuplicate None.
Proof.
  apply checkForDuplicates_no_hits.
Qed.

(** The sample article against an index that finds nothing. *)
Lemma checkForDuplicates_without_hits_witness :
  fst (checkForDuplicates quietPlatform incoming emptyIndex) = notDuplicate None.
Proof.
  apply checkForDuplicates_without_hits.
  intros request response H. injection H as <-. reflexivity.
Defined.

(** A text whose lowercase has no character of [A-Za-z0-9_] is hashed with
    a random number, whatever its length. *)
Lemma generateContentHash_noWord P text :
  forallb noWordUnit (toLowerCase text) = true ->
  exists prefix,
    (prefix = js "EMPTY_CONTENT_" \/ prefix = js "SHORT_CONTENT_") /\
    forall st,
      generateContentHash P text st
      = (sha256 P (prefix ++ Math_random P (randomDraws st)),
         mkIndexState (S (randomDraws st)) (indexed st) (calls st)).
Proof.
  intros H. unfold generateContentHash, draw.
  destruct (_ || _).
  - exists (js "EMPTY_CONTENT_"). split; [left|]; reflexivity.
  - assert (E : trim (collapseSpaces
                        (removeAll (fun c => negb (isWord c || isSpace c))
                           (toLowerCase text))) = []).
    { assert (HL : forall c, In c (toLowerCase text) -> isWord c = false).
      { intros c Hc. rewrite forallb_forall in H. specialize (H c Hc).
        unfold noWordUnit in H. apply negb_true_iff in H. exact H. }
      assert (Ef : removeAll (fun c => negb (isWord c || isSpace c)) (toLowerCase text)
                   = filter isSpace (toLowerCase text)).
      { unfold removeAll. apply filter_ext_in. intros c Hc.
        rewrite (HL c Hc). cbn [orb]. apply negb_involutive. }
      rewrite Ef, BlindFacts.collapseSpaces_all_space.
      - destruct (filter isSpace (toLowerCase text)); reflexivity.
      - apply forallb_forall. intros x Hx. apply filter_In in Hx. tauto. }
    rewrite E. cbn [List.length Nat.ltb Nat.leb].
    exists (js "SHORT_CONTENT_"). split; [right|]; reflexivity.
Qed.

(** X17.  [generateContentHash] is blind to every script but ASCII: a text
    whose lowercase has no character of [A-Za-z0-9_] never gets the digest
    of its content, but that of a fresh random number, and one draw is
    consumed; so two hashes of the same such text are digests of two
    different draws. *)
Theorem generateContentHash_blind
    (P : Platform) (text : jsstring) (st : IndexState) :
  forallb noWordUnit (toLowerCase text) = true ->
  let first := generateContentHash P text st in
  let second := generateContentHash P text (snd first) in
  exists prefix,
    (prefix = js "EMPTY_CONTENT_" \/ prefix = js "SHORT_CONTENT_") /\
    fst first = sha256 P (prefix ++ Math_random P (randomDraws st)) /\
    fst second = sha256 P (prefix ++ Math_random P (S (randomDraws st))) /\
    randomDraws (snd second) = S (S (randomDraws st)).
Proof.
  intros H first second. subst second first.
  destruct (generateContentHash_noWord P text H) as (prefix & Hp & E).
  rewrite !E. cbn [fst snd randomDraws].
  exists prefix. repeat split. exact Hp.
Qed.

(** A title in Russian. *)
Lemma generateContentHash_blind_witness :
  let first := generateContentHash quietPlatform (js "Курс рубля вырос") emptyIndex in
  let second :=
    generateContentHash quietPlatform (js "Курс рубля вырос") (snd first) in
  exists prefix,
    (prefix = js "EMPTY_CONTENT_" \/ prefix = js "SHORT_CONTENT_") /\
    fst first = js "sha256:" ++ prefix ++ js "0.0" /\
    fst second = js "sha256:" ++ prefix ++ js "0.1" /\
    randomDraws (snd second) = 2.
Proof.
  apply (generateContentHash_blind quietPlatform (js "Курс рубля вырос") emptyIndex).
  vm_compute. reflexivity.
Defined.

(** *** The hash that is stored and the hash that is searched *)

Lemma generateContentHash_normalized P text st :
  10 <= List.length (trim text) ->
  10 <= List.length (normalizedText text) ->
  generateContentHash P text st = (sha256 P (normalizedText text), st).
Proof.
  intros H1 H2. unfold generateContentHash. fold (normalizedText text).
  destruct text as [|c r]; [cbn in H1; lia|].
  cbn [orb].
  replace (List.length (trim (c :: r)) <? 10) with false
    by (symmetry; apply Nat.ltb_ge; exact H1).
  replace (List.length (normalizedText (c :: r)) <? 10) with false
    by (symmetry; apply Nat.ltb_ge; exact H2).
  reflexivity.
Qed.

Lemma or_empty_or_else (x : jsstring) : or_empty (or_else (Some x) (Some [])) = x.
Proof. destruct x; reflexivity. Qed.

(** X25.  What [indexNews] stores is what [checkForDuplicates] looks for:
    for an article with a valid date whose title, a space and content make
    20 characters or more after trimming and 10 or more after
    normalisation, the [content_hash] of the document the index accepts is
    the digest of the normalised text, and a later check of the same article
    sends the exact-hash query first, with that very digest. *)
Theorem indexed_content_hash_is_searched
    (P : Platform) (news : NewsDocument) (st st' : IndexState) (t c : jsstring)
    (ms : Z) :
  title news = Some t -> content news = Some c ->
  created_at news = Time ms ->
  20 <= List.length (trim (t ++ js " " ++ c)) ->
  10 <= List.length (normalizedText (t ++ js " " ++ c)) ->
  (forall d, index_error P (indexed st) d = None) ->
  let contentHash := sha256 P (normalizedText (t ++ js " " ++ c)) in
  (exists d,
     indexed (snd (indexNews P news st)) = indexed st ++ [d] /\
     content_hash d = Some contentHash) /\
  (exists titleHash rest,
     calls (snd (checkForDuplicates P news st'))
     = calls st' ++ CallSearch (ExactHashQuery contentHash titleHash) :: rest).
Proof.
  intros Ht Hc Hdate H20 H10 Hidx contentHash.
  assert (Htrim : 10 <= List.length (trim (t ++ js " " ++ c))) by lia.
  split.
  - unfold indexNews. rewrite Ht, Hc. cbn [toStr or_empty].
    rewrite (generateContentHash_normalized P _ st Htrim H10).
    pose proof (ProcessFacts.generateContentHash_indexed P t st) as [Hi _].
    destruct (generateContentHash P t st) as [th st1]. cbn [snd] in Hi.
    rewrite Hdate. cbn [toISOString].
    rewrite Hi, Hidx. cbn [snd indexed].
    eexists. split; reflexivity.
  - unfold checkForDuplicates. rewrite Ht, Hc, !or_empty_or_else.
    replace (20 <=? _) with true by (symmetry; apply Nat.leb_le; exact H20).
    unfold hashStage.
    rewrite (generateContentHash_normalized P _ st' Htrim H10).
    pose proof (ProcessFacts.generateContentHash_indexed P t st') as [_ Hl].
    destruct (generateContentHash P t st') as [th st1]. cbn [snd] in Hl.
    fold contentHash. exists th.
    unfold client_search, semanticStage. rewrite Hl.
    destruct (search P (indexed st1) (ExactHashQuery contentHash th))
      as [response|e]; [|exists []; reflexivity].
    destruct (0 <? _).
    + destruct (hashLoop _ _ _ _ _ _) as [[r|]|e];
        [exists []; reflexivity| |exists []; reflexivity].
      unfold client_search. cbn [indexed calls randomDraws].
      destruct (search P _ _); cbn [snd calls]; rewrite <- app_assoc;
        eexists; reflexivity.
    + unfold client_search. cbn [indexed calls randomDraws].
      destruct (search P _ _); cbn [snd calls]; rewrite <- app_assoc;
        eexists; reflexivity.
Qed.

(** The sample article, indexed and then checked again. *)
Lemma indexed_content_hash_is_searched_witness :
  let P := demoPlatform [] false in
  let indexedState := snd (indexNews P incoming emptyIndex) in
  let contentHash :=
    sha256 P (normalizedText (js launchTitle ++ js " " ++ js launchText)) in
  (exists d,
     indexed indexedState = indexed emptyIndex ++ [d] /\
     content_hash d = Some contentHash) /\
  (exists titleHash rest,
     calls (snd (checkForDuplicates P incoming indexedState))
     = calls indexedState
       ++ CallSearch (ExactHashQuery contentHash titleHash) :: rest).
Proof.
  intros P indexedState contentHash.
  apply (@indexed_content_hash_is_searched P incoming emptyIndex indexedState
           (js launchTitle) (js launchText) 0%Z).
  - reflexivity.
  - reflexivity.
  - reflexivity.
  - vm_compute. lia.
  - vm_compute. lia.
  - intros d. reflexivity.
Defined.

End CheckMoreFacts.

(* ------------------------------------------------------------------ *)
(** ** [processNews], [searchSimilarNews] and [syncExistingNews] *)

Module ProcessMoreFacts.
Import Dedup DedupMore Samples.

Lemma fallbackSave_reason DB newsData w1 :
  reason (fst (fallbackSave DB newsData w1)) = SavedToMongoOnly \/
  exists message, reason (fst (fallbackSave DB newsData w1)) = SaveFailed message.
Proof.
  unfold fallbackSave.
  destruct (create DB _ w1) as [[doc|e] w2]; cbn; eauto.
Qed.

(** The paths of a stored document that come from the article. *)
Lemma validate_fields oid now newsData fallback doc :
  validate oid now (normalizedNewsData newsData fallback) = Some doc ->
  NewsData.title newsData = Some (Doc.titleCanonical doc) /\
  NewsData.url newsData = Some (Doc.url doc) /\
  Doc._id doc = oid /\ Doc.createdAt doc = now.
Proof.
  unfold validate. intros Ev.
  destruct (Normalized.newsRawId _); [|discriminate].
  destruct (Normalized.sourceId _); [|discriminate].
  destruct (required (Normalized.externalId _)); [|discriminate].
  destruct (required (Normalized.source _)); [|discriminate].
  destruct (required (Normalized.url _)) as [u|] eqn:Eu; [|discriminate].
  destruct (required (Normalized.titleCanonical _)) as [t|] eqn:Et; [|discriminate].
  destruct (required (Normalized.lang _)); [|discriminate].
  destruct (Normalized.publishedAt _) as [p|]; [|discriminate].
  destruct (required (Normalized.summaryShort _)); [|discriminate].
  destruct (match p with inl [] => true | _ => false end); [discriminate|].
  injection Ev as <-. cbn [Doc.titleCanonical Doc.url Doc._id Doc.createdAt].
  unfold required in Et, Eu.
  cbn [normalizedNewsData Normalized.titleCanonical Normalized.url] in Et, Eu.
  destruct (truthy (NewsData.title newsData)); [|discriminate].
  destruct (truthy (NewsData.url newsData)); [|discriminate].
  auto.
Qed.

Lemma create_cases DB data w :
  (exists e, create DB data w = (Throw e, w)) \/
  (exists doc,
     validate (nextObjectId w) (clock w) data = Some doc /\
     create DB data w
     = (Ok doc, mkWorld (os w) (newsNormalized w ++ [doc]) (S (nextObjectId w))
                  (clock w))).
Proof.
  unfold create.
  destruct (create_error DB _ _) as [e|]; [left; eauto|].
  destruct (validate _ _ _) as [doc|]; [right; eauto|left; eauto].
Qed.

Lemma indexNews_cases P news st :
  (exists e, fst (OpenSearch.indexNews P news st) = Throw e /\
             OpenSearch.indexed (snd (OpenSearch.indexNews P news st))
             = OpenSearch.indexed st) \/
  (exists oid d,
     fst (OpenSearch.indexNews P news st) = Ok oid /\
     OpenSearch.indexed (snd (OpenSearch.indexNews P news st))
     = OpenSearch.indexed st ++ [d] /\
     OpenSearch.title d = OpenSearch.title news /\
     OpenSearch.id d = OpenSearch.id news).
Proof.
  unfold OpenSearch.indexNews.
  pose proof (ProcessFacts.generateContentHash_indexed P
                (OpenSearch.toStr (OpenSearch.title news) ++ js " "
                 ++ OpenSearch.toStr (OpenSearch.content news)) st) as [H1 _].
  destruct (OpenSearch.generateContentHash P _ st) as [ch st1]. cbn [snd] in H1.
  pose proof (ProcessFacts.generateContentHash_indexed P
                (or_empty (OpenSearch.title news)) st1) as [H2 _].
  destruct (OpenSearch.generateContentHash P _ st1) as [th st2]. cbn [snd] in H2.
  destruct (toISOString (OpenSearch.created_at news)) as [created|e].
  - rewrite H2, H1.
    destruct (OpenSearch.index_error P (OpenSearch.indexed st) _) as [e|];
      cbn [fst snd OpenSearch.indexed].
    + left. eauto.
    + right. eexists. eexists. split; [reflexivity|]. split; [reflexivity|].
      split; reflexivity.
  - cbn [fst snd]. left. exists e. split; [reflexivity|congruence].
Qed.

Section Process.
Variable P : OpenSearch.Platform.
Variable DB : Store.
Variable newsData : NewsData.t.

Local Abbreviation fromArticle :=
  (fun d => NewsData.title newsData = Some (Doc.titleCanonical d) /\
            NewsData.url newsData = Some (Doc.url d)).

Lemma fallbackSave_adds w1 :
  os (snd (fallbackSave DB newsData w1)) = os w1 /\
  reason (fst (fallbackSave DB newsData w1)) <> NewArticleSaved /\
  exists stored,
    newsNormalized (snd (fallbackSave DB newsData w1)) = newsNormalized w1 ++ stored /\
    List.length stored <= 1 /\
    (forall d, In d stored -> fromArticle d) /\
    (saved (fst (fallbackSave DB newsData w1)) = true -> stored <> []).
Proof.
  unfold fallbackSave.
  destruct (create_cases DB (normalizedNewsData newsData true) w1)
    as [[e ->]|(doc & Hv & ->)]; cbn [fst snd os newsNormalized saved reason].
  - split; [reflexivity|]. split; [discriminate|].
    exists []. rewrite app_nil_r. split; [reflexivity|]. split; [cbn; lia|].
    split; [intros d []|discriminate].
  - split; [reflexivity|]. split; [discriminate|].
    exists [doc]. split; [reflexivity|]. split; [cbn; lia|]. split.
    + intros d [<-|[]]. apply validate_fields in Hv. tauto.
    + discriminate.
Qed.

Lemma processNews_adds w :
  exists stored indexedDocs,
    newsNormalized (snd (processNews P DB newsData w)) = newsNormalized w ++ stored /\
    OpenSearch.indexed (os (snd (processNews P DB newsData w)))
    = OpenSearch.indexed (os w) ++ indexedDocs /\
    List.length stored <= 2 /\ List.length indexedDocs <= 1 /\
    (forall d, In d stored -> fromArticle d) /\
    (forall d, In d indexedDocs -> OpenSearch.title d = Some (titleTextOf newsData)) /\
    (saved (fst (processNews P DB newsData w)) = true -> stored <> []) /\
    (indexedDocs <> [] ->
     fst (processNews P DB newsData w) = mkProcessResult true NewArticleSaved None /\
     List.length stored = 1).
Proof.
  unfold processNews, processNews_try.
  destruct (trim (titleTextOf newsData)) as [|c r].
  - destruct (fallbackSave_adds w) as (Hos & _ & stored & Hs & Hl & Hf & Hsaved).
    exists stored, []. rewrite Hos, app_nil_r.
    split; [exact Hs|]. split; [reflexivity|]. split; [lia|]. split; [cbn; lia|].
    split; [exact Hf|]. split; [intros d []|]. split; [exact Hsaved|]. congruence.
  - pose proof (CheckMoreFacts.checkForDuplicates_effects P
                  (newsDocumentOf newsData (clock w)) (os w)) as (Hi & _).
    destruct (OpenSearch.checkForDuplicates P _ (os w)) as [dr st]. cbn [snd] in Hi.
    destruct (_ && _).
    + exists [], []. cbn [fst snd with_os newsNormalized os saved].
      rewrite !app_nil_r. split; [reflexivity|]. split; [exact Hi|].
      split; [cbn; lia|]. split; [cbn; lia|].
      split; [intros d []|]. split; [intros d []|]. split; [discriminate|congruence].
    + destruct (create_cases DB (normalizedNewsData newsData false) (with_os w st))
        as [[e ->]|(doc & Hv & ->)].
      * destruct (fallbackSave_adds (with_os w st))
          as (Hos & _ & stored & Hs & Hl & Hf & Hsaved).
        exists stored, []. rewrite Hos, app_nil_r.
        split; [exact Hs|]. split; [exact Hi|]. split; [lia|]. split; [cbn; lia|].
        split; [exact Hf|]. split; [intros d []|]. split; [exact Hsaved|congruence].
      * cbn [with_os os newsNormalized nextObjectId clock].
        apply validate_fields in Hv.
        destruct (indexNews_cases P
                    (withId (newsDocumentOf newsData (clock w)) (Doc._id doc)) st)
          as [(e & Er & Ei)|(oid & d & Er & Ei & Ht & _)];
          destruct (OpenSearch.indexNews P _ st) as [res st1];
          cbn [fst snd] in Er, Ei; subst res.
        -- match goal with
           | |- context [fallbackSave DB newsData ?w1] =>
               destruct (fallbackSave_adds w1)
                 as (Hos & _ & stored & Hs & Hl & Hf & Hsaved)
           end.
           cbn [with_os os newsNormalized] in Hos, Hs.
           exists (doc :: stored), []. rewrite Hos, Hs, app_nil_r, <- app_assoc.
           split; [reflexivity|]. split; [congruence|].
           split; [cbn [List.length]; lia|]. split; [cbn; lia|].
           split; [intros x [<-|Hx]; [tauto|auto]|].
           split; [intros x []|]. split; [discriminate|congruence].
        -- exists [doc], [d]. cbn [fst snd with_os os newsNormalized saved].
           split; [reflexivity|]. split; [congruence|].
           split; [cbn; lia|]. split; [cbn; lia|].
           split; [intros x [<-|[]]; tauto|].
           split; [intros x [<-|[]]; exact Ht|].
           split; [discriminate|]. intros _. split; reflexivity.
Qed.

(** The test of [processNews] passes at the semantic stage only. *)
Lemma processNews_rejection w m s :
  reason (fst (processNews P DB newsData w)) = ConfirmedDuplicate m s ->
  m = OpenSearch.text_similarity /\ (1.5 < s)%Q /\
  saved (fst (processNews P DB newsData w)) = false /\
  newsNormalized (snd (processNews P DB newsData w)) = newsNormalized w.
Proof.
  intros Hr.
  destruct (trim (titleTextOf newsData)) as [|c r] eqn:Et.
  - rewrite (FallbackFacts.processNews_no_title P DB newsData w Et) in Hr.
    destruct (fallbackSave_reason DB newsData w) as [E|[msg E]];
      rewrite E in Hr; discriminate.
  - assert (Htitle : trim (titleTextOf newsData) <> []) by (rewrite Et; discriminate).
    destruct (@ProcessFacts.rejected_iff P DB newsData w Htitle) as [Hyes Hno].
    set (check := OpenSearch.checkForDuplicates P
                    (newsDocumentOf newsData (clock w)) (os w)) in *.
    destruct (OpenSearch.isDuplicate (fst check)
              && confirmedScore (OpenSearch.dup_similarity_score (fst check))) eqn:Eb;
      [|exfalso; exact (Hno eq_refl m s Hr)].
    destruct (Hyes eq_refl) as (s' & Es & Eout).
    rewrite Eout in Hr |- *. cbn [fst snd reason saved with_os newsNormalized] in *.
    injection Hr as <- <-.
    apply andb_true_iff in Eb. destruct Eb as [Hdup Hconf].
    apply ProcessFacts.confirmedScore_iff in Hconf.
    destruct Hconf as (s0 & Es0 & Hs0).
    rewrite Es in Es0. injection Es0 as <-.
    pose proof (CheckMoreFacts.checkForDuplicates_shape P
                  (newsDocumentOf newsData (clock w)) (os w)) as Hsh.
    cbv zeta in Hsh. fold check in Hsh.
    destruct Hsh as [Hn|(q & resp & h & s1 & _ & _ & Hshape & Hcase)].
    + rewrite Hn in Hdup. discriminate.
    + rewrite Hshape in Es. cbn [OpenSearch.dup_similarity_score] in Es.
      injection Es as ->.
      destruct Hcase as [(_ & [_ Hle] & _)|[Hm Hs1]].
      * exfalso. apply (Qlt_not_le 1 1.5); [reflexivity|].
        eapply Qle_trans; eassumption.
      * auto.
Qed.

End Process.

(** X18.  [processNews] never rejects an article on the word of the hash
    stage: a hash-stage duplicate has a score of at most 1, below the 1.5 the
    rejection asks for.  Every [Confirmed duplicate] answer names the method
    [text_similarity] with a score above 1.5, and leaves the store as it
    was. *)
Theorem processNews_rejects_on_semantic_stage_only
    (P : OpenSearch.Platform) (DB : Store) (newsData : NewsData.t) (w : World)
    (m : OpenSearch.Method) (s : Q) :
  reason (fst (processNews P DB newsData w)) = ConfirmedDuplicate m s ->
  m = OpenSearch.text_similarity /\ (1.5 < s)%Q /\
  saved (fst (processNews P DB newsData w)) = false /\
  newsNormalized (snd (processNews P DB newsData w)) = newsNormalized w.
Proof. apply processNews_rejection. Qed.

(** The sample article against a top hit of relevance 18 with the same
    story. *)
Lemma processNews_rejects_on_semantic_stage_only_witness :
  reason (fst (processNews (demoPlatform [sameStoryHit] false) demoStore
                 goodArticle emptyWorld))
  = ConfirmedDuplicate OpenSearch.text_similarity 1.8 /\
  (1.5 < 1.8)%Q.
Proof.
  assert (H : reason (fst (processNews (demoPlatform [sameStoryHit] false) demoStore
                             goodArticle emptyWorld))
              = ConfirmedDuplicate OpenSearch.text_similarity 1.8)
    by (vm_compute; reflexivity).
  split; [exact H|].
  apply (processNews_rejects_on_semantic_stage_only _ _ _ _ H).
Defined.

(** X19.  [processNews] only adds: the store keeps its records and gains at
    most two, each with the title and the url of the article; the index
    keeps its documents and gains at most one, with the title of the
    article.  An answer [saved = true] means the store gained a record, and
    a new index document means the answer [New article saved successfully]
    with exactly one new record. *)
Theorem processNews_only_adds
    (P : OpenSearch.Platform) (DB : Store) (newsData : NewsData.t) (w : World) :
  let out := processNews P DB newsData w in
  exists stored indexedDocs,
    newsNormalized (snd out) = newsNormalized w ++ stored /\
    OpenSearch.indexed (os (snd out)) = OpenSearch.indexed (os w) ++ indexedDocs /\
    List.length stored <= 2 /\ List.length indexedDocs <= 1 /\
    (forall d, In d stored ->
       NewsData.title newsData = Some (Doc.titleCanonical d) /\
       NewsData.url newsData = Some (Doc.url d)) /\
    (forall d, In d indexedDocs -> OpenSearch.title d = Some (titleTextOf newsData)) /\
    (saved (fst out) = true -> stored <> []) /\
    (indexedDocs <> [] ->
     fst out = mkProcessResult true NewArticleSaved None /\ List.length stored = 1).
Proof. apply processNews_adds. Qed.

(** *** [searchSimilarNews] *)

Lemma semanticDecision_candidates t c response :
  exists k,
    k <= 1 /\
    (OpenSearch.candidates (OpenSearch.semanticDecision t c response) = None \/
     OpenSearch.candidates (OpenSearch.semanticDecision t c response)
     = Some (skipn k (map OpenSearch._source (OpenSearch.hits response)))).
Proof.
  unfold OpenSearch.semanticDecision.
  destruct (OpenSearch.hits response) as [|top rest]; [exists 0; auto|].
  destruct (if gt _ 1.5 then _ else false).
  - exists 1. split; [lia|]. right. reflexivity.
  - exists 0. split; [lia|]. right. reflexivity.
Qed.

Lemma semanticStage_candidates P news t c st :
  OpenSearch.candidates (fst (OpenSearch.semanticStage P news t c st)) = None \/
  exists response k,
    OpenSearch.search P (OpenSearch.indexed st)
      (OpenSearch.MoreLikeThisQuery (OpenSearch.title news) (OpenSearch.content news))
    = Ok response /\
    k <= 1 /\
    OpenSearch.candidates (fst (OpenSearch.semanticStage P news t c st))
    = Some (skipn k (map OpenSearch._source (OpenSearch.hits response))).
Proof.
  unfold OpenSearch.semanticStage, OpenSearch.client_search.
  destruct (OpenSearch.search P _ _) as [response|e] eqn:Es; cbn [fst];
    [|left; reflexivity].
  destruct (semanticDecision_candidates t c response) as (k & Hk & [H|H]);
    [left; exact H|].
  right. exists response, k. auto.
Qed.

Lemma checkForDuplicates_candidates P news st :
  OpenSearch.candidates (fst (OpenSearch.checkForDuplicates P news st)) = None \/
  exists response k,
    OpenSearch.search P (OpenSearch.indexed st)
      (OpenSearch.MoreLikeThisQuery (OpenSearch.title news) (OpenSearch.content news))
    = Ok response /\
    k <= 1 /\
    OpenSearch.candidates (fst (OpenSearch.checkForDuplicates P news st))
    = Some (skipn k (map OpenSearch._source (OpenSearch.hits response))).
Proof.
  assert (Hsem : forall t c st',
            OpenSearch.indexed st' = OpenSearch.indexed st ->
            OpenSearch.candidates (fst (OpenSearch.semanticStage P news t c st')) = None \/
            exists response k,
              OpenSearch.search P (OpenSearch.indexed st)
                (OpenSearch.MoreLikeThisQuery (OpenSearch.title news)
                   (OpenSearch.content news))
              = Ok response /\
              k <= 1 /\
              OpenSearch.candidates (fst (OpenSearch.semanticStage P news t c st'))
              = Some (skipn k (map OpenSearch._source (OpenSearch.hits response)))).
  { intros t c st' Hi. rewrite <- Hi. apply semanticStage_candidates. }
  unfold OpenSearch.checkForDuplicates.
  destruct (20 <=? _); [|apply Hsem; reflexivity].
  unfold OpenSearch.hashStage.
  match goal with
  | |- context [OpenSearch.generateContentHash P ?text st] =>
      pose proof (ProcessFacts.generateContentHash_indexed P text st) as [H1 _];
      destruct (OpenSearch.generateContentHash P text st) as [ch st1]
  end.
  cbn [snd] in H1.
  match goal with
  | |- context [OpenSearch.generateContentHash P ?text st1] =>
      pose proof (ProcessFacts.generateContentHash_indexed P text st1) as [H2 _];
      destruct (OpenSearch.generateContentHash P text st1) as [th st2]
  end.
  cbn [snd] in H2.
  unfold OpenSearch.client_search.
  destruct (OpenSearch.search P (OpenSearch.indexed st2)
              (OpenSearch.ExactHashQuery ch th)) as [response|e];
    [|left; reflexivity].
  destruct (0 <? _); [|apply Hsem; cbn; congruence].
  destruct (OpenSearch.hashLoop _ _ _ _ _ _) as [[r|]|e] eqn:El; cbn [fst].
  - destruct (CheckMoreFacts.hashLoop_shape _ _ _ _ _ _ El) as (h & s & _ & _ & ->).
    left. reflexivity.
  - apply Hsem. cbn. congruence.
  - left. reflexivity.
Qed.

Lemma slice0_length A (q : Q) (l : list A) :
  (0 <= q)%Q ->
  (Z.of_nat (List.length (slice0 (Finite q) l)) <= Qfloor q)%Z.
Proof.
  intros Hq. unfold slice0, truncate.
  replace (Qle_bool 0 q) with true by (symmetry; apply Qle_bool_iff; exact Hq).
  assert (H0 : (0 <= Qfloor q)%Z).
  { change 0%Z with (Qfloor 0). apply Qfloor_resp_le. exact Hq. }
  replace (Qfloor q <? 0)%Z with false by (symmetry; apply Z.ltb_ge; exact H0).
  rewrite length_firstn. lia.
Qed.

(** X20.  [searchSimilarNews] answers with documents of the more-like-this
    query for the title and the content, in the order of the response and
    without its top hit when that one is a confirmed duplicate, cut by
    [slice(0, limit)]: for a limit that is not negative at most [limit] of
    them (5 by default), for [NaN] none, and for a limit of -1 or less all
    but as many of the last ones.  The index is left as it was. *)
Theorem searchSimilarNews_answer
    (P : OpenSearch.Platform) (title content : jsstring) (limit : option number)
    (now : Z) (st : OpenSearch.IndexState) :
  let out := searchSimilarNews P title content limit now st in
  let n := match limit with Some l => l | None => Finite 5 end in
  OpenSearch.indexed (snd out) = OpenSearch.indexed st /\
  (fst out = [] \/
   exists response k,
     OpenSearch.search P (OpenSearch.indexed st)
       (OpenSearch.MoreLikeThisQuery (Some title) (Some content)) = Ok response /\
     k <= 1 /\
     fst out = slice0 n (skipn k (map OpenSearch._source (OpenSearch.hits response)))) /\
  (forall q, n = Finite q -> (0 <= q)%Q ->
     (Z.of_nat (List.length (fst out)) <= Qfloor q)%Z) /\
  (n = NaN -> fst out = []) /\
  (forall q, n = Finite q -> (q <= -1)%Q ->
     fst out = [] \/
     exists response k,
       OpenSearch.search P (OpenSearch.indexed st)
         (OpenSearch.MoreLikeThisQuery (Some title) (Some content)) = Ok response /\
       k <= 1 /\
       let cs := skipn k (map OpenSearch._source (OpenSearch.hits response)) in
       fst out = firstn (List.length cs - Z.to_nat (- Qceiling q)) cs).
Proof.
  intros out n. subst out. unfold searchSimilarNews. fold n.
  match goal with
  | |- context [OpenSearch.checkForDuplicates P ?news st] =>
      pose proof (checkForDuplicates_candidates P news st) as Hc;
      pose proof (CheckMoreFacts.checkForDuplicates_effects P news st) as (Hi & _);
      destruct (OpenSearch.checkForDuplicates P news st) as [result st1]
  end.
  cbn [fst snd OpenSearch.title OpenSearch.content] in *.
  split; [exact Hi|]. split; [|split; [|split]].
  - destruct Hc as [->|(response & k & Hs & Hk & ->)]; [left; reflexivity|].
    right. exists response, k. auto.
  - intros q -> Hq. destruct (OpenSearch.candidates result) as [cs|].
    + apply slice0_length. exact Hq.
    + cbn. change 0%Z with (Qfloor 0). apply Qfloor_resp_le. exact Hq.
  - intros ->. destruct (OpenSearch.candidates result); reflexivity.
  - intros q -> Hq.
    destruct Hc as [->|(response & k & Hs & Hk & ->)]; [left; reflexivity|].
    right. exists response, k. split; [exact Hs|]. split; [exact Hk|].
    cbv zeta. set (cs := skipn k _).
    unfold slice0, truncate.
    replace (Qle_bool 0 q) with false
      by (symmetry; apply not_true_is_false; intros E;
          apply Qle_bool_iff in E; revert E; apply Qlt_not_le;
          apply (Qle_lt_trans _ (-1)); [exact Hq|reflexivity]).
    assert (Hc0 : (Qceiling q <= -1)%Z).
    { change (-1)%Z with (Qceiling (-1)). apply Qceiling_resp_le. exact Hq. }
    cbv zeta.
    replace (Qceiling q <? 0)%Z with true by (symmetry; apply Z.ltb_lt; lia).
    f_equal. lia.
Qed.

(** Three hits: the limit 2 gives at most two of them, and the limit -1
    gives the first two, more than the limit. *)
Lemma searchSimilarNews_answer_witness :
  let P := demoPlatform [unrelatedHit; sameStoryHit; unrelatedHit] false in
  (Z.of_nat (List.length (fst (searchSimilarNews P (js launchTitle) (js "short")
                                 (Some (Finite 2)) 0 emptyIndex)))
   <= Qfloor 2)%Z /\
  (let out := searchSimilarNews P (js launchTitle) (js "short")
                (Some (Finite (-1))) 0 emptyIndex in
   List.length (fst out) = 2 /\
   exists response k,
     OpenSearch.search P [] (OpenSearch.MoreLikeThisQuery
                               (Some (js launchTitle)) (Some (js "short")))
     = Ok response /\
     k <= 1 /\
     let cs := skipn k (map OpenSearch._source (OpenSearch.hits response)) in
     fst out = firstn (List.length cs - 1) cs).
Proof.
  intros P. split.
  - pose proof (@searchSimilarNews_answer P (js launchTitle) (js "short")
                  (Some (Finite 2)) 0 emptyIndex) as (_ & _ & Hle & _).
    apply (Hle 2%Q eq_refl). unfold Qle. simpl. lia.
  - intros out.
    assert (Hlen : List.length (fst out) = 2) by (vm_compute; reflexivity).
    split; [exact Hlen|].
    pose proof (@searchSimilarNews_answer P (js launchTitle) (js "short")
                  (Some (Finite (-1))) 0 emptyIndex) as (_ & _ & _ & _ & Hneg).
    destruct (Hneg (-1)%Q eq_refl) as [Hnil|Hcut].
    + unfold Qle. simpl. lia.
    + fold out in Hnil. rewrite Hnil in Hlen. discriminate Hlen.
    + exact Hcut.
Defined.

(** *** [syncExistingNews] *)

Lemma sync_loop P : forall l i e st,
  let r := fold_left
             (fun acc news =>
                let '((indexed, errors), st) := acc in
                let '(r, st) := OpenSearch.indexNews P (syncDocument news) st in
                match r with
                | Ok _ => ((S indexed, errors), st)
                | Throw _ => ((indexed, S errors), st)
                end)
             l ((i, e), st) in
  fst (fst r) + snd (fst r) = i + e + List.length l /\
  exists added,
    OpenSearch.indexed (snd r) = OpenSearch.indexed st ++ added /\
    i + List.length added = fst (fst r) /\
    forall d, In d added ->
      exists news, In news l /\
        OpenSearch.id d = Some (showNat (Doc._id news)) /\
        OpenSearch.title d = Some (Doc.titleCanonical news).
Proof.
  induction l as [|news l IH]; intros i e st.
  - cbn. split; [lia|]. exists []. rewrite app_nil_r.
    split; [reflexivity|]. split; [cbn; lia|]. intros d [].
  - cbn [fold_left].
    destruct (indexNews_cases P (syncDocument news) st)
      as [(err & Er & Ei)|(oid & d & Er & Ei & Ht & Hid)];
      destruct (OpenSearch.indexNews P (syncDocument news) st) as [res st1];
      cbn [fst snd] in Er, Ei; subst res.
    + destruct (IH i (S e) st1) as (Hsum & added & Ha & Hlen & Hfrom).
      cbv zeta. split; [rewrite Hsum; cbn [List.length]; lia|].
      exists added. rewrite Ha, Ei. split; [reflexivity|]. split; [exact Hlen|].
      intros x Hx. destruct (Hfrom x Hx) as (n0 & Hin & H). exists n0.
      split; [right; exact Hin|exact H].
    + destruct (IH (S i) e st1) as (Hsum & added & Ha & Hlen & Hfrom).
      cbv zeta. split; [rewrite Hsum; cbn [List.length]; lia|].
      exists (d :: added). rewrite Ha, Ei, <- app_assoc.
      split; [reflexivity|]. split; [cbn [List.length]; lia|].
      intros x [<-|Hx].
      * exists news. split; [left; reflexivity|]. rewrite Hid, Ht. split; reflexivity.
      * destruct (Hfrom x Hx) as (n0 & Hin & H). exists n0.
        split; [right; exact Hin|exact H].
Qed.

(** X21.  [syncExistingNews] visits the first 1000 stored articles and
    counts each one once, as indexed or as an error; it never looks whether
    an article is in the index already: the index keeps what it held and
    gains one document, with the id and the title of the article, for every
    article counted as indexed.  The store is not touched. *)
Theorem syncExistingNews_accounting (P : OpenSearch.Platform) (w : World) :
  let out := syncExistingNews P w in
  let indexed := fst (fst out) in
  let errors := snd (fst out) in
  indexed + errors = Nat.min 1000 (List.length (newsNormalized w)) /\
  newsNormalized (snd out) = newsNormalized w /\
  exists added,
    OpenSearch.indexed (os (snd out)) = OpenSearch.indexed (os w) ++ added /\
    List.length added = indexed /\
    forall d, In d added ->
      exists news, In news (firstn 1000 (newsNormalized w)) /\
        OpenSearch.id d = Some (showNat (Doc._id news)) /\
        OpenSearch.title d = Some (Doc.titleCanonical news).
Proof.
  intros out indexed errors. subst indexed errors out. unfold syncExistingNews.
  destruct (sync_loop P (firstn 1000 (newsNormalized w)) 0 0 (os w))
    as (Hsum & added & Ha & Hlen & Hfrom).
  destruct (fold_left _ (firstn 1000 (newsNormalized w)) (0, 0, os w))
    as [[i e] st1].
  cbn [fst snd with_os os newsNormalized] in *.
  split; [rewrite Hsum, length_firstn; lia|]. split; [reflexivity|].
  exists added. auto.
Qed.

End ProcessMoreFacts.

(* ------------------------------------------------------------------ *)
(** ** The sweep: what it counts and what it removes *)

Module RemovalFacts.
Import Dedup DedupMore Statements MoreStatements Samples.

Section Scan.
Variable P : OpenSearch.Platform.

Lemma hashMatch_indexed h : forall entries st,
  OpenSearch.indexed (snd (hashMatch P h entries st)) = OpenSearch.indexed st.
Proof.
  induction entries as [|[k e] entries IH]; intros st; [reflexivity|].
  cbn [hashMatch].
  pose proof (ProcessFacts.generateContentHash_indexed P (contentForHash e) st)
    as [H _].
  destruct (OpenSearch.generateContentHash P (contentForHash e) st) as [x st1].
  cbn [snd] in H. destruct (seqb h x); [exact H|].
  rewrite IH. exact H.
Qed.

Lemma semanticMatch_indexed cur entries st :
  OpenSearch.indexed (snd (semanticMatch P cur entries st)) = OpenSearch.indexed st.
Proof.
  unfold semanticMatch.
  pose proof (CheckMoreFacts.checkForDuplicates_effects P (sweepDocument cur) st)
    as (H & _).
  destruct (OpenSearch.checkForDuplicates P (sweepDocument cur) st) as [dr st1].
  cbn [snd] in H.
  destruct (_ && _); [|exact H].
  destruct (OpenSearch.original dr); [|exact H].
  destruct (find _ entries) as [[k e]|]; exact H.
Qed.

Lemma findOriginal_indexed cur entries st :
  OpenSearch.indexed (snd (findOriginal P cur entries st)) = OpenSearch.indexed st.
Proof.
  unfold findOriginal.
  destruct (titleMatch cur entries); [reflexivity|].
  pose proof (ProcessFacts.generateContentHash_indexed P (contentForHash cur) st)
    as [H1 _].
  destruct (OpenSearch.generateContentHash P (contentForHash cur) st) as [h st1].
  cbn [snd] in H1.
  pose proof (hashMatch_indexed h entries st1) as H2.
  destruct (hashMatch P h entries st1) as [[o|] st2]; cbn [snd] in H2 |- *;
    [congruence|].
  destruct entries as [|e entries]; [cbn; congruence|].
  rewrite semanticMatch_indexed. congruence.
Qed.

(** One turn of the detection loop: the index is read only, and the three
    records of the marked articles grow together. *)
Lemma scanStep_counts dryRun sc st x :
  let r := scanStep P dryRun (sc, st) x in
  OpenSearch.indexed (snd r) = OpenSearch.indexed st /\
  (duplicatesFound sc = List.length (duplicatesToRemove sc) ->
   duplicatesFound (fst r) = List.length (duplicatesToRemove (fst r))) /\
  (List.length (details sc) = List.length (duplicatesToRemove sc) ->
   List.length (details (fst r)) = List.length (duplicatesToRemove (fst r))).
Proof.
  unfold scanStep.
  pose proof (findOriginal_indexed x (processedArticles sc) st) as H1.
  destruct (findOriginal P x (processedArticles sc) st) as [[[[o m] s]|] st1];
    cbn [snd] in H1.
  - cbn [fst snd duplicatesFound duplicatesToRemove details].
    rewrite !length_app. cbn [List.length].
    split; [exact H1|]. split; lia.
  - pose proof (ProcessFacts.generateContentHash_indexed P (contentForHash x) st1)
      as [H2 _].
    destruct (OpenSearch.generateContentHash P (contentForHash x) st1) as [h st2].
    cbn [fst snd duplicatesFound duplicatesToRemove details] in *.
    split; [congruence|]. split; auto.
Qed.

Lemma scan_counts dryRun : forall l sc st,
  duplicatesFound sc = List.length (duplicatesToRemove sc) ->
  List.length (details sc) = List.length (duplicatesToRemove sc) ->
  let r := fold_left (scanStep P dryRun) l (sc, st) in
  OpenSearch.indexed (snd r) = OpenSearch.indexed st /\
  duplicatesFound (fst r) = List.length (duplicatesToRemove (fst r)) /\
  List.length (details (fst r)) = List.length (duplicatesToRemove (fst r)).
Proof.
  induction l as [|x l IH]; intros sc st Hf Hd; [cbn; auto|].
  cbn [fold_left].
  destruct (scanStep_counts dryRun sc st x) as (H1 & H2 & H3).
  destruct (scanStep P dryRun (sc, st) x) as [sc1 st1]. cbn [fst snd] in *.
  destruct (IH sc1 st1 (H2 Hf) (H3 Hd)) as (H4 & H5 & H6).
  split; [congruence|]. split; assumption.
Qed.

Lemma findAndRemoveDuplicates_scan_counts dryRun w :
  let r := findAndRemoveDuplicates_scan P dryRun w in
  OpenSearch.indexed (snd r) = OpenSearch.indexed (os w) /\
  duplicatesFound (fst r) = List.length (duplicatesToRemove (fst r)) /\
  List.length (details (fst r)) = List.length (duplicatesToRemove (fst r)).
Proof.
  unfold findAndRemoveDuplicates_scan. apply scan_counts; reflexivity.
Qed.

(** *** Titles the simple similarity cannot tell apart *)

Lemma blindTitle_spec t :
  blindTitle t = true ->
  lowerTrim t <> [] /\ forallb noWordUnit (toLowerCase (lowerTrim t)) = true /\
  existsb isSpace (trim (toLowerCase (lowerTrim t))) = true.
Proof.
  unfold blindTitle. cbv zeta. rewrite !andb_true_iff.
  intros [[H1 H2] H3]. split; [|split; assumption].
  destruct (lowerTrim t); [discriminate|discriminate].
Qed.

Lemma titleMatch_blind x k o rest :
  blindTitle (Doc.titleCanonical x) = true ->
  blindTitle (Doc.titleCanonical o) = true ->
  titleMatch x ((k, o) :: rest) = Some (o, simple_title_match, 1%Q).
Proof.
  intros Hx Ho.
  apply blindTitle_spec in Hx. destruct Hx as (Hx1 & Hx2 & Hx3).
  apply blindTitle_spec in Ho. destruct Ho as (Ho1 & Ho2 & Ho3).
  cbn [titleMatch]. unfold calculateSimpleSimilarity.
  rewrite (BlindFacts.simple_blind Hx1 Ho1 Hx2 Ho2) by congruence.
  replace (gt 1 0.9) with true by reflexivity.
  rewrite orb_true_r.
  destruct (ScorerFacts.title_bounds
              (lowerTrim (Doc.titleCanonical x)) (lowerTrim (Doc.titleCanonical o)))
    as [_ Hle].
  unfold Math_max. apply Qle_bool_iff in Hle. rewrite Hle. reflexivity.
Qed.

Lemma scan_blind dryRun k o : forall rest sc st,
  processedArticles sc = [(k, o)] ->
  blindTitle (Doc.titleCanonical o) = true ->
  forallb (fun d => blindTitle (Doc.titleCanonical d)) rest = true ->
  duplicatesToRemove (fst (fold_left (scanStep P dryRun) rest (sc, st)))
  = duplicatesToRemove sc
    ++ map (fun x => mkDuplicate (Doc._id x) (Doc.titleCanonical x) o 1%Q
                       simple_title_match) rest.
Proof.
  induction rest as [|x rest IH]; intros sc st Hp Ho Hrest.
  - cbn. rewrite app_nil_r. reflexivity.
  - cbn [forallb] in Hrest. apply andb_true_iff in Hrest.
    destruct Hrest as [Hx Hrest].
    cbn [fold_left map].
    assert (E : findOriginal P x (processedArticles sc) st
                = (Some (o, simple_title_match, 1%Q), st)).
    { unfold findOriginal. rewrite Hp, (@titleMatch_blind x k o [] Hx Ho). reflexivity. }
    assert (Es : scanStep P dryRun (sc, st) x
                 = (mkScan (processedArticles sc)
                      (duplicatesToRemove sc
                       ++ [mkDuplicate (Doc._id x) (Doc.titleCanonical x) o 1%Q
                             simple_title_match])
                      (S (duplicatesFound sc))
                      (details sc ++
                         [mkDetail (Doc.titleCanonical x)
                            (Some (Doc.titleCanonical o))
                            simple_title_match 1%Q
                            (if dryRun then dry_run else removed)
                            [js "news-normalized"]
                            (Doc.createdAt x) (Some (Doc.createdAt o))]), st)).
    { unfold scanStep. rewrite E. reflexivity. }
    rewrite Es, IH; [|exact Hp|exact Ho|exact Hrest].
    cbn [duplicatesToRemove]. rewrite <- app_assoc. reflexivity.
Qed.

Lemma scan_blind_all dryRun w o rest :
  forallb (fun d => blindTitle (Doc.titleCanonical d)) (newsNormalized w) = true ->
  oldestFirst (newsNormalized w) = o :: rest ->
  duplicatesToRemove (fst (findAndRemoveDuplicates_scan P dryRun w))
  = map (fun x => mkDuplicate (Doc._id x) (Doc.titleCanonical x) o 1%Q
                    simple_title_match) rest.
Proof.
  intros Hall Hsort.
  assert (Hall' : forallb (fun d => blindTitle (Doc.titleCanonical d)) (o :: rest)
                  = true).
  { apply forallb_forall. intros d Hd. rewrite forallb_forall in Hall.
    apply Hall. rewrite <- Hsort in Hd.
    apply (Permutation_in _ (SweepFacts.oldestFirst_perm (newsNormalized w))).
    exact Hd. }
  cbn [forallb] in Hall'. apply andb_true_iff in Hall'. destruct Hall' as [Ho Hrest].
  unfold findAndRemoveDuplicates_scan. rewrite Hsort. cbn [fold_left].
  pose proof (@SweepFacts.scanStep_unmatched P dryRun (mkScan [] [] 0 []) (os w) o
                (SweepFacts.findOriginal_empty P o (os w))) as E.
  cbv zeta in E. rewrite E.
  cbn [processedArticles map_set duplicatesToRemove duplicatesFound details].
  match goal with
  | |- context [fold_left _ rest (mkScan [(?k, o)] ?d ?n ?ds, ?st)] =>
      rewrite (@scan_blind dryRun k o rest (mkScan [(k, o)] d n ds) st
                 eq_refl Ho Hrest)
  end.
  reflexivity.
Qed.

End Scan.

(** *** The removal loop *)

Section Removal.
Variable C : RemovalCalls.

Lemma updateFirstDetail_length t f : forall ds,
  List.length (updateFirstDetail t f ds) = List.length ds.
Proof.
  induction ds as [|d ds IH]; [reflexivity|].
  cbn [updateFirstDetail]. destruct (seqb _ _); cbn [List.length]; congruence.
Qed.

Local Abbreviation without i docs :=
  (filter (fun d => negb (Doc._id d =? i)%nat) docs).

(** One turn: the article is removed and counted, or an error is counted;
    when it is an error, the article may be gone all the same. *)
Lemma removeStep_counts acc c duplicate :
  let r := removeStep C (acc, c) duplicate in
  res_duplicatesFound (fst r) = res_duplicatesFound acc /\
  List.length (res_details (fst r)) = List.length (res_details acc) /\
  List.length (raws (snd r)) = List.length (raws c) /\
  ((res_duplicatesRemoved (fst r) = S (res_duplicatesRemoved acc) /\
    res_errors (fst r) = res_errors acc /\
    normalized (snd r) = without (dup_id duplicate) (normalized c)) \/
   (res_duplicatesRemoved (fst r) = res_duplicatesRemoved acc /\
    res_errors (fst r) = S (res_errors acc) /\
    (normalized (snd r) = normalized c \/
     normalized (snd r) = without (dup_id duplicate) (normalized c)))) /\
  (noFailure C -> res_errors (fst r) = res_errors acc).
Proof.
  unfold removeStep, failed.
  destruct (findByIdAndDelete_error C (dup_id duplicate)) as [e1|] eqn:E1.
  { cbn [fst snd res_duplicatesFound res_details res_errors res_duplicatesRemoved
         normalized raws].
    rewrite updateFirstDetail_length. repeat split; auto.
    intros (H & _ & _). rewrite H in E1. discriminate. }
  destruct (findOne_error C (dup_title duplicate)) as [e2|] eqn:E2.
  { cbn [fst snd res_duplicatesFound res_details res_errors res_duplicatesRemoved
         normalized raws].
    rewrite updateFirstDetail_length. repeat split; auto.
    intros (_ & H & _). rewrite H in E2. discriminate. }
  cbn [raws normalized index].
  destruct (find _ (raws c)) as [raw|].
  - destruct (findByIdAndUpdate_error C (raw_id raw)) as [e3|] eqn:E3.
    { cbn [fst snd res_duplicatesFound res_details res_errors res_duplicatesRemoved
           normalized raws].
      rewrite updateFirstDetail_length. repeat split; auto.
      intros (_ & _ & H). rewrite H in E3. discriminate. }
    cbn [normalized raws index].
    destruct (deleteDocument C (index c) (dup_id duplicate)) as [index'|e4];
      cbn [fst snd res_duplicatesFound res_details res_errors res_duplicatesRemoved
           normalized raws];
      rewrite updateFirstDetail_length, length_map; repeat split; auto.
  - cbn [normalized raws index].
    destruct (deleteDocument C (index c) (dup_id duplicate)) as [index'|e4];
      cbn [fst snd res_duplicatesFound res_details res_errors res_duplicatesRemoved
           normalized raws]; repeat split; auto.
Qed.

Lemma In_without i d docs :
  In d (without i docs) <-> In d docs /\ Doc._id d <> i.
Proof.
  rewrite filter_In, negb_true_iff, Nat.eqb_neq. reflexivity.
Qed.

Lemma unmarked_cons i marked docs :
  unmarked (i :: marked) docs = unmarked marked (without i docs).
Proof.
  unfold unmarked. induction docs as [|d docs IH]; [reflexivity|].
  cbn [filter]. rewrite IH. cbn [existsb].
  destruct (Doc._id d =? i)%nat; cbn [negb orb filter]; [reflexivity|].
  destruct (existsb _ marked); reflexivity.
Qed.

Lemma removeLoop_counts : forall duplicates acc c,
  let r := fold_left (removeStep C) duplicates (acc, c) in
  res_duplicatesFound (fst r) = res_duplicatesFound acc /\
  List.length (res_details (fst r)) = List.length (res_details acc) /\
  List.length (raws (snd r)) = List.length (raws c) /\
  res_duplicatesRemoved (fst r) + res_errors (fst r)
  = res_duplicatesRemoved acc + res_errors acc + List.length duplicates /\
  (forall d, In d (normalized (snd r)) -> In d (normalized c)) /\
  (forall d, In d (normalized c) -> ~ In (Doc._id d) (map dup_id duplicates) ->
             In d (normalized (snd r))) /\
  (noFailure C ->
   res_errors (fst r) = res_errors acc /\
   normalized (snd r) = unmarked (map dup_id duplicates) (normalized c)).
Proof.
  induction duplicates as [|x l IH]; intros acc c.
  - cbn. repeat split; auto.
    unfold unmarked. cbn. clear. induction (normalized c) as [|d l IH];
      [reflexivity|]. cbn. congruence.
  - cbn [fold_left].
    destruct (removeStep_counts acc c x) as (H1 & H2 & H3 & H4 & H5).
    destruct (removeStep C (acc, c) x) as [acc1 c1]. cbn [fst snd] in *.
    destruct (IH acc1 c1) as (I1 & I2 & I3 & I4 & I5 & I6 & I7).
    cbv zeta. split; [congruence|]. split; [congruence|]. split; [congruence|].
    split; [|split; [|split]].
    + rewrite I4. cbn [List.length].
      destruct H4 as [(Ha & Hb & _)|(Ha & Hb & _)]; lia.
    + intros d Hd. apply I5 in Hd.
      destruct H4 as [(_ & _ & Hn)|(_ & _ & [Hn|Hn])]; rewrite Hn in Hd;
        try exact Hd; apply In_without in Hd; tauto.
    + intros d Hd Hnot. cbn [map] in Hnot. apply I6.
      * destruct H4 as [(_ & _ & Hn)|(_ & _ & [Hn|Hn])]; rewrite Hn;
          try exact Hd; apply In_without; split; auto;
          intros E; apply Hnot; left; symmetry; exact E.
      * intros Hin. apply Hnot. right. exact Hin.
    + intros Hok. destruct (I7 Hok) as [J1 J2]. specialize (H5 Hok).
      split; [congruence|].
      cbn [map]. rewrite unmarked_cons, J2.
      destruct H4 as [(_ & _ & Hn)|(_ & He & _)]; [rewrite Hn; reflexivity|].
      exfalso. rewrite H5 in He. lia.
Qed.

End Removal.

Section Sweep.
Variable P : OpenSearch.Platform.
Variable C : RemovalCalls.
Variable w : World.
Variable raw : list RawDoc.

Lemma sweep_dry dryRun :
  match dryRun with Some b => b | None => true end = true ->
  findAndRemoveDuplicates P C dryRun w raw
  = (mkResults (duplicatesFound (fst (findAndRemoveDuplicates_scan P true w))) 0 0
       (details (fst (findAndRemoveDuplicates_scan P true w))),
     (with_os w (snd (findAndRemoveDuplicates_scan P true w)), raw)).
Proof.
  intros H. unfold findAndRemoveDuplicates. rewrite H.
  destruct (findAndRemoveDuplicates_scan P true w) as [sc st]. reflexivity.
Qed.

Lemma sweep_counts dryRun :
  let dry := match dryRun with Some b => b | None => true end in
  let sc := fst (findAndRemoveDuplicates_scan P dry w) in
  let out := findAndRemoveDuplicates P C dryRun w raw in
  res_duplicatesFound (fst out) = List.length (duplicatesToRemove sc) /\
  List.length (res_details (fst out)) = List.length (duplicatesToRemove sc) /\
  res_duplicatesRemoved (fst out) + res_errors (fst out)
  = (if dry then 0 else List.length (duplicatesToRemove sc)) /\
  (dry = true ->
   newsNormalized (fst (snd out)) = newsNormalized w /\ snd (snd out) = raw /\
   OpenSearch.indexed (os (fst (snd out))) = OpenSearch.indexed (os w)) /\
  (forall d, In d (newsNormalized (fst (snd out))) -> In d (newsNormalized w)) /\
  (forall d, In d (newsNormalized w) -> ~ In (Doc._id d) (markedIds sc) ->
             In d (newsNormalized (fst (snd out)))) /\
  List.length (snd (snd out)) = List.length raw /\
  (dry = false -> noFailure C ->
   res_errors (fst out) = 0 /\
   newsNormalized (fst (snd out)) = unmarked (markedIds sc) (newsNormalized w)).
Proof.
  intros dry sc out. subst out sc. unfold findAndRemoveDuplicates. fold dry.
  destruct (findAndRemoveDuplicates_scan_counts P dry w) as (Hi & Hf & Hd).
  destruct (findAndRemoveDuplicates_scan P dry w) as [sc st]. cbn [fst snd] in *.
  destruct dry.
  - cbn [fst snd res_duplicatesFound res_details res_duplicatesRemoved res_errors
         with_os newsNormalized os].
    repeat split; auto. discriminate.
  - destruct (removeLoop_counts C (duplicatesToRemove sc)
                (mkResults (duplicatesFound sc) 0 0 (details sc))
                (mkCorpus (newsNormalized w) raw (OpenSearch.indexed st)))
      as (H1 & H2 & H3 & H4 & H5 & H6 & H7).
    destruct (fold_left (removeStep C) (duplicatesToRemove sc) _) as [results c].
    cbn [fst snd res_duplicatesFound res_details res_duplicatesRemoved res_errors
         normalized raws newsNormalized] in *.
    split; [congruence|]. split; [congruence|]. split; [lia|].
    split; [discriminate|]. split; [exact H5|]. split; [exact H6|].
    split; [exact H3|]. intros _ Hok. apply H7. exact Hok.
Qed.

(** With distinct ids, no original is marked, and neither is the oldest
    article. *)
Lemma originals_unmarked :
  NoDup (map Doc._id (newsNormalized w)) ->
  let sc := fst (findAndRemoveDuplicates_scan P false w) in
  (forall d, In d (duplicatesToRemove sc) ->
     In (dup_original d) (newsNormalized w) /\
     ~ In (Doc._id (dup_original d)) (markedIds sc)) /\
  (forall o rest, oldestFirst (newsNormalized w) = o :: rest ->
     In o (newsNormalized w) /\ ~ In (Doc._id o) (markedIds sc)).
Proof.
  intros Hnd sc.
  pose proof (@SweepFacts.findAndRemoveDuplicates_scan_invariant P false w Hnd)
    as (_ & Hmarks & _ & Horig).
  fold sc in Hmarks, Horig.
  assert (Hperm := SweepFacts.oldestFirst_perm (newsNormalized w)).
  split.
  - intros d Hd. split; [|apply Horig; exact Hd].
    destruct (Hmarks d Hd) as (pre & cur & post & E & _ & _ & Ho).
    apply (Permutation_in _ Hperm). rewrite E. apply in_or_app. left. exact Ho.
  - intros o rest E. split.
    + apply (Permutation_in _ Hperm). rewrite E. left. reflexivity.
    + intros Hin. unfold markedIds in Hin. apply in_map_iff in Hin.
      destruct Hin as (d & Hid & Hd).
      destruct (Hmarks d Hd) as (pre & cur & post & E' & Hcur & _ & Ho).
      assert (Hnd' : NoDup (map Doc._id (o :: rest))).
      { rewrite <- E.
        apply (Permutation_NoDup (l := map Doc._id (newsNormalized w))); [|exact Hnd].
        apply Permutation_map, Permutation_sym, Hperm. }
      rewrite E in E'. destruct pre as [|p pre]; [destruct Ho|].
      cbn [app] in E'. injection E' as <- ->.
      cbn [map] in Hnd'. apply NoDup_cons_iff in Hnd'. destruct Hnd' as [Hnot _].
      apply Hnot. rewrite <- Hid, Hcur. apply in_map.
      apply in_or_app. right. left. reflexivity.
Qed.

End Sweep.

(** X22.  The sweep counts every marked article once: [duplicatesFound] is
    the number of marked articles and of details; a dry run (the default)
    removes nothing and leaves store, raw documents and index documents as
    they were; a real run counts each marked article as removed or as an
    error, only ever deletes stored articles, and never one that is not
    marked. *)
Theorem findAndRemoveDuplicates_accounting
    (P : OpenSearch.Platform) (C : RemovalCalls) (dryRun : option bool)
    (w : World) (raw : list RawDoc) :
  let dry := match dryRun with Some b => b | None => true end in
  let sc := fst (findAndRemoveDuplicates_scan P dry w) in
  let out := findAndRemoveDuplicates P C dryRun w raw in
  let results := fst out in
  let w' := fst (snd out) in
  let raw' := snd (snd out) in
  res_duplicatesFound results = List.length (duplicatesToRemove sc) /\
  List.length (res_details results) = List.length (duplicatesToRemove sc) /\
  res_duplicatesRemoved results + res_errors results
  = (if dry then 0 else List.length (duplicatesToRemove sc)) /\
  (dry = true ->
   newsNormalized w' = newsNormalized w /\ raw' = raw /\
   OpenSearch.indexed (os w') = OpenSearch.indexed (os w)) /\
  (forall d, In d (newsNormalized w') -> In d (newsNormalized w)) /\
  (forall d, In d (newsNormalized w) -> ~ In (Doc._id d) (markedIds sc) ->
             In d (newsNormalized w')) /\
  List.length raw' = List.length raw.
Proof.
  intros dry sc out results w' raw'.
  destruct (sweep_counts P C w raw dryRun) as (H1 & H2 & H3 & H4 & H5 & H6 & H7 & _).
  repeat split; auto; apply H4; assumption.
Qed.

(** X23.  A real run over a store with distinct ids keeps every original
    and the oldest article, whatever fails on the way; when none of the
    calls fails, the store afterwards holds exactly the articles that were
    not marked, and no error is counted. *)
Theorem findAndRemoveDuplicates_keeps_originals
    (P : OpenSearch.Platform) (C : RemovalCalls) (w : World) (raw : list RawDoc) :
  NoDup (map Doc._id (newsNormalized w)) ->
  let sc := fst (findAndRemoveDuplicates_scan P false w) in
  let out := findAndRemoveDuplicates P C (Some false) w raw in
  let w' := fst (snd out) in
  (forall d, In d (duplicatesToRemove sc) -> In (dup_original d) (newsNormalized w')) /\
  (forall o rest, oldestFirst (newsNormalized w) = o :: rest ->
     In o (newsNormalized w')) /\
  (noFailure C ->
   res_errors (fst out) = 0 /\
   res_duplicatesRemoved (fst out) = List.length (duplicatesToRemove sc) /\
   newsNormalized w' = unmarked (markedIds sc) (newsNormalized w)).
Proof.
  intros Hnd sc out w'.
  destruct (sweep_counts P C w raw (Some false))
    as (_ & _ & H3 & _ & _ & H6 & _ & H8).
  destruct (@originals_unmarked P w Hnd) as [Ho Hold].
  cbv zeta in H3, H6, H8. fold sc in Ho, Hold.
  split; [|split].
  - intros d Hd. destruct (Ho d Hd). apply H6; assumption.
  - intros o rest E. destruct (Hold o rest E). apply H6; assumption.
  - intros Hok. destruct (H8 eq_refl Hok) as [He Hn].
    split; [exact He|]. split; [|exact Hn].
    subst w' out sc. rewrite He in H3. lia.
Qed.

(** Scenario D, swept for real with the articles stored newest first: the
    first article stays. *)
Lemma findAndRemoveDuplicates_keeps_originals_witness :
  In first
     (newsNormalized
        (fst (snd (findAndRemoveDuplicates quietPlatform MoreSamples.calmCalls
                     (Some false) (worldWith [third; second; first]) [])))).
Proof.
  assert (Hnd : NoDup (map Doc._id (newsNormalized (worldWith [third; second; first])))).
  { cbn. repeat constructor; cbn; intros H;
      repeat (destruct H as [H|H]; [discriminate|]); exact H. }
  destruct (@findAndRemoveDuplicates_keeps_originals quietPlatform
              MoreSamples.calmCalls (worldWith [third; second; first]) [] Hnd)
    as (_ & Hold & _).
  apply (Hold first [second; third]). vm_compute. reflexivity.
Defined.

(** X24.  In a store where the lowercase of every title has no character
    of [A-Za-z0-9_] and has two words or more ([blindTitle]), the sweep marks
    every article but the oldest as a duplicate of the oldest, by
    [simple_title_match] with similarity 1, whatever the titles say. *)
Theorem sweep_marks_all_but_the_oldest
    (P : OpenSearch.Platform) (dryRun : bool) (w : World)
    (o : Doc.t) (rest : list Doc.t) :
  forallb (fun d => blindTitle (Doc.titleCanonical d)) (newsNormalized w) = true ->
  oldestFirst (newsNormalized w) = o :: rest ->
  duplicatesToRemove (fst (findAndRemoveDuplicates_scan P dryRun w))
  = map (fun x => mkDuplicate (Doc._id x) (Doc.titleCanonical x) o 1%Q
                    simple_title_match) rest.
Proof. apply scan_blind_all. Qed.

(** Three Russian headlines about the rouble, a planet and a match. *)
Lemma sweep_marks_all_but_the_oldest_witness :
  map dup_id
      (duplicatesToRemove
         (fst (findAndRemoveDuplicates_scan quietPlatform true
                 (worldWith [MoreSamples.rouble; MoreSamples.planet;
                             MoreSamples.match_won]))))
  = [22; 23].
Proof.
  rewrite (@sweep_marks_all_but_the_oldest quietPlatform true
             (worldWith [MoreSamples.rouble; MoreSamples.planet;
                         MoreSamples.match_won])
             MoreSamples.rouble [MoreSamples.planet; MoreSamples.match_won]).
  - reflexivity.
  - vm_compute. reflexivity.
  - vm_compute. reflexivity.
Defined.

End RemovalFacts.

(* ------------------------------------------------------------------ *)
(** ** [processNews] when a collaborator fails *)

Module FailureFacts.
Import Dedup Samples.

Lemma required_some (o : option jsstring) x : required o = Some x -> o = Some x.
Proof. unfold required. destruct (truthy o); [auto|discriminate]. Qed.

(** A record the store makes of the object [processNews] builds is a record
    of the article. *)
Lemma validate_recordOf oid now newsData fallback doc :
  validate oid now (normalizedNewsData newsData fallback) = Some doc ->
  Statements.recordOf newsData doc.
Proof.
  unfold validate. intros Ev.
  destruct (Normalized.newsRawId _) as [raw|] eqn:E1; [|discriminate].
  destruct (Normalized.sourceId _) as [sid|] eqn:E2; [|discriminate].
  destruct (required (Normalized.externalId _)) as [ext|] eqn:E3; [|discriminate].
  destruct (required (Normalized.source _)) as [src|] eqn:E4; [|discriminate].
  destruct (required (Normalized.url _)) as [u|] eqn:E5; [|discriminate].
  destruct (required (Normalized.titleCanonical _)) as [t|] eqn:E6; [|discriminate].
  destruct (required (Normalized.lang _)) as [la|] eqn:E7; [|discriminate].
  destruct (Normalized.publishedAt _) as [p|]; [|discriminate].
  destruct (required (Normalized.summaryShort _)) as [sm|] eqn:E8; [|discriminate].
  destruct (match p with inl [] => true | _ => false end); [discriminate|].
  injection Ev as <-.
  apply required_some in E3, E4, E5, E6, E7, E8.
  cbn [normalizedNewsData Normalized.newsRawId Normalized.sourceId
       Normalized.externalId Normalized.source Normalized.url
       Normalized.titleCanonical Normalized.lang Normalized.summaryShort]
    in E1, E2, E3, E4, E5, E6, E7, E8.
  unfold Statements.recordOf.
  cbn [Doc.newsRawId Doc.sourceId Doc.externalId Doc.source Doc.url
       Doc.titleCanonical Doc.lang Doc.summaryShort].
  repeat split; assumption.
Qed.

(** With the search client failing, [checkForDuplicates] catches the
    exception and reports no duplicate. *)
Lemma checkForDuplicates_search_down P news st :
  (forall docs request, exists e, OpenSearch.search P docs request = Throw e) ->
  fst (OpenSearch.checkForDuplicates P news st) = OpenSearch.notDuplicate None.
Proof.
  intros Hdown. unfold OpenSearch.checkForDuplicates.
  assert (Hsem : forall t c st',
             fst (OpenSearch.semanticStage P news t c st')
             = OpenSearch.notDuplicate None).
  { intros t c st'. unfold OpenSearch.semanticStage, OpenSearch.client_search.
    destruct (Hdown (OpenSearch.indexed st')
                (OpenSearch.MoreLikeThisQuery (OpenSearch.title news)
                   (OpenSearch.content news))) as [e ->].
    reflexivity. }
  destruct (20 <=? _); [|apply Hsem].
  unfold OpenSearch.hashStage.
  destruct (OpenSearch.generateContentHash P _ st) as [ch st1].
  destruct (OpenSearch.generateContentHash P _ st1) as [th st2].
  unfold OpenSearch.client_search.
  destruct (Hdown (OpenSearch.indexed st2) (OpenSearch.ExactHashQuery ch th))
    as [e ->].
  reflexivity.
Qed.

(** The [catch] block, from the world [w1] the exception left: it leaves
    the index alone, and answers by what the store does with the write. *)
Lemma fallbackSave_answer DB newsData w1 :
  let out := fallbackSave DB newsData w1 in
  os (snd out) = os w1 /\ original (fst out) = None /\
  (reason (fst out) = SavedToMongoOnly \/
   exists message, reason (fst out) = SaveFailed message) /\
  (reason (fst out) = SavedToMongoOnly ->
   saved (fst out) = true /\
   exists doc, newsNormalized (snd out) = newsNormalized w1 ++ [doc] /\
               Statements.recordOf newsData doc) /\
  (forall message, reason (fst out) = SaveFailed message ->
   saved (fst out) = false /\ snd out = w1 /\
   (create_error DB (newsNormalized w1) (normalizedNewsData newsData true)
    = Some message \/
    (validate (nextObjectId w1) (clock w1) (normalizedNewsData newsData true) = None /\
     message = js "NewsNormalized validation failed"))).
Proof.
  unfold fallbackSave, create.
  destruct (create_error DB _ _) as [e|];
    [|destruct (validate _ _ _) as [doc|] eqn:Ev];
    cbn [fst snd os newsNormalized reason saved original].
  - split; [reflexivity|]. split; [reflexivity|]. split; [eauto|].
    split; [discriminate|].
    intros message H. injection H as <-. auto.
  - split; [reflexivity|]. split; [reflexivity|]. split; [auto|].
    split; [|discriminate].
    intros _. split; [reflexivity|]. exists doc. split; [reflexivity|].
    eapply validate_recordOf. exact Ev.
  - split; [reflexivity|]. split; [reflexivity|]. split; [eauto|].
    split; [discriminate|].
    intros message H. injection H as <-. auto.
Qed.

Section Process.
Variable P : OpenSearch.Platform.
Variable DB : Store.
Variable newsData : NewsData.t.
Variable w : World.

Local Abbreviation check :=
  (OpenSearch.checkForDuplicates P (newsDocumentOf newsData (clock w)) (os w)).
Local Abbreviation out := (processNews P DB newsData w).
Local Abbreviation attempt :=
  (create DB (normalizedNewsData newsData false) (with_os w (snd check))).
Local Abbreviation indexing doc :=
  (OpenSearch.indexNews P
     (withId (newsDocumentOf newsData (clock w)) (Doc._id doc)) (os (snd attempt))).

(** The four ways through [processNews] for an article with a title: the
    rejection, the [create] that throws, the [indexNews] that throws after
    it, and the save. *)
Lemma processNews_ways :
  trim (titleTextOf newsData) <> [] ->
  (exists m s, reason (fst out) = ConfirmedDuplicate m s) \/
  (exists e, attempt = (Throw e, with_os w (snd check)) /\
             out = fallbackSave DB newsData (with_os w (snd check))) \/
  (exists doc e,
     fst attempt = Ok doc /\
     newsNormalized (snd attempt) = newsNormalized w ++ [doc] /\
     fst (indexing doc) = Throw e /\
     out = fallbackSave DB newsData (with_os (snd attempt) (snd (indexing doc)))) \/
  (exists doc oid,
     fst attempt = Ok doc /\ fst (indexing doc) = Ok oid /\
     fst out = mkProcessResult true NewArticleSaved None).
Proof.
  intros Htitle. unfold processNews, processNews_try.
  destruct (trim (titleTextOf newsData)) as [|c r]; [congruence|].
  destruct check as [dr st]. cbn [fst snd].
  destruct (_ && _).
  - left. cbn. eauto.
  - right.
    destruct (ProcessMoreFacts.create_cases DB (normalizedNewsData newsData false)
                (with_os w st)) as [[e E]|(doc & _ & E)]; rewrite E.
    + left. exists e. split; reflexivity.
    + right. cbn [fst snd os newsNormalized with_os].
      destruct (OpenSearch.indexNews P _ st) as [[oid|e] st1] eqn:Ei.
      * right. exists doc, oid. rewrite Ei. cbn [fst]. auto.
      * left. exists doc, e. rewrite Ei. cbn [fst snd]. auto.
Qed.

End Process.

(** C5, as written, fails: with a search client that refuses every request
    and an index that takes documents, the sample article is stored and
    indexed as a new article; the store-only fallback is not taken. *)
Lemma search_failure_is_no_fallback :
  let out := processNews MoreSamples.downPlatform demoStore goodArticle emptyWorld in
  (forall docs request,
     OpenSearch.search MoreSamples.downPlatform docs request
     = Throw (js "connect ECONNREFUSED")) /\
  ~ (reason (fst out) = SavedToMongoOnly /\ OpenSearch.indexed (os (snd out)) = []) /\
  fst out = mkProcessResult true NewArticleSaved None /\
  map OpenSearch.id (OpenSearch.indexed (os (snd out))) = [Some (js "0")].
Proof.
  split; [reflexivity|]. split.
  - vm_compute. intros [H _]. discriminate.
  - vm_compute. split; reflexivity.
Qed.

(** C5, amended.  For an article with a title.  A failure of the search
    client during the duplicate check is caught by [checkForDuplicates],
    which reports no duplicate: the article is not rejected, and when it
    meets the schema and the store and the index accept it, it is stored and
    indexed as a new article.  The fallback is the answer exactly when the
    article is not rejected and saving it fails: [NewsNormalized.create]
    throws, or [indexNews] throws after it.  The fallback leaves the index
    as it was.  Its answer [Saved to MongoDB (OpenSearch failed)] comes with
    [saved = true] and a record of the article at the end of the store; its
    answer [Save failed: message] comes with [saved = false] and the message
    of the error the store gave to the fallback write. *)
Theorem processNews_falls_back_when_saving_fails
    (P : OpenSearch.Platform) (DB : Store) (newsData : NewsData.t) (w : World) :
  trim (titleTextOf newsData) <> [] ->
  let check :=
    OpenSearch.checkForDuplicates P (newsDocumentOf newsData (clock w)) (os w) in
  let out := processNews P DB newsData w in
  let rejected := exists m s, reason (fst out) = ConfirmedDuplicate m s in
  let attempt :=
    create DB (normalizedNewsData newsData false) (with_os w (snd check)) in
  let savingFails :=
    match fst attempt with
    | Throw _ => True
    | Ok doc =>
        exists e,
          fst (OpenSearch.indexNews P
                 (withId (newsDocumentOf newsData (clock w)) (Doc._id doc))
                 (os (snd attempt))) = Throw e
    end in
  let fellBack :=
    reason (fst out) = SavedToMongoOnly \/
    exists message, reason (fst out) = SaveFailed message in
  ((forall docs request, exists e, OpenSearch.search P docs request = Throw e) ->
   ~ rejected /\
   (Statements.meetsSchema newsData = true ->
    NewsData.created_at newsData <> Some Invalid_Date ->
    create_error DB (newsNormalized w) (normalizedNewsData newsData false) = None ->
    (forall d, OpenSearch.index_error P (OpenSearch.indexed (os w)) d = None) ->
    fst out = mkProcessResult true NewArticleSaved None /\
    exists doc d,
      newsNormalized (snd out) = newsNormalized w ++ [doc] /\
      Statements.recordOf newsData doc /\
      OpenSearch.indexed (os (snd out)) = OpenSearch.indexed (os w) ++ [d] /\
      OpenSearch.id d = Some (showNat (Doc._id doc)))) /\
  (fellBack <-> ~ rejected /\ savingFails) /\
  (fellBack ->
   original (fst out) = None /\
   OpenSearch.indexed (os (snd out)) = OpenSearch.indexed (os w)) /\
  (reason (fst out) = SavedToMongoOnly ->
   saved (fst out) = true /\
   exists pre doc,
     newsNormalized (snd out) = newsNormalized w ++ pre ++ [doc] /\
     List.length pre <= 1 /\
     Statements.recordOf newsData doc) /\
  (forall message, reason (fst out) = SaveFailed message ->
   saved (fst out) = false /\
   (exists pre, newsNormalized (snd out) = newsNormalized w ++ pre /\
                List.length pre <= 1) /\
   (create_error DB (newsNormalized (snd out)) (normalizedNewsData newsData true)
    = Some message \/
    (validate (nextObjectId (snd out)) (clock (snd out))
       (normalizedNewsData newsData true) = None /\
     message = js "NewsNormalized validation failed"))).
Proof.
  intros Htitle check out rejected attempt savingFails fellBack.
  pose proof (CheckMoreFacts.checkForDuplicates_effects P
                (newsDocumentOf newsData (clock w)) (os w)) as (Hread & _).
  fold check in Hread.
  pose proof (@processNews_ways P DB newsData w Htitle) as Hways.
  fold check attempt out in Hways.
  split.
  { intros Hdown.
    pose proof (@checkForDuplicates_search_down P
                  (newsDocumentOf newsData (clock w)) (os w) Hdown) as Hcheck.
    fold check in Hcheck.
    assert (Hlow : OpenSearch.isDuplicate (fst check)
                   && confirmedScore (OpenSearch.dup_similarity_score (fst check))
                   = false) by (rewrite Hcheck; reflexivity).
    destruct (@ProcessFacts.rejected_iff P DB newsData w Htitle) as [_ Hno].
    fold check out in Hno.
    split.
    - intros (m & s & H). exact (Hno Hlow m s H).
    - intros Hschema Hdate Hstore Hindex.
      rewrite <- Hread in Hindex.
      destruct (@ProcessFacts.saved_when_not_rejected P DB newsData w Htitle Hlow
                  Hschema Hdate Hstore Hindex)
        as (Hsaved & doc & d & Hs & _ & Hrec & Hi & Hid & _).
      fold check out in Hsaved, Hs, Hi.
      split; [exact Hsaved|]. exists doc, d.
      rewrite <- Hread. auto. }
  assert (Hfb : forall w1,
             out = fallbackSave DB newsData w1 ->
             fellBack /\ ~ rejected /\
             original (fst out) = None /\
             os (snd out) = os w1 /\
             (reason (fst out) = SavedToMongoOnly ->
              saved (fst out) = true /\
              exists doc, newsNormalized (snd out) = newsNormalized w1 ++ [doc] /\
                          Statements.recordOf newsData doc) /\
             (forall message, reason (fst out) = SaveFailed message ->
              saved (fst out) = false /\ newsNormalized (snd out) = newsNormalized w1 /\
              (create_error DB (newsNormalized (snd out))
                 (normalizedNewsData newsData true) = Some message \/
               (validate (nextObjectId (snd out)) (clock (snd out))
                  (normalizedNewsData newsData true) = None /\
                message = js "NewsNormalized validation failed")))).
  { intros w1 E.
    destruct (fallbackSave_answer DB newsData w1) as (Hos & Ho & Hr & Hok & Hfail).
    unfold fellBack, rejected. rewrite E.
    split; [exact Hr|]. split.
    - intros (m & s & H). destruct Hr as [Hr|[msg Hr]]; rewrite Hr in H; discriminate.
    - split; [exact Ho|]. split; [exact Hos|]. split; [exact Hok|].
      intros message H. destruct (Hfail message H) as (Hs & Hw & Hm).
      rewrite Hw. auto. }
  destruct Hways as [Hrej|[(e & Ea & Eo)|[(doc & e & Ea & Hst & Ei & Eo)|
                                          (doc & oid & Ea & Ei & Eo)]]].
  - (* rejected *)
    assert (Hnf : ~ fellBack).
    { destruct Hrej as (m & s & H). unfold fellBack. rewrite H.
      intros [H'|[msg H']]; discriminate. }
    split; [split; [intros H; contradiction|intros [H _]; contradiction]|].
    split; [intros H; contradiction|].
    destruct Hrej as (m & s & H). rewrite H.
    split; [discriminate|]. intros message H'. discriminate.
  - (* create throws *)
    destruct (Hfb _ Eo) as (Hf & Hnr & Ho & Hos & Hok & Hfail).
    split.
    { split; [intros _|intros _; exact Hf]. split; [exact Hnr|].
      unfold savingFails. rewrite Ea. exact I. }
    split; [intros _; split; [exact Ho|]; rewrite Hos; exact Hread|].
    split.
    + intros H. destruct (Hok H) as (Hs & d & Hd & Hrec).
      split; [exact Hs|]. exists [], d. cbn [app List.length].
      split; [exact Hd|]. split; [lia|exact Hrec].
    + intros message H. destruct (Hfail message H) as (Hs & Hw & Hm).
      split; [exact Hs|]. split; [|exact Hm].
      exists []. rewrite app_nil_r. split; [exact Hw|cbn; lia].
  - (* indexNews throws *)
    destruct (Hfb _ Eo) as (Hf & Hnr & Ho & Hos & Hok & Hfail).
    cbn [with_os os newsNormalized] in Hos, Hok, Hfail.
    rewrite Hst in Hok, Hfail.
    destruct (ProcessMoreFacts.indexNews_cases P
                (withId (newsDocumentOf newsData (clock w)) (Doc._id doc))
                (os (snd attempt))) as [(e' & _ & Hkeep)|(oid & d & Er & _)];
      [|rewrite Ei in Er; discriminate].
    assert (Hos' : OpenSearch.indexed (os (snd attempt)) = OpenSearch.indexed (os w)).
    { destruct (ProcessMoreFacts.create_cases DB (normalizedNewsData newsData false)
                  (with_os w (snd check))) as [[e0 E]|(doc0 & _ & E)];
        fold attempt in E; rewrite E; cbn [snd os with_os]; exact Hread. }
    split.
    { split; [intros _|intros _; exact Hf]. split; [exact Hnr|].
      unfold savingFails. rewrite Ea. exists e. exact Ei. }
    split; [intros _; split; [exact Ho|]; rewrite Hos, Hkeep; exact Hos'|].
    split.
    + intros H. destruct (Hok H) as (Hs & d & Hd & Hrec).
      split; [exact Hs|]. exists [doc], d.
      split; [rewrite Hd, <- app_assoc; reflexivity|].
      split; [cbn; lia|exact Hrec].
    + intros message H. destruct (Hfail message H) as (Hs & Hw & Hm).
      split; [exact Hs|]. split; [|exact Hm].
      exists [doc]. split; [exact Hw|cbn; lia].
  - (* saved *)
    assert (Hnf : ~ fellBack).
    { unfold fellBack. rewrite Eo. intros [H'|[msg H']]; discriminate. }
    split.
    { split; [intros H; contradiction|].
      intros [_ H]. unfold savingFails in H. rewrite Ea in H.
      destruct H as [e H]. rewrite Ei in H. discriminate. }
    split; [intros H; contradiction|].
    rewrite Eo. split; [discriminate|]. intros message H'. discriminate.
Qed.

(** The sample article, twice.  With the search client down and the index
    up it is stored and indexed under the id of its record.  With the search
    client up and the index down the fallback stores it: the answer is
    [saved = true] with the fallback reason, and the index stays empty. *)
Lemma processNews_falls_back_when_saving_fails_witness :
  (let out := processNews MoreSamples.downPlatform demoStore goodArticle emptyWorld in
   fst out = mkProcessResult true NewArticleSaved None /\
   exists doc d,
     newsNormalized (snd out) = [doc] /\
     OpenSearch.indexed (os (snd out)) = [d] /\
     OpenSearch.id d = Some (showNat (Doc._id doc))) /\
  (let out := processNews (demoPlatform [] true) demoStore goodArticle emptyWorld in
   reason (fst out) = SavedToMongoOnly /\
   saved (fst out) = true /\
   OpenSearch.indexed (os (snd out)) = []).
Proof.
  assert (Htitle : trim (titleTextOf goodArticle) <> [])
    by (vm_compute; discriminate).
  split.
  - destruct (@processNews_falls_back_when_saving_fails
                MoreSamples.downPlatform demoStore goodArticle emptyWorld Htitle)
      as (Hdown & _).
    destruct (Hdown (fun _ _ => ex_intro _ (js "connect ECONNREFUSED") eq_refl))
      as (_ & Hsave).
    assert (Hschema : Statements.meetsSchema goodArticle = true)
      by (vm_compute; reflexivity).
    assert (Hdate : NewsData.created_at goodArticle <> Some Invalid_Date)
      by discriminate.
    destruct (Hsave Hschema Hdate eq_refl (fun d => eq_refl))
      as (Hsaved & doc & d & Hs & _ & Hi & Hid).
    split; [exact Hsaved|]. exists doc, d. auto.
  - destruct (@processNews_falls_back_when_saving_fails
                (demoPlatform [] true) demoStore goodArticle emptyWorld Htitle)
      as (_ & _ & Hkeep & Hok & _).
    assert (Hr : reason (fst (processNews (demoPlatform [] true) demoStore goodArticle
                                emptyWorld)) = SavedToMongoOnly)
      by (vm_compute; reflexivity).
    split; [exact Hr|]. split; [apply (Hok Hr)|].
    apply (Hkeep (or_introl Hr)).
Defined.

End FailureFacts.

